(** * ExamApp: proctoring scheduler and exam session controller

  A shallow embedding of the client-side core of the exam application:
  - [src/hooks/useProctoring.ts]  (module [Proctoring]),
  - [ExamScreen.tsx]              (module [Exam]),
  - the close paths of [src/components/ViolationModal.tsx].

  Both source files are React function components/hooks.  A function
  declared in the body of a component is re-created on every render and
  reads the state variables of the render that created it; a state setter
  writes the live state cell.  The embedding keeps the two apart: every
  embedded function takes the closure it was created in (the values it
  reads) and transforms the live world (the cells it writes).  A handler
  bound in JSX is always the one of the latest render; a callback handed
  to [setInterval]/[setTimeout] or returned as an effect cleanup is the
  one of the render in which the effect ran.

  Asynchronous functions are cut at their [await]s: one definition per
  segment, the suspended invocation being stored in the world until the
  environment delivers the awaited result. *)

From Stdlib Require Import ZArith List String Bool Lia.
From stdpp Require Import base option list gmap strings pretty.

(** ** JavaScript completions *)

Module Js.

(** Values that the modelled code can see thrown. *)
Inductive Error :=
| TypeError (msg : string)                     (* reading a property of undefined *)
| ApiError (message : string) (status : option Z). (* rejected request *)

Inductive Completion (A : Type) :=
| Normal (a : A)
| Throw (e : Error).
Arguments Normal {A} a.
Arguments Throw {A} e.

(** [Math.floor((a - b) / 1000)] on integral millisecond stamps. *)
Definition floor_seconds (a b : Z) : Z := ((a - b) / 1000)%Z.

End Js.

(** ** useProctoring.ts *)

Module Proctoring.
Import Js.

Definition nl : string := String (Ascii.ascii_of_nat 10) EmptyString.

Record ViolationModalState := {
  visible : bool;
  violationType : string;
  violationTitle : string;
  violationMessage : string;
  totalViolations : Z;
  isDisqualified : bool }.

Inductive AppStateStatus := active | background | inactive.

(** [examApi.ts]: the parts of [SnapshotResponse] the hook reads.
    [violations] is [any[]] and the hook guards it with [|| []], hence the
    option; an entry is read through its [type] field only. *)
Record Violation := { type : string }.

Record Analysis := {
  success : bool;
  error : string;
  violations : option (list Violation);
  faces_detected : Z }.

Record SnapshotResponse := {
  snapshot_uploaded : bool;
  analysis : Analysis;
  violation_count : Z;
  auto_disqualified : bool;
  storage_type : string }.

(** The device constants of [prepareSnapshotData] are kept as one value. *)
Record Metadata := {
  user_agent : string;
  screen_resolution : string;
  device_pixel_ratio : Z;
  timezone : string }.

Record SnapshotData := {
  image_data : string;
  timestamp : string;
  metadata : Metadata }.

(** The [useState] cells of the hook. *)
Record HookState := {
  snapshotCount : Z;
  lastSnapshotTime : option string;
  isTakingSnapshot : bool;
  violationCount : Z;
  appState : AppStateStatus;
  cameraReady : bool;
  hasPermission : bool;
  violationModal : ViolationModalState }.

Definition initialModal : ViolationModalState :=
  {| visible := false; violationType := ""; violationTitle := "";
     violationMessage := ""; totalViolations := 0; isDisqualified := false |}.

Definition initialState (current : AppStateStatus) : HookState :=
  {| snapshotCount := 0; lastSnapshotTime := None; isTakingSnapshot := false;
     violationCount := 0; appState := current; cameraReady := false;
     hasPermission := false; violationModal := initialModal |}.

(** The arguments of the hook, and the device constants it reads. *)
Record Props := {
  attemptId : Z;
  isProctoringEnabled : bool;
  device : Metadata }.

(** What the functions of one render read: the hook's arguments and the
    state values of that render. *)
Record Closure := {
  props : Props;
  captured : HookState }.

(** External calls made by the hook. *)
Inductive Call :=
| TakePhoto
| Upload (attempt : Z) (data : SnapshotData).

(** Results delivered by the environment.  [takePhoto], [RNFS.readFile] and
    [RNFS.unlink] are one round trip: it fails or yields the base64 text. *)
Inductive PhotoOutcome := PhotoFailed | PhotoBase64 (img : string).
Inductive UploadOutcome := Resolved (response : SnapshotResponse) | Rejected (e : Error).

Inductive AwaitPoint :=
| AwaitPhoto
| AwaitUpload (data : SnapshotData).

(** A suspended invocation of [takeAndUploadSnapshot]. *)
Record Suspended := { owner : Closure; point : AwaitPoint }.

(** A pending [setTimeout]/[setInterval]; the callback is
    [() => takeAndUploadSnapshot()] of the render [callback]. *)
Record Timer := { timerId : nat; repeating : bool; callback : Closure }.

Record World := {
  state : HookState;
  snapshotIntervalRef : option nat;
  cameraRef : bool;                 (* cameraRef.current is set *)
  timers : list Timer;
  nextTimerId : nat;
  inflight : list Suspended;
  calls : list Call }.

(** *** State setters *)

Definition setSnapshotCount (f : Z -> Z) (s : HookState) : HookState :=
  {| snapshotCount := f (snapshotCount s); lastSnapshotTime := lastSnapshotTime s;
     isTakingSnapshot := isTakingSnapshot s; violationCount := violationCount s;
     appState := appState s; cameraReady := cameraReady s;
     hasPermission := hasPermission s; violationModal := violationModal s |}.

Definition setLastSnapshotTime (t : option string) (s : HookState) : HookState :=
  {| snapshotCount := snapshotCount s; lastSnapshotTime := t;
     isTakingSnapshot := isTakingSnapshot s; violationCount := violationCount s;
     appState := appState s; cameraReady := cameraReady s;
     hasPermission := hasPermission s; violationModal := violationModal s |}.

Definition setIsTakingSnapshot (b : bool) (s : HookState) : HookState :=
  {| snapshotCount := snapshotCount s; lastSnapshotTime := lastSnapshotTime s;
     isTakingSnapshot := b; violationCount := violationCount s;
     appState := appState s; cameraReady := cameraReady s;
     hasPermission := hasPermission s; violationModal := violationModal s |}.

Definition setViolationCount (n : Z) (s : HookState) : HookState :=
  {| snapshotCount := snapshotCount s; lastSnapshotTime := lastSnapshotTime s;
     isTakingSnapshot := isTakingSnapshot s; violationCount := n;
     appState := appState s; cameraReady := cameraReady s;
     hasPermission := hasPermission s; violationModal := violationModal s |}.

Definition setAppState (a : AppStateStatus) (s : HookState) : HookState :=
  {| snapshotCount := snapshotCount s; lastSnapshotTime := lastSnapshotTime s;
     isTakingSnapshot := isTakingSnapshot s; violationCount := violationCount s;
     appState := a; cameraReady := cameraReady s;
     hasPermission := hasPermission s; violationModal := violationModal s |}.

Definition setCameraReady (b : bool) (s : HookState) : HookState :=
  {| snapshotCount := snapshotCount s; lastSnapshotTime := lastSnapshotTime s;
     isTakingSnapshot := isTakingSnapshot s; violationCount := violationCount s;
     appState := appState s; cameraReady := b;
     hasPermission := hasPermission s; violationModal := violationModal s |}.

Definition setHasPermission (b : bool) (s : HookState) : HookState :=
  {| snapshotCount := snapshotCount s; lastSnapshotTime := lastSnapshotTime s;
     isTakingSnapshot := isTakingSnapshot s; violationCount := violationCount s;
     appState := appState s; cameraReady := cameraReady s;
     hasPermission := b; violationModal := violationModal s |}.

Definition setViolationModal (f : ViolationModalState -> ViolationModalState)
    (s : HookState) : HookState :=
  {| snapshotCount := snapshotCount s; lastSnapshotTime := lastSnapshotTime s;
     isTakingSnapshot := isTakingSnapshot s; violationCount := violationCount s;
     appState := appState s; cameraReady := cameraReady s;
     hasPermission := hasPermission s; violationModal := f (violationModal s) |}.

(** *** World updates *)

Definition onState (f : HookState -> HookState) (w : World) : World :=
  {| state := f (state w); snapshotIntervalRef := snapshotIntervalRef w;
     cameraRef := cameraRef w; timers := timers w; nextTimerId := nextTimerId w;
     inflight := inflight w; calls := calls w |}.

Definition logCall (c : Call) (w : World) : World :=
  {| state := state w; snapshotIntervalRef := snapshotIntervalRef w;
     cameraRef := cameraRef w; timers := timers w; nextTimerId := nextTimerId w;
     inflight := inflight w; calls := calls w ++ [c] |}.

Definition withInflight (l : list Suspended) (w : World) : World :=
  {| state := state w; snapshotIntervalRef := snapshotIntervalRef w;
     cameraRef := cameraRef w; timers := timers w; nextTimerId := nextTimerId w;
     inflight := l; calls := calls w |}.

Definition withTimers (l : list Timer) (next : nat) (w : World) : World :=
  {| state := state w; snapshotIntervalRef := snapshotIntervalRef w;
     cameraRef := cameraRef w; timers := l; nextTimerId := next;
     inflight := inflight w; calls := calls w |}.

Definition withIntervalRef (r : option nat) (w : World) : World :=
  {| state := state w; snapshotIntervalRef := r;
     cameraRef := cameraRef w; timers := timers w; nextTimerId := nextTimerId w;
     inflight := inflight w; calls := calls w |}.

Definition withCameraRef (b : bool) (w : World) : World :=
  {| state := state w; snapshotIntervalRef := snapshotIntervalRef w;
     cameraRef := b; timers := timers w; nextTimerId := nextTimerId w;
     inflight := inflight w; calls := calls w |}.

(** *** The world monad: state passing with thrown errors.
    State written before a throw stays written. *)

Definition M (A : Type) : Type := World -> World * Completion A.

Definition ret {A} (a : A) : M A := fun w => (w, Normal a).
Definition throw {A} (e : Error) : M A := fun w => (w, Throw e).
Definition bind {A B} (m : M A) (k : A -> M B) : M B :=
  fun w => match m w with
           | (w', Normal a) => k a w'
           | (w', Throw e) => (w', Throw e)
           end.
Definition modify (f : HookState -> HookState) : M unit :=
  fun w => (onState f w, Normal tt).
Definition gets {A} (f : World -> A) : M A :=
  fun w => (w, Normal (f w)).
Definition call (c : Call) : M unit :=
  fun w => (logCall c w, Normal tt).

#[global] Instance M_ret : MRet M := @ret.
#[global] Instance M_bind : MBind M := fun A B k m => bind m k.

(** *** getViolationDetails: a [switch] without [default] *)

Record Details := { title : string; message : string }.

Definition getViolationDetails (violationType : string) : option Details :=
  if String.eqb violationType "no_face" then
    Some {| title := "Face Not Detected";
            message := "Your face is not visible in the camera." +:+ nl +:+ nl
              +:+ "📌 Action Required:" +:+ nl
              +:+ "• Position yourself so your face is clearly visible" +:+ nl
              +:+ "• Ensure proper lighting" +:+ nl
              +:+ "• Look at the screen" |}
  else if String.eqb violationType "multiple_faces" then
    Some {| title := "Multiple Faces Detected";
            message := "More than one person detected in the frame." +:+ nl +:+ nl
              +:+ "📌 Action Required:" +:+ nl
              +:+ "• Ensure you are alone during the exam" +:+ nl
              +:+ "• Remove others from camera view" +:+ nl
              +:+ "• Maintain exam integrity" |}
  else if String.eqb violationType "looking_away" then
    Some {| title := "Looking Away Detected";
            message := "You appear to be looking away from the screen." +:+ nl +:+ nl
              +:+ "📌 Action Required:" +:+ nl
              +:+ "• Keep your eyes on the exam" +:+ nl
              +:+ "• Focus on the questions" +:+ nl
              +:+ "• Avoid looking at other materials" |}
  else if String.eqb violationType "suspicious_gaze" then
    Some {| title := "Suspicious Eye Movement";
            message := "Unusual eye movement pattern detected." +:+ nl +:+ nl
              +:+ "📌 Action Required:" +:+ nl
              +:+ "• Focus on the exam screen" +:+ nl
              +:+ "• Avoid looking around" +:+ nl
              +:+ "• Keep your gaze steady" |}
  else if String.eqb violationType "head_pose_violation" then
    Some {| title := "Unusual Head Position";
            message := "Your head position seems unusual." +:+ nl +:+ nl
              +:+ "📌 Action Required:" +:+ nl
              +:+ "• Face the screen directly" +:+ nl
              +:+ "• Sit upright" +:+ nl
              +:+ "• Maintain proper posture" |}
  else None.

(** The five [case] labels of the switch. *)
Definition handledTypes : list string :=
  ["no_face"; "multiple_faces"; "looking_away"; "suspicious_gaze";
   "head_pose_violation"].

(** *** showViolationModal / closeViolationModal *)

(** What reading [details.title] throws when [details] is undefined. *)
Definition undefinedTitle : Error :=
  TypeError "Cannot read properties of undefined (reading 'title')".

(** [details.title] is evaluated while the argument of [setViolationModal]
    is built: with [details] undefined it throws before the setter runs. *)
Definition showViolationModal (violationType : string) (total : Z)
    (disqualified : bool) : M unit :=
  match getViolationDetails violationType with
  | None => throw undefinedTitle
  | Some details =>
      modify (setViolationModal (fun _ =>
        {| visible := true;
           violationType := violationType;
           violationTitle := title details;
           violationMessage := message details;
           totalViolations := total;
           isDisqualified := disqualified |}))
  end.

Definition hide (prev : ViolationModalState) : ViolationModalState :=
  {| visible := false;
     violationType := violationType prev;
     violationTitle := violationTitle prev;
     violationMessage := violationMessage prev;
     totalViolations := totalViolations prev;
     isDisqualified := isDisqualified prev |}.

Definition closeViolationModal : M unit := modify (setViolationModal hide).

(** *** captureImageSilently *)

(** [appState === 'active'] *)
Definition is_active (a : AppStateStatus) : bool :=
  match a with active => true | _ => false end.

Definition sameAppState (a b : AppStateStatus) : bool :=
  match a, b with
  | active, active | background, background | inactive, inactive => true
  | _, _ => false
  end.

(** The synchronous prefix: [false] when the function returned [null]
    without touching the camera, [true] when [takePhoto] was called and the
    invocation is suspended on it. *)
Definition captureImageSilently (c : Closure) : M bool :=
  if negb (is_active (appState (captured c))) then mret false
  else
    ready ← gets cameraRef;
    if negb ready then mret false
    else if negb (hasPermission (captured c)) then mret false
    else call TakePhoto ;; mret true.

(** The rest of it: every failure of the round trip is caught and mapped to
    [null]. *)
Definition captureResult (o : PhotoOutcome) : option string :=
  match o with
  | PhotoFailed => None
  | PhotoBase64 img => Some img
  end.

Definition prepareSnapshotData (p : Props) (iso : string) (base64Image : string)
    : SnapshotData :=
  {| image_data := base64Image; timestamp := iso; metadata := device p |}.

(** *** takeAndUploadSnapshot *)

Inductive Next :=
| Return (v : option SnapshotResponse)
| Await (p : AwaitPoint).

(** [catch (error) { console.error(...) }] and
    [finally { setIsTakingSnapshot(false) }]. *)
Definition catchBlock (e : Error) : M Next := mret (Return None).
Definition finallyBlock : M unit := modify (setIsTakingSnapshot false).

(** One segment of the [try] body: a segment that suspends stays inside the
    [try]; one that returns runs [finally]; one that throws runs [catch],
    then [finally]. *)
Definition tryCatchFinally (segment : M Next) : M Next :=
  fun w =>
    match segment w with
    | (w', Normal (Await p)) => (w', Normal (Await p))
    | (w', Normal (Return v)) => (finallyBlock ;; mret (Return v)) w'
    | (w', Throw e) => (n ← catchBlock e; finallyBlock ;; mret n) w'
    end.

(** From [setIsTakingSnapshot(true)] to the first [await]. *)
Definition segmentEnter (c : Closure) : M Next :=
  modify (setIsTakingSnapshot true) ;;
  started ← captureImageSilently c;
  if started : bool then mret (Await AwaitPhoto)
  else mret (Return None).

(** From the captured image to the upload request.  [!base64Image] holds for
    [null] and for the empty string. *)
Definition segmentPhoto (c : Closure) (o : PhotoOutcome) (iso : string) : M Next :=
  match captureResult o with
  | None => mret (Return None)
  | Some base64Image =>
      if String.eqb base64Image "" then mret (Return None)
      else
        let snapshotData := prepareSnapshotData (props c) iso base64Image in
        call (Upload (attemptId (props c)) snapshotData) ;;
        mret (Await (AwaitUpload snapshotData))
  end.

(** From the server response to [return response]. *)
Definition segmentUpload (c : Closure) (o : UploadOutcome) (currentTime : string)
    : M Next :=
  match o with
  | Rejected e => throw e
  | Resolved response =>
      modify (setSnapshotCount (fun prev => prev + 1)%Z) ;;
      modify (setLastSnapshotTime (Some currentTime)) ;;
      modify (setViolationCount (violation_count response)) ;;
      let currentSnapshotViolations :=
        default [] (violations (analysis response)) in
      match currentSnapshotViolations with
      | currentViolation :: _ =>
          showViolationModal (type currentViolation) (violation_count response) false
      | [] => mret tt
      end ;;
      (if auto_disqualified response
       then showViolationModal "disqualified" (violation_count response) true
       else mret tt) ;;
      mret (Return (Some response))
  end.

(** The two guards before the [try], then the first segment. *)
Definition takeAndUploadSnapshot (c : Closure) : M Next :=
  if isTakingSnapshot (captured c) then mret (Return None)
  else if negb (cameraReady (captured c)) || negb (hasPermission (captured c))
  then mret (Return None)
  else tryCatchFinally (segmentEnter c).

(** *** Timers *)

Definition clearTimer (id : nat) (w : World) : World :=
  withTimers (filter (fun t => timerId t ≠ id) (timers w)) (nextTimerId w) w.

(** [setTimeout(() => takeAndUploadSnapshot(), 5000)] and
    [setInterval(() => takeAndUploadSnapshot(), 5000)] of the render [c]:
    the new timer keeps [c]'s function. *)
Definition addTimer (rep : bool) (c : Closure) (w : World) : nat * World :=
  let id := nextTimerId w in
  (id, withTimers (timers w ++ [{| timerId := id; repeating := rep; callback := c |}])
         (S id) w).

Definition startProctoring (c : Closure) (w : World) : World :=
  if negb (isProctoringEnabled (props c)) then w
  else if negb (cameraReady (captured c)) || negb (hasPermission (captured c)) then w
  else
    let w1 := match snapshotIntervalRef w with
              | Some id => clearTimer id w
              | None => w
              end in
    let w2 := snd (addTimer false c w1) in
    let '(id, w3) := addTimer true c w2 in
    withIntervalRef (Some id) w3.

Definition stopProctoring (w : World) : World :=
  match snapshotIntervalRef w with
  | Some id => withIntervalRef None (clearTimer id w)
  | None => w
  end.

(** *** Effects *)

Definition closureOf (p : Props) (w : World) : Closure :=
  {| props := p; captured := state w |}.

(** The effect on [attemptId, isProctoringEnabled, cameraReady,
    hasPermission]: the cleanup of its previous run, then its body in the
    new render. *)
Definition startEffect (p : Props) (w : World) : World :=
  let w1 := stopProctoring w in
  let c := closureOf p w1 in
  if isProctoringEnabled p && negb (attemptId p =? 0)%Z
     && cameraReady (captured c) && hasPermission (captured c)
  then startProctoring c w1
  else w1.

(** The effect on [appState]. *)
Definition appStateEffect (p : Props) (w : World) : World :=
  let c := closureOf p w in
  if negb (is_active (appState (captured c))) && bool_decide (is_Some (snapshotIntervalRef w))
  then stopProctoring w
  else if is_active (appState (captured c)) && isProctoringEnabled p
          && cameraReady (captured c) && hasPermission (captured c)
          && negb (bool_decide (is_Some (snapshotIntervalRef w)))
  then startProctoring c w
  else w.

(** *** The scheduler as a transition system *)

Inductive Event :=
| PermissionAnswer (granted : bool)       (* Camera.requestCameraPermission() settles *)
| CameraAttached                          (* setCameraRef(ref) with a camera *)
| AppStateChanged (next : AppStateStatus) (* AppState 'change' listener *)
| Fire (id : nat)                         (* a timer comes due *)
| PhotoDone (n : nat) (o : PhotoOutcome) (iso : string)
| UploadDone (n : nat) (o : UploadOutcome) (currentTime : string)
| CloseModal                              (* onClose of the modal *)
| Unmount.

(** How an invocation of [takeAndUploadSnapshot] stands after a segment. *)
Inductive Settled :=
| Idle                                    (* the event ran no segment *)
| Pending
| Fulfilled (v : option SnapshotResponse)
| Unhandled (e : Error).                  (* the promise rejected *)

Definition drive (c : Closure) (segment : M Next) (w : World) : World * Settled :=
  match segment w with
  | (w', Normal (Await p)) =>
      (withInflight (inflight w' ++ [{| owner := c; point := p |}]) w', Pending)
  | (w', Normal (Return v)) => (w', Fulfilled v)
  | (w', Throw e) => (w', Unhandled e)
  end.

Definition removeInflight (n : nat) (w : World) : World :=
  withInflight (take n (inflight w) ++ drop (S n) (inflight w)) w.

Definition step (p : Props) (w : World) (ev : Event) : option (World * Settled) :=
  match ev with
  | PermissionAnswer granted =>
      if isProctoringEnabled p then
        let w1 := onState (setHasPermission granted) w in
        if Bool.eqb (hasPermission (state w)) granted then Some (w1, Idle)
        else Some (startEffect p w1, Idle)
      else None
  | CameraAttached =>
      let w1 := onState (setCameraReady true) (withCameraRef true w) in
      if cameraReady (state w) then Some (w1, Idle)
      else Some (startEffect p w1, Idle)
  | AppStateChanged next =>
      let w1 := onState (setAppState next) w in
      if sameAppState (appState (state w)) next then Some (w1, Idle)
      else Some (appStateEffect p w1, Idle)
  | Fire id =>
      match find (fun t => Nat.eqb (timerId t) id) (timers w) with
      | Some t =>
          let w1 := if repeating t then w else clearTimer id w in
          Some (drive (callback t) (takeAndUploadSnapshot (callback t)) w1)
      | None => None
      end
  | PhotoDone n o iso =>
      match inflight w !! n with
      | Some {| owner := c; point := AwaitPhoto |} =>
          Some (drive c (tryCatchFinally (segmentPhoto c o iso)) (removeInflight n w))
      | _ => None
      end
  | UploadDone n o currentTime =>
      match inflight w !! n with
      | Some {| owner := c; point := AwaitUpload _ |} =>
          Some (drive c (tryCatchFinally (segmentUpload c o currentTime))
                  (removeInflight n w))
      | _ => None
      end
  | CloseModal => Some (fst (closeViolationModal w), Idle)
  | Unmount => Some (stopProctoring w, Idle)
  end.

(** A run: the events in order; [None] when one of them is not enabled. *)
Fixpoint run (p : Props) (w : World) (evs : list Event) : option World :=
  match evs with
  | [] => Some w
  | ev :: evs' =>
      match step p w ev with
      | Some (w', _) => run p w' evs'
      | None => None
      end
  end.

Definition initialWorld (current : AppStateStatus) : World :=
  {| state := initialState current; snapshotIntervalRef := None; cameraRef := false;
     timers := []; nextTimerId := 1; inflight := []; calls := [] |}.

(** *** ViolationModal.tsx: the two ways out of the modal

    [onRequestClose={isDisqualified ? undefined : onClose}] (hardware back)
    and the action button's [onPress={onClose}]. *)
Inductive Gesture := HardwareBack | ActionButton.

Definition modalHandler (m : ViolationModalState) (g : Gesture) : option (M unit) :=
  match g with
  | HardwareBack => if isDisqualified m then None else Some closeViolationModal
  | ActionButton => Some closeViolationModal
  end.

Definition press (g : Gesture) (w : World) : World :=
  match modalHandler (violationModal (state w)) g with
  | Some onClose => fst (onClose w)
  | None => w
  end.

End Proctoring.

(** ** ExamScreen.tsx *)

Module Exam.
Import Js.

Record UserAnswer := {
  questionId : Z;
  answer : string;
  isFlagged : bool;
  timeSpent : Z;
  startTime : Z }.

(** [examApi.ts]: the fields of [Question] and [ExamAttempt] read below. *)
Record Question := { id : Z; subject : string }.

Record ExamAttempt := { proctoring_enabled : bool; time_remaining : Z }.

Record AnswerWithTime := {
  question_id : Z;
  answer_text : string;               (* [answer] *)
  is_flagged : bool;
  time_spent : Z }.

Record SubmitExamPayload := {
  attempt_id : Z;
  answers : gmap string AnswerWithTime }.

(** The [useState] cells of the screen. *)
Record State := {
  attempt : option ExamAttempt;
  questions : list Question;
  timeRemaining : Z;
  currentQuestionIndex : nat;
  userAnswers : gmap Z UserAnswer;
  showSubmitModal : bool;
  submitting : bool;
  autoSaving : bool;
  lastSaved : option string;
  questionStartTime : Z;
  selectedSubject : option string }.

(** What the functions of one render read: the route parameter and the
    state values of that render. *)
Record Closure := { attemptId : Z; captured : State }.

(** Requests handed to [examApi.ts]: [submitAnswer] and [submitExam]. *)
Inductive ApiCall :=
| SubmitAnswer (attempt questionId : Z) (answer : string) (isFlagged : bool)
| SubmitExam (payload : SubmitExamPayload).

(** A pending debounce timer with the arguments its callback closes over. *)
Record Timeout := {
  timerId : nat;
  due : Z;
  saveAttempt : Z;
  saveQuestion : Z;
  saveAnswer : string;
  saveFlagged : bool }.

Inductive AwaitPoint := AwaitSave | AwaitSubmit.

Record World := {
  state : State;
  autoSaveTimeoutRef : option nat;
  timeouts : list Timeout;
  nextTimerId : nat;
  countdown : option Closure;         (* the countdown interval and its render *)
  questionCleanup : option (Question * Z); (* cleanup of the question-time effect *)
  inflight : list AwaitPoint;
  calls : list ApiCall;
  alerts : list string }.

(** *** State setters *)

Definition setAttempt (a : option ExamAttempt) (s : State) : State :=
  {| attempt := a; questions := questions s; timeRemaining := timeRemaining s;
     currentQuestionIndex := currentQuestionIndex s; userAnswers := userAnswers s;
     showSubmitModal := showSubmitModal s; submitting := submitting s;
     autoSaving := autoSaving s; lastSaved := lastSaved s;
     questionStartTime := questionStartTime s; selectedSubject := selectedSubject s |}.

Definition setQuestions (qs : list Question) (s : State) : State :=
  {| attempt := attempt s; questions := qs; timeRemaining := timeRemaining s;
     currentQuestionIndex := currentQuestionIndex s; userAnswers := userAnswers s;
     showSubmitModal := showSubmitModal s; submitting := submitting s;
     autoSaving := autoSaving s; lastSaved := lastSaved s;
     questionStartTime := questionStartTime s; selectedSubject := selectedSubject s |}.

Definition setTimeRemaining (f : Z -> Z) (s : State) : State :=
  {| attempt := attempt s; questions := questions s; timeRemaining := f (timeRemaining s);
     currentQuestionIndex := currentQuestionIndex s; userAnswers := userAnswers s;
     showSubmitModal := showSubmitModal s; submitting := submitting s;
     autoSaving := autoSaving s; lastSaved := lastSaved s;
     questionStartTime := questionStartTime s; selectedSubject := selectedSubject s |}.

Definition setCurrentQuestionIndex (i : nat) (s : State) : State :=
  {| attempt := attempt s; questions := questions s; timeRemaining := timeRemaining s;
     currentQuestionIndex := i; userAnswers := userAnswers s;
     showSubmitModal := showSubmitModal s; submitting := submitting s;
     autoSaving := autoSaving s; lastSaved := lastSaved s;
     questionStartTime := questionStartTime s; selectedSubject := selectedSubject s |}.

Definition setUserAnswers (f : gmap Z UserAnswer -> gmap Z UserAnswer) (s : State) : State :=
  {| attempt := attempt s; questions := questions s; timeRemaining := timeRemaining s;
     currentQuestionIndex := currentQuestionIndex s; userAnswers := f (userAnswers s);
     showSubmitModal := showSubmitModal s; submitting := submitting s;
     autoSaving := autoSaving s; lastSaved := lastSaved s;
     questionStartTime := questionStartTime s; selectedSubject := selectedSubject s |}.

Definition setShowSubmitModal (b : bool) (s : State) : State :=
  {| attempt := attempt s; questions := questions s; timeRemaining := timeRemaining s;
     currentQuestionIndex := currentQuestionIndex s; userAnswers := userAnswers s;
     showSubmitModal := b; submitting := submitting s;
     autoSaving := autoSaving s; lastSaved := lastSaved s;
     questionStartTime := questionStartTime s; selectedSubject := selectedSubject s |}.

Definition setSubmitting (b : bool) (s : State) : State :=
  {| attempt := attempt s; questions := questions s; timeRemaining := timeRemaining s;
     currentQuestionIndex := currentQuestionIndex s; userAnswers := userAnswers s;
     showSubmitModal := showSubmitModal s; submitting := b;
     autoSaving := autoSaving s; lastSaved := lastSaved s;
     questionStartTime := questionStartTime s; selectedSubject := selectedSubject s |}.

Definition setAutoSaving (b : bool) (s : State) : State :=
  {| attempt := attempt s; questions := questions s; timeRemaining := timeRemaining s;
     currentQuestionIndex := currentQuestionIndex s; userAnswers := userAnswers s;
     showSubmitModal := showSubmitModal s; submitting := submitting s;
     autoSaving := b; lastSaved := lastSaved s;
     questionStartTime := questionStartTime s; selectedSubject := selectedSubject s |}.

Definition setLastSaved (t : option string) (s : State) : State :=
  {| attempt := attempt s; questions := questions s; timeRemaining := timeRemaining s;
     currentQuestionIndex := currentQuestionIndex s; userAnswers := userAnswers s;
     showSubmitModal := showSubmitModal s; submitting := submitting s;
     autoSaving := autoSaving s; lastSaved := t;
     questionStartTime := questionStartTime s; selectedSubject := selectedSubject s |}.

Definition setQuestionStartTime (t : Z) (s : State) : State :=
  {| attempt := attempt s; questions := questions s; timeRemaining := timeRemaining s;
     currentQuestionIndex := currentQuestionIndex s; userAnswers := userAnswers s;
     showSubmitModal := showSubmitModal s; submitting := submitting s;
     autoSaving := autoSaving s; lastSaved := lastSaved s;
     questionStartTime := t; selectedSubject := selectedSubject s |}.

Definition setSelectedSubject (x : option string) (s : State) : State :=
  {| attempt := attempt s; questions := questions s; timeRemaining := timeRemaining s;
     currentQuestionIndex := currentQuestionIndex s; userAnswers := userAnswers s;
     showSubmitModal := showSubmitModal s; submitting := submitting s;
     autoSaving := autoSaving s; lastSaved := lastSaved s;
     questionStartTime := questionStartTime s; selectedSubject := x |}.

(** *** World updates *)

Definition onState (f : State -> State) (w : World) : World :=
  {| state := f (state w); autoSaveTimeoutRef := autoSaveTimeoutRef w;
     timeouts := timeouts w; nextTimerId := nextTimerId w; countdown := countdown w;
     questionCleanup := questionCleanup w; inflight := inflight w;
     calls := calls w; alerts := alerts w |}.

Definition withTimeouts (ref : option nat) (l : list Timeout) (next : nat) (w : World)
    : World :=
  {| state := state w; autoSaveTimeoutRef := ref;
     timeouts := l; nextTimerId := next; countdown := countdown w;
     questionCleanup := questionCleanup w; inflight := inflight w;
     calls := calls w; alerts := alerts w |}.

Definition withCountdown (c : option Closure) (w : World) : World :=
  {| state := state w; autoSaveTimeoutRef := autoSaveTimeoutRef w;
     timeouts := timeouts w; nextTimerId := nextTimerId w; countdown := c;
     questionCleanup := questionCleanup w; inflight := inflight w;
     calls := calls w; alerts := alerts w |}.

Definition withQuestionCleanup (c : option (Question * Z)) (w : World) : World :=
  {| state := state w; autoSaveTimeoutRef := autoSaveTimeoutRef w;
     timeouts := timeouts w; nextTimerId := nextTimerId w; countdown := countdown w;
     questionCleanup := c; inflight := inflight w;
     calls := calls w; alerts := alerts w |}.

Definition withInflight (l : list AwaitPoint) (w : World) : World :=
  {| state := state w; autoSaveTimeoutRef := autoSaveTimeoutRef w;
     timeouts := timeouts w; nextTimerId := nextTimerId w; countdown := countdown w;
     questionCleanup := questionCleanup w; inflight := l;
     calls := calls w; alerts := alerts w |}.

(** An API request goes out and its invocation waits for the answer. *)
Definition request (c : ApiCall) (p : AwaitPoint) (w : World) : World :=
  {| state := state w; autoSaveTimeoutRef := autoSaveTimeoutRef w;
     timeouts := timeouts w; nextTimerId := nextTimerId w; countdown := countdown w;
     questionCleanup := questionCleanup w; inflight := inflight w ++ [p];
     calls := calls w ++ [c]; alerts := alerts w |}.

Definition alert (title : string) (w : World) : World :=
  {| state := state w; autoSaveTimeoutRef := autoSaveTimeoutRef w;
     timeouts := timeouts w; nextTimerId := nextTimerId w; countdown := countdown w;
     questionCleanup := questionCleanup w; inflight := inflight w;
     calls := calls w; alerts := alerts w ++ [title] |}.

Definition closureOf (attemptId : Z) (w : World) : Closure :=
  {| attemptId := attemptId; captured := state w |}.

(** *** updateQuestionTime *)

Definition addTime (additionalTime : Z) (existing : UserAnswer) : UserAnswer :=
  {| questionId := questionId existing; answer := answer existing;
     isFlagged := isFlagged existing;
     timeSpent := (timeSpent existing + additionalTime)%Z;
     startTime := startTime existing |}.

Definition updateQuestionTime (questionId additionalTime : Z) (w : World) : World :=
  onState (setUserAnswers (fun prev =>
    match prev !! questionId with
    | Some existing => <[questionId := addTime additionalTime existing]> prev
    | None => prev
    end)) w.

(** *** autoSaveAnswer and its debounce timer *)

Definition clearTimeout (id : nat) (l : list Timeout) : list Timeout :=
  filter (fun t => timerId t ≠ id) l.

Definition autoSaveAnswer (c : Closure) (questionId : Z) (answer : string)
    (isFlagged : bool) (now : Z) (w : World) : World :=
  let w1 := onState (setAutoSaving true) w in
  let timeSpent' := floor_seconds now (questionStartTime (captured c)) in
  let w2 := onState (setUserAnswers (fun prev =>
    let existing := prev !! questionId in
    <[questionId :=
        {| questionId := questionId;
           answer := answer;
           isFlagged := isFlagged;
           timeSpent := match existing with
                        | Some e => (timeSpent e + timeSpent')%Z
                        | None => timeSpent'
                        end;
           startTime := match existing with
                        | Some e => startTime e
                        | None => questionStartTime (captured c)
                        end |}]> prev)) w1 in
  let w3 := onState (setQuestionStartTime now) w2 in
  let pending := match autoSaveTimeoutRef w3 with
                 | Some id => clearTimeout id (timeouts w3)
                 | None => timeouts w3
                 end in
  let id := nextTimerId w3 in
  withTimeouts (Some id)
    (pending ++ [{| timerId := id; due := (now + 1000)%Z;
                    saveAttempt := attemptId c; saveQuestion := questionId;
                    saveAnswer := answer; saveFlagged := isFlagged |}])
    (S id) w3.

(** The timer callback up to [await submitAnswer(...)], and its rest. *)
Definition fireTimeout (w : World) (t : Timeout) : World :=
  request (SubmitAnswer (saveAttempt t) (saveQuestion t) (saveAnswer t) (saveFlagged t))
    AwaitSave w.

Definition saveSettled (ok : bool) (at_ : string) (w : World) : World :=
  let w1 := if ok then onState (setLastSaved (Some at_)) w
            else alert "Save Error" w in
  onState (setAutoSaving false) w1.

(** Time passes up to [now]: the timers that are due run, oldest first. *)
Definition elapse (now : Z) (w : World) : World :=
  let ready := filter (fun t => (due t <= now)%Z) (timeouts w) in
  let later := filter (fun t => ¬ (due t <= now)%Z) (timeouts w) in
  foldl fireTimeout (withTimeouts (autoSaveTimeoutRef w) later (nextTimerId w) w) ready.

(** *** The question-time effect (dependencies [currentQuestionIndex, questions])

    Its previous cleanup runs with the question and the [questionStartTime]
    of the render that registered it; then the body runs in the new render. *)
Definition questionEffect (now : Z) (w : World) : World :=
  let w1 := match questionCleanup w with
            | Some (currentQuestion, questionStartTime) =>
                updateQuestionTime (id currentQuestion)
                  (floor_seconds now questionStartTime) w
            | None => w
            end in
  match questions (state w) !! currentQuestionIndex (state w) with
  | None => withQuestionCleanup None w1
  | Some currentQuestion =>
      withQuestionCleanup (Some (currentQuestion, questionStartTime (state w)))
        (onState (setQuestionStartTime now) w1)
  end.

(** *** navigateToQuestion *)

Definition navigateToQuestion (c : Closure) (index : nat) (now : Z) (w : World) : World :=
  let w1 := match questions (captured c) !! currentQuestionIndex (captured c) with
            | Some currentQuestion =>
                updateQuestionTime (id currentQuestion)
                  (floor_seconds now (questionStartTime (captured c))) w
            | None => w
            end in
  let w2 := match questions (captured c) !! index with
            | Some targetQuestion =>
                if bool_decide (Some (subject targetQuestion) = selectedSubject (captured c))
                then w1
                else onState (setSelectedSubject (Some (subject targetQuestion))) w1
            | None => w1
            end in
  onState (setQuestionStartTime now) (onState (setCurrentQuestionIndex index) w2).

(** *** submitExam *)

Definition toAnswerWithTime (userAnswer : UserAnswer) : AnswerWithTime :=
  {| question_id := questionId userAnswer;
     answer_text := answer userAnswer;
     is_flagged := isFlagged userAnswer;
     time_spent := timeSpent userAnswer |}.

(** [Object.values(userAnswers).forEach(...)], each value stored under
    [questionId.toString()]. *)
Definition answersForSubmit (m : gmap Z UserAnswer) : gmap string AnswerWithTime :=
  foldl (fun acc userAnswer =>
           <[pretty (questionId userAnswer) := toAnswerWithTime userAnswer]> acc)
    ∅ (map snd (map_to_list m)).

(** Up to [await submitExamApi(payload)]: the payload is built from the
    [userAnswers] of the render [c]. *)
Definition submitExam (c : Closure) (now : Z) (w : World) : World :=
  let w1 := onState (setSubmitting true) w in
  let w2 := match questions (captured c) !! currentQuestionIndex (captured c) with
            | Some currentQuestion =>
                updateQuestionTime (id currentQuestion)
                  (floor_seconds now (questionStartTime (captured c))) w1
            | None => w1
            end in
  let payload := {| attempt_id := attemptId c;
                    answers := answersForSubmit (userAnswers (captured c)) |} in
  request (SubmitExam payload) AwaitSubmit w2.

Definition submitSettled (ok : bool) (w : World) : World :=
  let w1 := alert (if ok then "Exam Submitted" else "Submission Error") w in
  onState (setShowSubmitModal false) (onState (setSubmitting false) w1).

Definition handleAutoSubmit (c : Closure) (now : Z) (w : World) : World :=
  submitExam c now (alert "Time's Up!" w).

(** *** The countdown effect (dependency [attempt]) and its interval *)

Definition countdownEffect (attemptId : Z) (w : World) : World :=
  let w0 := withCountdown None w in
  match attempt (state w) with
  | Some a =>
      if (time_remaining a =? 0)%Z then w0
      else withCountdown (Some (closureOf attemptId w))
             (onState (setTimeRemaining (fun _ => time_remaining a)) w0)
  | None => w0
  end.

Definition countdownTick (now : Z) (w : World) : World :=
  match countdown w with
  | None => w
  | Some c =>
      let prev := timeRemaining (state w) in
      if (prev <=? 0)%Z
      then onState (setTimeRemaining (fun _ => 0%Z))
             (handleAutoSubmit c now (withCountdown None w))
      else onState (setTimeRemaining (fun _ => (prev - 1)%Z)) w
  end.

(** *** The screen as a transition system *)

Inductive Event :=
| AttemptLoaded (a : ExamAttempt)
| QuestionsLoaded (sorted : list Question) (firstSubject : option string) (now : Z)
| Edit (questionId : Z) (answer : string) (isFlagged : bool) (now : Z)
| Navigate (index : nat) (now : Z)
| Elapse (now : Z)
| CountdownTick (now : Z)
| TapSubmit (now : Z)
| SaveDone (n : nat) (ok : bool) (at_ : string)
| SubmitDone (n : nat) (ok : bool).

Definition removeInflight (n : nat) (w : World) : World :=
  withInflight (take n (inflight w) ++ drop (S n) (inflight w)) w.

(** An event stamped [now] is handled after the timers due by then have run;
    a handler bound in JSX runs in the latest render ([closureOf] of the
    world it meets); a change of [currentQuestionIndex] or [questions]
    re-runs the question-time effect. *)
Definition step (attemptId : Z) (w : World) (ev : Event) : option World :=
  match ev with
  | AttemptLoaded a =>
      Some (countdownEffect attemptId (onState (setAttempt (Some a)) w))
  | QuestionsLoaded sorted firstSubject now =>
      let w1 := elapse now w in
      let w2 := onState (setQuestions sorted) w1 in
      let w3 := match firstSubject with
                | Some x => onState (setSelectedSubject (Some x)) w2
                | None => w2
                end in
      Some (questionEffect now w3)
  | Edit questionId answer isFlagged now =>
      let w1 := elapse now w in
      Some (autoSaveAnswer (closureOf attemptId w1) questionId answer isFlagged now w1)
  | Navigate index now =>
      let w1 := elapse now w in
      let w2 := navigateToQuestion (closureOf attemptId w1) index now w1 in
      if Nat.eqb index (currentQuestionIndex (state w1)) then Some w2
      else Some (questionEffect now w2)
  | Elapse now => Some (elapse now w)
  | CountdownTick now => Some (countdownTick now (elapse now w))
  | TapSubmit now =>
      let w1 := elapse now w in
      Some (submitExam (closureOf attemptId w1) now w1)
  | SaveDone n ok at_ =>
      match inflight w !! n with
      | Some AwaitSave => Some (saveSettled ok at_ (removeInflight n w))
      | _ => None
      end
  | SubmitDone n ok =>
      match inflight w !! n with
      | Some AwaitSubmit => Some (submitSettled ok (removeInflight n w))
      | _ => None
      end
  end.

Fixpoint run (attemptId : Z) (w : World) (evs : list Event) : option World :=
  match evs with
  | [] => Some w
  | ev :: evs' =>
      match step attemptId w ev with
      | Some w' => run attemptId w' evs'
      | None => None
      end
  end.

(** The screen at mount, [Date.now()] being [mounted]. *)
Definition initialState (mounted : Z) : State :=
  {| attempt := None; questions := []; timeRemaining := 0; currentQuestionIndex := 0;
     userAnswers := ∅; showSubmitModal := false; submitting := false;
     autoSaving := false; lastSaved := None; questionStartTime := mounted;
     selectedSubject := None |}.

Definition initialWorld (mounted : Z) : World :=
  {| state := initialState mounted; autoSaveTimeoutRef := None; timeouts := [];
     nextTimerId := 1; countdown := None; questionCleanup := None; inflight := [];
     calls := []; alerts := [] |}.

End Exam.

(** ** The screen: ExamScreen.tsx with the hook it mounts

    [useProctoring(attemptId, attempt?.proctoring_enabled || false)]: the
    hook's arguments are read off the screen's state; the two keep separate
    state cells. *)

Module Screen.

Record World := {
  exam : Exam.World;
  proctoring : Proctoring.World }.

Inductive Event :=
| ExamEvent (e : Exam.Event)
| HookEvent (e : Proctoring.Event).

Definition hookProps (attemptId : Z) (device : Proctoring.Metadata) (w : Exam.World)
    : Proctoring.Props :=
  {| Proctoring.attemptId := attemptId;
     Proctoring.isProctoringEnabled :=
       match Exam.attempt (Exam.state w) with
       | Some a => Exam.proctoring_enabled a
       | None => false
       end;
     Proctoring.device := device |}.

(** An event of the screen leaves the hook's cells alone, except that a
    change of [isProctoringEnabled] re-runs the hook's start effect; an event
    of the hook leaves the screen's cells alone.  The camera component is
    rendered, and its reference handed over, only with proctoring enabled. *)
Definition step (attemptId : Z) (device : Proctoring.Metadata) (w : World) (ev : Event)
    : option World :=
  match ev with
  | ExamEvent e =>
      match Exam.step attemptId (exam w) e with
      | Some x =>
          let before := hookProps attemptId device (exam w) in
          let after := hookProps attemptId device x in
          Some {| exam := x;
                  proctoring :=
                    if Bool.eqb (Proctoring.isProctoringEnabled before)
                         (Proctoring.isProctoringEnabled after)
                    then proctoring w
                    else Proctoring.startEffect after (proctoring w) |}
      | None => None
      end
  | HookEvent e =>
      let p := hookProps attemptId device (exam w) in
      match e with
      | Proctoring.CameraAttached =>
          if Proctoring.isProctoringEnabled p then
            match Proctoring.step p (proctoring w) e with
            | Some (x, _) => Some {| exam := exam w; proctoring := x |}
            | None => None
            end
          else None
      | _ =>
          match Proctoring.step p (proctoring w) e with
          | Some (x, _) => Some {| exam := exam w; proctoring := x |}
          | None => None
          end
      end
  end.

End Screen.

(** ** Measures and sample values used by the statements *)

Module Measures.
Import Js.

(** The cumulative count the server reported last along a run of the hook,
    [init] standing before the first report. *)
Fixpoint serverCount (init : Z) (evs : list Proctoring.Event) : Z :=
  match evs with
  | [] => init
  | Proctoring.UploadDone _ (Proctoring.Resolved response) _ :: evs' =>
      serverCount (Proctoring.violation_count response) evs'
  | _ :: evs' => serverCount init evs'
  end.

(** A delivery that makes a cycle fail: no image, or a rejected upload. *)
Definition cycleFails (ev : Proctoring.Event) : bool :=
  match ev with
  | Proctoring.PhotoDone _ o _ =>
      match Proctoring.captureResult o with
      | None => true
      | Some base64Image => String.eqb base64Image ""
      end
  | Proctoring.UploadDone _ (Proctoring.Rejected _) _ => true
  | _ => false
  end.

(** One answer edit: the value, the flag and the time of the edit. *)
Record EditOf := { value : string; flagged : bool; time : Z }.

Definition editEvent (questionId : Z) (e : EditOf) : Exam.Event :=
  Exam.Edit questionId (value e) (flagged e) (time e).

(** A burst: every edit comes less than the 1000 ms delay after the one
    before it ([first] is the time of the edit before the list). *)
Fixpoint burst (first : Z) (l : list EditOf) : Prop :=
  match l with
  | [] => True
  | e :: l' => (first <= time e < first + 1000)%Z /\ burst (time e) l'
  end.

(** The dwell time of the spec: the whole seconds from entering a question to
    leaving it, summed over the visits to question [q] that a navigation
    ended.  [current] is the index on display since [entered]. *)
Fixpoint dwellSeconds (qs : list Exam.Question) (q : Z) (current : nat) (entered : Z)
    (evs : list Exam.Event) : Z :=
  match evs with
  | [] => 0
  | Exam.QuestionsLoaded sorted _ now :: rest =>
      dwellSeconds sorted q current now rest
  | Exam.Navigate index now :: rest =>
      ((if bool_decide (Exam.id <$> qs !! current = Some q)
        then floor_seconds now entered else 0)
       + dwellSeconds qs q index now rest)%Z
  | _ :: rest => dwellSeconds qs q current entered rest
  end.

(** The accounting property as the spec words it: after a run from mount,
    the [timeSpent] of a recorded answer is the dwell time of its question. *)
Definition timeSpentIsDwellTime (attemptId mounted : Z) (evs : list Exam.Event) : Prop :=
  forall w q e,
    Exam.run attemptId (Exam.initialWorld mounted) evs = Some w ->
    Exam.userAnswers (Exam.state w) !! q = Some e ->
    Exam.timeSpent e = dwellSeconds [] q 0 mounted evs.

(** The seconds on record for question [q], none counting as zero. *)
Definition recordedTime (m : gmap Z Exam.UserAnswer) (q : Z) : Z :=
  default 0%Z (Exam.timeSpent <$> m !! q).

End Measures.

Module Samples.

Definition device : Proctoring.Metadata :=
  {| Proctoring.user_agent := "Mobile App android 34";
     Proctoring.screen_resolution := "412x915";
     Proctoring.device_pixel_ratio := 3;
     Proctoring.timezone := "Asia/Kolkata" |}.

Definition props7 : Proctoring.Props :=
  {| Proctoring.attemptId := 7; Proctoring.isProctoringEnabled := true;
     Proctoring.device := device |}.

Definition response (vs : list Proctoring.Violation) (count : Z) (disqualified : bool)
    : Proctoring.SnapshotResponse :=
  {| Proctoring.snapshot_uploaded := true;
     Proctoring.analysis :=
       {| Proctoring.success := true; Proctoring.error := "";
          Proctoring.violations := Some vs; Proctoring.faces_detected := 1 |};
     Proctoring.violation_count := count;
     Proctoring.auto_disqualified := disqualified;
     Proctoring.storage_type := "s3" |}.

(** The hook armed: permission granted, camera attached. *)
Definition arming : list Proctoring.Event :=
  [Proctoring.PermissionAnswer true; Proctoring.CameraAttached].

(** One cycle of the first timer up to its upload request. *)
Definition uploading : list Proctoring.Event :=
  arming ++ [Proctoring.Fire 1; Proctoring.PhotoDone 0 (Proctoring.PhotoBase64 "aGVsbG8=") "2026-01-01T10:00:05.000Z"].

Definition q1 : Exam.Question := {| Exam.id := 101; Exam.subject := "Physics" |}.
Definition q2 : Exam.Question := {| Exam.id := 102; Exam.subject := "Physics" |}.

End Samples.

(** ** Further measures and sample sessions *)

Module Sessions.
Import Measures.

(** Exactly one debounce timer is pending: the one of the edit [e], and
    [autoSaveTimeoutRef] holds its id. *)
Definition pendingSave (w : Exam.World) (i : nat) (attemptId questionId : Z) (e : EditOf)
    : Prop :=
  Exam.timeouts w =
    [{| Exam.timerId := i; Exam.due := (time e + 1000)%Z;
        Exam.saveAttempt := attemptId; Exam.saveQuestion := questionId;
        Exam.saveAnswer := value e; Exam.saveFlagged := flagged e |}]
  /\ Exam.autoSaveTimeoutRef w = Some i.

(** The attempt loads with two seconds left, the questions follow, the
    student answers question 101 and the answer is auto-saved; then the
    countdown runs out. *)
Definition expiry : list Exam.Event :=
  [Exam.AttemptLoaded {| Exam.proctoring_enabled := false; Exam.time_remaining := 2 |};
   Exam.QuestionsLoaded [Samples.q1; Samples.q2] (Some "Physics") 0;
   Exam.Edit 101 "B" false 1500;
   Exam.Elapse 3000;
   Exam.CountdownTick 3000;
   Exam.CountdownTick 4000;
   Exam.CountdownTick 5000].

(** Ten seconds on question 101 without answering it, ten on question 102,
    then back to 101, which is answered three seconds later. *)
Definition revisit : list Exam.Event :=
  [Exam.QuestionsLoaded [Samples.q1; Samples.q2] (Some "Physics") 0;
   Exam.Navigate 1 10000;
   Exam.Navigate 0 20000;
   Exam.Edit 101 "A" false 23000].

(** The time stamp an event carries, if any. *)
Definition eventTime (ev : Exam.Event) : option Z :=
  match ev with
  | Exam.QuestionsLoaded _ _ now | Exam.Edit _ _ _ now | Exam.Navigate _ now
  | Exam.Elapse now | Exam.CountdownTick now | Exam.TapSubmit now => Some now
  | _ => None
  end.

(** The clock does not run backwards along [evs], [t0] being the time before. *)
Fixpoint clockOrdered (t0 : Z) (evs : list Exam.Event) : Prop :=
  match evs with
  | [] => True
  | ev :: rest =>
      match eventTime ev with
      | Some now => (t0 <= now)%Z /\ clockOrdered now rest
      | None => clockOrdered t0 rest
      end
  end.

(** Every start stamp that a later subtraction may read lies at or before
    [t]: the live [questionStartTime], the one kept by the effect cleanup and
    the one of the countdown's render. *)
Definition stampsBefore (w : Exam.World) (t : Z) : Prop :=
  (Exam.questionStartTime (Exam.state w) <= t)%Z
  /\ (forall q s, Exam.questionCleanup w = Some (q, s) -> (s <= t)%Z)
  /\ (forall c, Exam.countdown w = Some c ->
                (Exam.questionStartTime (Exam.captured c) <= t)%Z).

End Sessions.

(** ** Measures on runs of the scheduler *)

Module Scheduler.
Import Proctoring.

Definition isGrant (ev : Event) : bool :=
  match ev with PermissionAnswer true => true | _ => false end.

Definition isAttach (ev : Event) : bool :=
  match ev with CameraAttached => true | _ => false end.

(** The hook can get armed along [evs]: proctoring is enabled, the permission
    is granted at some point and a camera is attached at some point. *)
Definition canArm (p : Props) (evs : list Event) : bool :=
  isProctoringEnabled p && existsb isGrant evs && existsb isAttach evs.

(** Nothing scheduled, nothing in flight, nothing called. *)
Definition idle (w : World) : Prop :=
  timers w = [] /\ inflight w = [] /\ calls w = [] /\ snapshotIntervalRef w = None.

(** The number of server responses delivered along [evs]. *)
Fixpoint responses (evs : list Event) : Z :=
  match evs with
  | [] => 0
  | UploadDone _ (Resolved _) _ :: evs' => (1 + responses evs')%Z
  | _ :: evs' => responses evs'
  end.

(** The timer table is consistent with [snapshotIntervalRef]: ids are
    distinct and below the next id, and the repeating timers are exactly the
    one the reference names. *)
Definition timersConsistent (w : World) : Prop :=
  NoDup (timerId <$> timers w)
  /\ (forall t, t ∈ timers w -> timerId t < nextTimerId w)
  /\ (forall t, t ∈ timers w -> repeating t = true ->
                snapshotIntervalRef w = Some (timerId t))
  /\ (forall id, snapshotIntervalRef w = Some id ->
                 exists t, t ∈ timers w /\ timerId t = id /\ repeating t = true).

(** Every callback and every suspended cycle belongs to the hook called with
    [p], and every upload made so far carries [p]'s attempt, [p]'s device
    constants and a non-empty image. *)
Definition ownedBy (p : Props) (w : World) : Prop :=
  (forall t, t ∈ timers w -> props (callback t) = p)
  /\ (forall s, s ∈ inflight w -> props (owner s) = p)
  /\ (forall a d, Upload a d ∈ calls w ->
        a = attemptId p /\ image_data d <> "" /\ metadata d = device p).

End Scheduler.

(** ** Measures on the answers and the submissions of the screen *)

Module Answers.
Import Exam.

(** Every record sits under its own [questionId]. *)
Definition keyed (m : gmap Z UserAnswer) : Prop :=
  forall k e, m !! k = Some e -> questionId e = k.

Definition isSubmitExam (c : ApiCall) : bool :=
  match c with SubmitExam _ => true | SubmitAnswer _ _ _ _ => false end.

(** The number of final submissions sent so far. *)
Definition submissions (w : World) : nat :=
  length (List.filter isSubmitExam (calls w)).

(** Countdown ticks at the times [ts] and nothing else. *)
Definition ticks (ts : list Z) : list Event := map CountdownTick ts.

(** The presses of the confirm button and the arrivals of an attempt among
    the events. *)
Definition taps (evs : list Event) : nat :=
  length (List.filter (fun ev => match ev with TapSubmit _ => true | _ => false end) evs).

Definition loads (evs : list Event) : nat :=
  length (List.filter (fun ev => match ev with AttemptLoaded _ => true | _ => false end) evs).

(** 1 while the countdown interval is set. *)
Definition armed (w : World) : nat :=
  match countdown w with Some _ => 1 | None => 0 end.

(** The ids of the questions that the events edit. *)
Definition edited (evs : list Event) : list Z :=
  omap (fun ev => match ev with Edit q _ _ _ => Some q | _ => None end) evs.

End Answers.

(** ** ViolationModal.tsx: what the modal derives from its props

    ExamScreen passes [violationType] and [isDisqualified] from the hook's
    [violationModal] and [totalViolations] from its [violationCount]. *)

Module Modal.

Definition getViolationColor (isDisqualified : bool) (totalViolations : Z) : string :=
  if isDisqualified then "#DC2626"
  else if (5 <=? totalViolations)%Z then "#EA580C"
  else if (3 <=? totalViolations)%Z then "#F59E0B"
  else "#EAB308".

Definition getViolationIcon (isDisqualified : bool) (violationType : string) : string :=
  if isDisqualified then "🚫"
  else if String.eqb violationType "no_face" then "❌"
  else if String.eqb violationType "multiple_faces" then "👥"
  else if String.eqb violationType "looking_away" then "👀"
  else if String.eqb violationType "suspicious_gaze" then "👁️"
  else if String.eqb violationType "head_pose_violation" then "🔄"
  else "⚠️".

Definition getSeverityLevel (isDisqualified : bool) (totalViolations : Z) : string :=
  if isDisqualified then "CRITICAL"
  else if (5 <=? totalViolations)%Z then "HIGH"
  else if (3 <=? totalViolations)%Z then "MEDIUM"
  else "LOW".

(** The label of the action button. *)
Definition buttonText (isDisqualified : bool) : string :=
  if isDisqualified then "Close" else "I Understand".

End Modal.

(** ** ExamScreen.tsx: what the question view derives and the presses it wires *)

Module Paper.
Import Exam.

(** *** Options of a multiple-choice question ([renderQuestion])

    A [multiple_mcq] answer is the chosen option texts joined by ['|'].
    Strings are byte strings; the byte of ['|'] occurs in no multi-byte
    UTF-8 sequence, so splitting on it agrees with JavaScript's split. *)

(** The separator ['|'], code 124. *)
Definition pipe : Ascii.ascii := Ascii.ascii_of_nat 124.

(** [s.split('|')] *)
Fixpoint split (s : string) : list string :=
  match s with
  | EmptyString => [""]
  | String c r =>
      if Ascii.eqb c pipe then "" :: split r
      else match split r with
           | h :: t => String c h :: t
           | [] => [String c ""]
           end
  end.

(** [l.join('|')] *)
Fixpoint join (l : list string) : string :=
  match l with
  | [] => ""
  | x :: rest =>
      match rest with
      | [] => x
      | _ :: _ => x +:+ "|" +:+ join rest
      end
  end.

(** [l.includes(x)] *)
Definition includes (l : list string) (x : string) : bool :=
  existsb (String.eqb x) l.

(** No ['|'] in the text. *)
Fixpoint pipeFree (s : string) : bool :=
  match s with
  | EmptyString => true
  | String c r => negb (Ascii.eqb c pipe) && pipeFree r
  end.

Inductive QuestionType := single_mcq | multiple_mcq.

(** [userAnswers[question.id]?.answer || ""] and
    [userAnswers[question.id]?.isFlagged || false] *)
Definition currentAnswer (m : gmap Z UserAnswer) (q : Z) : string :=
  match m !! q with Some e => answer e | None => "" end.

Definition currentFlag (m : gmap Z UserAnswer) (q : Z) : bool :=
  match m !! q with Some e => isFlagged e | None => false end.

Definition isSelected (t : QuestionType) (currentAnswer option : string) : bool :=
  match t with
  | single_mcq => String.eqb currentAnswer option
  | multiple_mcq => includes (split currentAnswer) option
  end.

(** The [newAnswer] that the press of an option computes. *)
Definition newAnswer (t : QuestionType) (currentAnswer option : string) : string :=
  match t with
  | single_mcq => option
  | multiple_mcq =>
      let answers := if String.eqb currentAnswer "" then [] else split currentAnswer in
      if includes answers option
      then join (List.filter (fun a => negb (String.eqb a option)) answers)
      else join (answers ++ [option])
  end.


Definition pressFlag (attemptId : Z) (q : Question) (now : Z) (w : World) : option World :=
  let m := userAnswers (state w) in
  step attemptId w
    (Edit (id q) (currentAnswer m (id q)) (negb (currentFlag m (id q))) now).

(** *** The clock ([formatTime]) *)

(** [s.padStart(2, '0')] *)
Definition padStart2 (s : string) : string :=
  match String.length s with
  | 0 => "00"
  | 1 => "0" +:+ s
  | _ => s
  end.

(** [Math.floor(seconds / 60)] and [seconds % 60], each as a decimal of at
    least two places. *)
Definition formatTime (seconds : Z) : string :=
  let mins := (seconds / 60)%Z in
  let secs := Z.rem seconds 60 in
  padStart2 (pretty mins) +:+ ":" +:+ padStart2 (pretty secs).

(** The character [':'], code 58. *)
Definition colon : Ascii.ascii := Ascii.ascii_of_nat 58.

(** The character of a decimal digit. *)
Definition digit (n : Z) : Ascii.ascii := Ascii.ascii_of_nat (48 + Z.to_nat n).

(** *** The footer: Previous and Next *)

Definition pressPrevious (attemptId : Z) (now : Z) (w : World) : option World :=
  let i := currentQuestionIndex (state w) in
  if (0 <? i)%nat then step attemptId w (Navigate (i - 1) now) else Some w.

Definition pressNext (attemptId : Z) (now : Z) (w : World) : option World :=
  let i := currentQuestionIndex (state w) in
  if (i <? length (questions (state w)) - 1)%nat
  then step attemptId w (Navigate (i + 1) now) else Some w.

(** *** Answered marks: the subject badge, the submit summary, the palette

    All three test [userAnswers[q.id]?.answer?.trim() !== ""]; [trim] stands
    for [String.prototype.trim]. Without a record the left side is
    [undefined], which differs from [""]. *)
Definition isAnswered (trim : string -> string) (m : gmap Z UserAnswer) (q : Z) : bool :=
  match m !! q with
  | Some e => negb (String.eqb (trim (answer e)) "")
  | None => true
  end.

(** [subjectQuestions.filter(q => ...).length], shown as
    [answeredInSubject/subjectQuestions.length]. *)
Definition answeredInSubject (trim : string -> string) (m : gmap Z UserAnswer)
    (subjectQuestions : list Question) : nat :=
  length (List.filter (fun q => isAnswered trim m (id q)) subjectQuestions).

Inductive PaletteStyle :=
| paletteItemCurrent | paletteItemAnswered | paletteItemFlagged | paletteItemDefault.

(** The style of the palette item of [q], [index] being its place in
    [questions]. *)
Definition paletteItem (trim : string -> string) (s : State) (index : nat) (q : Question)
    : PaletteStyle :=
  if Nat.eqb index (currentQuestionIndex s) then paletteItemCurrent
  else if isAnswered trim (userAnswers s) (id q) then paletteItemAnswered
  else if currentFlag (userAnswers s) (id q) then paletteItemFlagged
  else paletteItemDefault.

(** *** Grouping by subject ([loadExamData]) and the list of the palette

    [grouped] and [questionsBySubject] are plain objects. Reading a key
    that plain objects inherit ([constructor], [__proto__], ...) yields no
    group; such subjects are left out of the model ([None]). [normalize]
    stands for [s.charAt(0).toUpperCase() + s.slice(1).toLowerCase()]. *)
Definition inheritedKeys : list string :=
  ["constructor"; "hasOwnProperty"; "isPrototypeOf"; "propertyIsEnumerable";
   "toLocaleString"; "toString"; "valueOf"; "__defineGetter__"; "__defineSetter__";
   "__lookupGetter__"; "__lookupSetter__"; "__proto__"].

(** [q.subject || "General"] *)
Definition rawSubject (q : Question) : string :=
  if String.eqb (subject q) "" then "General" else subject q.

Definition Groups : Type := gmap string (list Question) * list string.

Definition groupStep (normalize : string -> string) (acc : Datatypes.option Groups)
    (q : Question) : Datatypes.option Groups :=
  match acc with
  | None => None
  | Some (grouped, uniqueSubjects) =>
      let subject := normalize (rawSubject q) in
      if bool_decide (subject ∈ inheritedKeys) then None
      else match grouped !! subject with
           | None => Some (<[subject := [q]]> grouped, uniqueSubjects ++ [subject])
           | Some l => Some (<[subject := l ++ [q]]> grouped, uniqueSubjects)
           end
  end.

(** [sortedQuestions.forEach(...)]: the pair ([grouped], [uniqueSubjects]). *)
Definition groupBySubject (normalize : string -> string) (sortedQuestions : list Question)
    : Datatypes.option Groups :=
  foldl (groupStep normalize) (Some (∅, [])) sortedQuestions.


(** The normalisation on ASCII subjects. *)
Definition upper (c : Ascii.ascii) : Ascii.ascii :=
  let n := Ascii.nat_of_ascii c in
  if (97 <=? n)%nat && (n <=? 122)%nat then Ascii.ascii_of_nat (n - 32) else c.

Definition lower (c : Ascii.ascii) : Ascii.ascii :=
  let n := Ascii.nat_of_ascii c in
  if (65 <=? n)%nat && (n <=? 90)%nat then Ascii.ascii_of_nat (n + 32) else c.

Fixpoint lowerAll (s : string) : string :=
  match s with
  | EmptyString => EmptyString
  | String c r => String (lower c) (lowerAll r)
  end.

Definition titleCase (s : string) : string :=
  match s with
  | EmptyString => EmptyString
  | String c r => String (upper c) (lowerAll r)
  end.

End Paper.

(** ** HomeScreen.tsx: the time left on an exam card *)

Module Home.


End Home.

(** ** utils/storage.ts *)

Module Storage.
Import Js.

Definition ACCESS_TOKEN_KEY : string := "@access_token".
Definition REFRESH_TOKEN_KEY : string := "@refresh_token".
Definition USER_DATA_KEY : string := "@user_data".
Definition CREDENTIALS_KEY : string := "@student_credentials".

(** AsyncStorage: string values under string keys. *)
Abbreviation Store := (gmap string string).

(** How a call to AsyncStorage ends: it completes, or it rejects and leaves
    some store behind. *)
Inductive Outcome := Done | Failed (e : Error) (remains : Store).

Definition multiSet (o : Outcome) (keyValuePairs : list (string * string)) (s : Store)
    : Store * Completion unit :=
  match o with
  | Done => (foldl (fun acc kv => <[fst kv := snd kv]> acc) s keyValuePairs, Normal tt)
  | Failed e remains => (remains, Throw e)
  end.

Definition multiRemove (o : Outcome) (keys : list string) (s : Store)
    : Store * Completion unit :=
  match o with
  | Done => (foldl (fun acc k => delete k acc) s keys, Normal tt)
  | Failed e remains => (remains, Throw e)
  end.

Definition getItem (o : Outcome) (key : string) (s : Store)
    : Store * Completion (option string) :=
  match o with
  | Done => (s, Normal (s !! key))
  | Failed e remains => (remains, Throw e)
  end.

(** [try { await ... } catch (error) { console.error(...) }] *)
Definition swallow (r : Store * Completion unit) : Store * Completion unit :=
  (fst r, Normal tt).

(** [try { return await ... } catch (error) { console.error(...); return null }] *)
Definition orNull (r : Store * Completion (option string))
    : Store * Completion (option string) :=
  match snd r with
  | Normal v => (fst r, Normal v)
  | Throw _ => (fst r, Normal None)
  end.

Definition saveTokens (o : Outcome) (access refresh : string) (s : Store)
    : Store * Completion unit :=
  swallow (multiSet o [(ACCESS_TOKEN_KEY, access); (REFRESH_TOKEN_KEY, refresh)] s).

Definition getAccessToken (o : Outcome) (s : Store) : Store * Completion (option string) :=
  orNull (getItem o ACCESS_TOKEN_KEY s).

Definition getRefreshToken (o : Outcome) (s : Store) : Store * Completion (option string) :=
  orNull (getItem o REFRESH_TOKEN_KEY s).

Definition clearTokens (o : Outcome) (s : Store) : Store * Completion unit :=
  swallow (multiRemove o
             [ACCESS_TOKEN_KEY; REFRESH_TOKEN_KEY; USER_DATA_KEY; CREDENTIALS_KEY] s).

End Storage.

(** ** api/examApi.ts *)

Module Api.
Import Js Storage.

Definition API_BASE_URL : string := "https://exams.dashoapp.com/api".

Inductive Method := GET | POST.

Inductive Body :=
| NoBody
| SnapshotBody (snapshotData : Proctoring.SnapshotData)
| AutoSaveBody (question_id : Z) (user_answer : string) (is_flagged : bool)
| SubmitExamBody (payload : Exam.SubmitExamPayload).

(** A request as axios gets it: the [Authorization] header is the one that
    varies. *)
Record Request := {
  method : Method;
  url : string;
  authorization : string;
  body : Body }.

(** What the server makes of a request: [response.data], or a rejection. *)
Inductive Reply (A : Type) := Answered (data : A) | Refused (e : Error).
Arguments Answered {A} data.
Arguments Refused {A} e.

(** One call of an API function: the store it leaves, the requests it
    sent, and how its promise settles. *)
Record Call (A : Type) := {
  store : Store;
  sent : list Request;
  result : Completion A }.
Arguments store {A} _.
Arguments sent {A} _.
Arguments result {A} _.

(** [new Error("No access token found")] *)
Definition noToken : Error := ApiError "No access token found" None.

(** [const token = await getAccessToken(); if (!token) throw ...] *)
Definition readToken (o : Outcome) (s : Store) : Store * Completion string :=
  match getAccessToken o s with
  | (s', Normal (Some token)) =>
      if String.eqb token "" then (s', Throw noToken) else (s', Normal token)
  | (s', Normal None) => (s', Throw noToken)
  | (s', Throw e) => (s', Throw e)
  end.

Definition settle {A} (reply : Reply A) : Completion A :=
  match reply with
  | Answered data => Normal data
  | Refused e => Throw e
  end.

(** The body shared by the posting functions: the token is read, then one
    request goes out; the [catch] logs and throws the error again. *)
Definition authorizedPost {A} (o : Outcome) (s : Store) (url : string) (body : Body)
    (reply : Reply A) : Call A :=
  match readToken o s with
  | (s', Throw e) => {| store := s'; sent := []; result := Throw e |}
  | (s', Normal token) =>
      {| store := s';
         sent := [{| method := POST; url := url;
                     authorization := "Bearer " +:+ token; body := body |}];
         result := settle reply |}
  end.

Definition takeProctoringSnapshot (o : Outcome) (s : Store) (attemptId : Z)
    (snapshotData : Proctoring.SnapshotData) (reply : Reply Proctoring.SnapshotResponse)
    : Call Proctoring.SnapshotResponse :=
  authorizedPost o s
    (API_BASE_URL +:+ "/exams/attempts/" +:+ pretty attemptId +:+ "/proctoring/snapshot/")
    (SnapshotBody snapshotData) reply.

Definition autoSaveAnswer {A} (o : Outcome) (s : Store) (attemptId questionId : Z)
    (userAnswer : string) (isFlagged : bool) (reply : Reply A) : Call A :=
  authorizedPost o s
    (API_BASE_URL +:+ "/exams/attempts/" +:+ pretty attemptId +:+ "/auto-save/")
    (AutoSaveBody questionId userAnswer isFlagged) reply.

Definition submitAnswer {A} (o : Outcome) (s : Store) (attemptId questionId : Z)
    (answer : string) (isFlagged : bool) (reply : Reply A) : Call A :=
  autoSaveAnswer o s attemptId questionId answer isFlagged reply.

Definition submitExam {A} (o : Outcome) (s : Store) (payload : Exam.SubmitExamPayload)
    (reply : Reply A) : Call A :=
  authorizedPost o s (API_BASE_URL +:+ "/exams/submit-exam/") (SubmitExamBody payload) reply.

(** The call that a logged call of the screen makes. *)
Definition perform {A} (o : Outcome) (s : Store) (c : Exam.ApiCall) (reply : Reply A)
    : Call A :=
  match c with
  | Exam.SubmitAnswer attempt questionId answer isFlagged =>
      submitAnswer o s attempt questionId answer isFlagged reply
  | Exam.SubmitExam payload => submitExam o s payload reply
  end.

(** What the hook's [await takeProctoringSnapshot(...)] sees. *)
Definition uploadOutcome (r : Completion Proctoring.SnapshotResponse)
    : Proctoring.UploadOutcome :=
  match r with
  | Normal response => Proctoring.Resolved response
  | Throw e => Proctoring.Rejected e
  end.

(** *** getExamQuestions: the pages of the question list *)

Record Page := {
  results : list Exam.Question;
  count : Z;
  next : option string }.

(** [while (nextUrl)]: [null] and the empty string end the loop. *)
Definition truthy (nextUrl : option string) : option string :=
  match nextUrl with
  | Some u => if String.eqb u "" then None else Some u
  | None => None
  end.

Definition get (token url : string) : Request :=
  {| method := GET; url := url; authorization := "Bearer " +:+ token; body := NoBody |}.

(** The loop, the replies being served in the order of the requests.
    [None]: the loop still waits for a reply. *)
Fixpoint fetchPages (token : string) (replies : list (Reply Page))
    (nextUrl : option string) (allQuestions : list Exam.Question) (requests : list Request)
    : option (list Request * Completion (list Exam.Question)) :=
  match truthy nextUrl with
  | None => Some (requests, Normal allQuestions)
  | Some u =>
      match replies with
      | [] => None
      | Refused e :: _ => Some (requests ++ [get token u], Throw e)
      | Answered response :: rest =>
          fetchPages token rest (next response) (allQuestions ++ results response)
            (requests ++ [get token u])
      end
  end.

(** The [QuestionsResponse] that is returned: [count] is the number of
    questions fetched, [next] and [previous] are [null]. *)
Definition questionsResponse (allQuestions : list Exam.Question) : Page :=
  {| results := allQuestions; count := Z.of_nat (length allQuestions); next := None |}.

(** The pages of exam [actualExamId], after the requests already sent. *)
Definition fetchAll (s : Store) (token : string) (replies : list (Reply Page))
    (actualExamId : Z) (requests : list Request) : option (Call Page) :=
  match fetchPages token replies
          (Some (API_BASE_URL +:+ "/questions/questions/?exam=" +:+ pretty actualExamId))
          [] requests with
  | None => None
  | Some (requests', Normal allQuestions) =>
      Some {| store := s; sent := requests';
              result := Normal (questionsResponse allQuestions) |}
  | Some (requests', Throw e) =>
      Some {| store := s; sent := requests'; result := Throw e |}
  end.

(** [getExamQuestions(attemptId, examId)]: without an [examId] (undefined
    or 0) the attempt is asked for its exam first; [attemptReply] is
    [attemptResponse.data.exam.id]. *)
Definition getExamQuestions (o : Outcome) (s : Store) (attemptId : Z) (examId : option Z)
    (attemptReply : Reply Z) (replies : list (Reply Page)) : option (Call Page) :=
  match readToken o s with
  | (s', Throw e) => Some {| store := s'; sent := []; result := Throw e |}
  | (s', Normal token) =>
      let lookup :=
        get token (API_BASE_URL +:+ "/exams/attempts/" +:+ pretty attemptId +:+ "/") in
      let viaAttempt :=
        match attemptReply with
        | Answered actualExamId => fetchAll s' token replies actualExamId [lookup]
        | Refused e => Some {| store := s'; sent := [lookup]; result := Throw e |}
        end in
      match examId with
      | Some actualExamId =>
          if (actualExamId =? 0)%Z then viaAttempt
          else fetchAll s' token replies actualExamId []
      | None => viaAttempt
      end
  end.

(** The URLs that the loop requests when the server answers with [pages],
    starting at [nextUrl], and the URL it wants after them ([None]: the loop
    is over). [None]: the loop ends before all of [pages] are asked for. *)
Fixpoint trail (nextUrl : option string) (pages : list Page)
    : option (list string * option string) :=
  match pages with
  | [] => Some ([], truthy nextUrl)
  | p :: ps =>
      match truthy nextUrl with
      | None => None
      | Some u =>
          match trail (next p) ps with
          | Some (us, final) => Some (u :: us, final)
          | None => None
          end
      end
  end.

(** The URL of the first page of the questions of an exam. *)
Definition firstPage (examId : Z) : string :=
  API_BASE_URL +:+ "/questions/questions/?exam=" +:+ pretty examId.

End Api.

(** ** Whole sittings: runs of the screen with its hook *)

Module Sitting.

Fixpoint run (attemptId : Z) (device : Proctoring.Metadata) (w : Screen.World)
    (evs : list Screen.Event) : option Screen.World :=
  match evs with
  | [] => Some w
  | ev :: evs' =>
      match Screen.step attemptId device w ev with
      | Some w' => run attemptId device w' evs'
      | None => None
      end
  end.

(** The screen and its hook at mount. *)
Definition initialWorld (mounted : Z) (current : Proctoring.AppStateStatus)
    : Screen.World :=
  {| Screen.exam := Exam.initialWorld mounted;
     Screen.proctoring := Proctoring.initialWorld current |}.

(** The arrival of an attempt that asks for proctoring. *)
Definition enables (ev : Screen.Event) : bool :=
  match ev with
  | Screen.ExamEvent (Exam.AttemptLoaded a) => Exam.proctoring_enabled a
  | _ => false
  end.

(** No attempt asks for proctoring and the hook has done nothing. *)
Definition unproctored (attemptId : Z) (device : Proctoring.Metadata) (s : Screen.World)
    : Prop :=
  Proctoring.isProctoringEnabled (Screen.hookProps attemptId device (Screen.exam s)) = false
  /\ Scheduler.idle (Screen.proctoring s).

End Sitting.

(** * Properties of the proctoring hook *)

Module ProctoringFacts.
Import Js Proctoring Measures.

Ltac run_m :=
  unfold mbind, mret, M_bind, M_ret, bind, ret, modify, call, gets, throw in *.

(** ** getViolationDetails and the modal *)

Lemma getViolationDetails_handled (t : string) :
  is_Some (getViolationDetails t) <-> t ∈ handledTypes.
Proof.
  unfold getViolationDetails, handledTypes.
  repeat match goal with
         | |- context [String.eqb t ?s] =>
             destruct (String.eqb_spec t s) as [-> | ?]
         end;
    try (split; [intros _; rewrite !elem_of_cons; tauto
                | intros _; eexists; reflexivity]).
  split.
  - intros [d Hd]. discriminate.
  - rewrite !elem_of_cons, elem_of_nil. tauto.
Qed.

Lemma getViolationDetails_unhandled (t : string) :
  t ∉ handledTypes -> getViolationDetails t = None.
Proof.
  intros Hnot. destruct (getViolationDetails t) eqn:E; [|reflexivity].
  exfalso. apply Hnot, getViolationDetails_handled. eauto.
Qed.

Lemma disqualified_unhandled : "disqualified" ∉ handledTypes.
Proof.
  unfold handledTypes. rewrite !elem_of_cons, elem_of_nil.
  intros H. repeat destruct H as [H | H]; try discriminate H. exact H.
Qed.

Lemma showViolationModal_unhandled (t : string) (n : Z) (d : bool) (w : World) :
  t ∉ handledTypes -> showViolationModal t n d w = (w, Throw undefinedTitle).
Proof.
  intros Hnot. unfold showViolationModal.
  rewrite (getViolationDetails_unhandled t Hnot). reflexivity.
Qed.

Lemma showViolationModal_disqualified (n : Z) (d : bool) (w : World) :
  showViolationModal "disqualified" n d w = (w, Throw undefinedTitle).
Proof. apply showViolationModal_unhandled, disqualified_unhandled. Qed.

(** The modal that [showViolationModal] stores for a handled type. *)
Lemma showViolationModal_handled (t : string) (n : Z) (d : bool) (w : World) (det : Details) :
  getViolationDetails t = Some det ->
  showViolationModal t n d w =
    (onState (setViolationModal (fun _ =>
       {| visible := true; violationType := t; violationTitle := title det;
          violationMessage := message det; totalViolations := n;
          isDisqualified := d |})) w, Normal tt).
Proof. intros E. unfold showViolationModal. rewrite E. reflexivity. Qed.

(** ** The segments of a cycle, closed under their try/catch/finally *)

Lemma enter_cases (c : Closure) (w : World) :
  tryCatchFinally (segmentEnter c) w =
    if is_active (appState (captured c)) && cameraRef w && hasPermission (captured c)
    then (logCall TakePhoto (onState (setIsTakingSnapshot true) w), Normal (Await AwaitPhoto))
    else (onState (setIsTakingSnapshot false) (onState (setIsTakingSnapshot true) w),
          Normal (Return None)).
Proof.
  unfold tryCatchFinally, segmentEnter, captureImageSilently, finallyBlock. run_m.
  destruct (is_active (appState (captured c))); simpl; [|reflexivity].
  destruct (cameraRef w) eqn:Hcam; simpl; rewrite ?Hcam; simpl; [|reflexivity].
  destruct (hasPermission (captured c)); reflexivity.
Qed.

Lemma photo_cases (c : Closure) (o : PhotoOutcome) (iso : string) (w : World) :
  tryCatchFinally (segmentPhoto c o iso) w =
    if cycleFails (PhotoDone 0 o iso)
    then (onState (setIsTakingSnapshot false) w, Normal (Return None))
    else
      let data := prepareSnapshotData (props c) iso (default "" (captureResult o)) in
      (logCall (Upload (attemptId (props c)) data) w, Normal (Await (AwaitUpload data))).
Proof.
  unfold tryCatchFinally, segmentPhoto, cycleFails, finallyBlock. run_m.
  destruct (captureResult o) as [img|]; simpl; [|reflexivity].
  destruct (String.eqb img ""); reflexivity.
Qed.

Lemma upload_rejected (c : Closure) (e : Error) (t : string) (w : World) :
  tryCatchFinally (segmentUpload c (Rejected e) t) w =
    (onState (setIsTakingSnapshot false) w, Normal (Return None)).
Proof. reflexivity. Qed.


(** The whole effect of a delivered response.  The disqualification branch
    always ends in the [catch]: ['disqualified'] has no [case]. *)
Lemma upload_resolved (c : Closure) (response : SnapshotResponse) (t : string) (w : World) :
  let n := violation_count response in
  let w0 := onState (setViolationCount n)
              (onState (setLastSnapshotTime (Some t))
                 (onState (setSnapshotCount (fun prev => prev + 1)%Z) w)) in
  let release := onState (setIsTakingSnapshot false) in
  let result := if auto_disqualified response then None else Some response in
  tryCatchFinally (segmentUpload c (Resolved response) t) w =
    match default [] (violations (analysis response)) with
    | v :: _ =>
        match getViolationDetails (type v) with
        | Some det =>
            (release (onState (setViolationModal (fun _ =>
               {| visible := true; violationType := type v;
                  violationTitle := title det; violationMessage := message det;
                  totalViolations := n; isDisqualified := false |})) w0),
             Normal (Return result))
        | None => (release w0, Normal (Return None))
        end
    | [] => (release w0, Normal (Return result))
    end.
Proof.
  intros n w0 release result. subst n w0 release result.
  unfold tryCatchFinally, segmentUpload, finallyBlock, catchBlock. run_m.
  destruct (default [] (violations (analysis response))) as [|v vs].
  - cbn -[getViolationDetails].
    destruct (auto_disqualified response).
    + rewrite showViolationModal_disqualified. reflexivity.
    + reflexivity.
  - unfold showViolationModal at 1. run_m.
    destruct (getViolationDetails (type v)) as [det|]; [|reflexivity].
    destruct (auto_disqualified response).
    + rewrite showViolationModal_disqualified. reflexivity.
    + reflexivity.
Qed.


(** ** What the scheduler's bookkeeping leaves alone *)

Lemma state_clearTimer (id : nat) (w : World) : state (clearTimer id w) = state w.
Proof. reflexivity. Qed.

Lemma state_startProctoring (c : Closure) (w : World) :
  state (startProctoring c w) = state w.
Proof.
  unfold startProctoring.
  destruct (negb (isProctoringEnabled (props c))); [reflexivity|].
  destruct (negb (cameraReady (captured c)) || negb (hasPermission (captured c)));
    [reflexivity|].
  destruct (snapshotIntervalRef w); reflexivity.
Qed.

Lemma state_stopProctoring (w : World) : state (stopProctoring w) = state w.
Proof. unfold stopProctoring. destruct (snapshotIntervalRef w); reflexivity. Qed.

Lemma state_startEffect (p : Props) (w : World) : state (startEffect p w) = state w.
Proof.
  unfold startEffect.
  destruct (_ && _); rewrite ?state_startProctoring; apply state_stopProctoring.
Qed.

Lemma state_appStateEffect (p : Props) (w : World) : state (appStateEffect p w) = state w.
Proof.
  unfold appStateEffect.
  destruct (_ && _); [apply state_stopProctoring|].
  destruct (_ && _); [apply state_startProctoring|reflexivity].
Qed.

Lemma drive_state (c : Closure) (m : M Next) (w : World) :
  state (fst (drive c m w)) = state (fst (m w)).
Proof.
  unfold drive. destruct (m w) as [w' [[v|pt]|e]]; reflexivity.
Qed.

Lemma takeAndUploadSnapshot_count (c : Closure) (w : World) :
  violationCount (state (fst (takeAndUploadSnapshot c w))) = violationCount (state w).
Proof.
  unfold takeAndUploadSnapshot.
  destruct (isTakingSnapshot (captured c)); [reflexivity|].
  destruct (_ || _); [reflexivity|].
  rewrite enter_cases. destruct (_ && _); reflexivity.
Qed.

Lemma upload_resolved_count (c : Closure) (response : SnapshotResponse) (t : string)
    (w : World) :
  violationCount (state (fst (tryCatchFinally (segmentUpload c (Resolved response) t) w)))
  = violation_count response.
Proof.
  rewrite upload_resolved.
  destruct (default [] (violations (analysis response))) as [|v vs]; [reflexivity|].
  destruct (getViolationDetails (type v)); reflexivity.
Qed.

(** One step: the count is overwritten by a delivered response and by
    nothing else. *)
Lemma step_violationCount (p : Props) (w w' : World) (ev : Event) (r : Settled) :
  step p w ev = Some (w', r) ->
  violationCount (state w') = serverCount (violationCount (state w)) [ev].
Proof.
  destruct ev as [granted| |next|id|n o iso|n o t| |]; simpl; intros Hstep.
  - destruct (isProctoringEnabled p); [|discriminate].
    destruct (Bool.eqb _ _); inversion Hstep; subst;
      rewrite ?state_startEffect; reflexivity.
  - destruct (cameraReady (state w)); inversion Hstep; subst;
      rewrite ?state_startEffect; reflexivity.
  - destruct (sameAppState _ _); inversion Hstep; subst;
      rewrite ?state_appStateEffect; reflexivity.
  - destruct (find _ _) as [tm|]; [|discriminate].
    inversion Hstep as [Hd].
    assert (Hw : w' = fst (drive (callback tm) (takeAndUploadSnapshot (callback tm))
                         (if repeating tm then w else clearTimer id w)))
      by (rewrite Hd; reflexivity).
    rewrite Hw, drive_state, takeAndUploadSnapshot_count.
    destruct (repeating tm); reflexivity.
  - destruct (inflight w !! n) as [[c [|d]]|]; try discriminate.
    inversion Hstep as [Hd].
    assert (Hw : w' = fst (drive c (tryCatchFinally (segmentPhoto c o iso))
                         (removeInflight n w))) by (rewrite Hd; reflexivity).
    rewrite Hw, drive_state, photo_cases. destruct (cycleFails _); reflexivity.
  - destruct (inflight w !! n) as [[c [|d]]|]; try discriminate.
    inversion Hstep as [Hd].
    assert (Hw : w' = fst (drive c (tryCatchFinally (segmentUpload c o t))
                         (removeInflight n w))) by (rewrite Hd; reflexivity).
    rewrite Hw, drive_state. destruct o as [response|e].
    + apply upload_resolved_count.
    + reflexivity.
  - inversion Hstep; reflexivity.
  - inversion Hstep; subst. rewrite state_stopProctoring. reflexivity.
Qed.

Lemma serverCount_app (init : Z) (l1 l2 : list Event) :
  serverCount init (l1 ++ l2) = serverCount (serverCount init l1) l2.
Proof.
  revert init. induction l1 as [|ev l1 IH]; intros init; [reflexivity|].
  destruct ev as [| | | | |n [response|e] t| |]; simpl; apply IH.
Qed.

(** C2. After every run of the hook, [violationCount] is the
    [violation_count] of the last server response delivered to a cycle (the
    value it had before, when no response was delivered): it is only ever
    overwritten with the server's cumulative count, and a cycle whose capture
    or upload fails leaves it as it was. *)
Theorem violationCount_is_last_server_count (p : Props) (evs : list Event) (w w' : World) :
  run p w evs = Some w' ->
  violationCount (state w') = serverCount (violationCount (state w)) evs.
Proof.
  revert w. induction evs as [|ev evs IH]; intros w Hrun; simpl in Hrun.
  - inversion Hrun. reflexivity.
  - destruct (step p w ev) as [[w1 r]|] eqn:Hstep; [|discriminate].
    rewrite (IH w1 Hrun).
    change (ev :: evs) with ([ev] ++ evs).
    rewrite serverCount_app, (step_violationCount p w w1 ev r Hstep). reflexivity.
Qed.


Lemma violationCount_is_last_server_count_witness :
  exists w',
    run Samples.props7 (initialWorld active)
      (Samples.uploading ++
         [UploadDone 0 (Resolved (Samples.response [] 3 false)) "10:00:05";
          Fire 2; PhotoDone 0 PhotoFailed "2026-01-01T10:00:10.000Z"]) = Some w'
    /\ violationCount (state w') = 3%Z.
Proof.
  pose proof (violationCount_is_last_server_count Samples.props7
    (Samples.uploading ++
       [UploadDone 0 (Resolved (Samples.response [] 3 false)) "10:00:05";
        Fire 2; PhotoDone 0 PhotoFailed "2026-01-01T10:00:10.000Z"])
    (initialWorld active)) as H.
  destruct (run Samples.props7 (initialWorld active) _) as [w'|] eqn:E.
  - exists w'. split; [reflexivity|]. rewrite (H w' eq_refl). reflexivity.
  - vm_compute in E. discriminate E.
Defined.

(** ** The busy guard *)

(** The guard does skip a call made from a render in which
    [isTakingSnapshot] was true. *)
Lemma guard_skips_busy_render (c : Closure) (w : World) :
  isTakingSnapshot (captured c) = true ->
  drive c (takeAndUploadSnapshot c) w = (w, Fulfilled None).
Proof. intros H. unfold drive, takeAndUploadSnapshot. rewrite H. reflexivity. Qed.

(** It reads the render of the timer's callback, not the live cell: a tick of
    a timer armed by an idle render starts a capture whatever the live
    [isTakingSnapshot] and however many cycles are in flight. *)
Lemma guard_reads_captured_flag (c : Closure) (w : World) :
  isTakingSnapshot (captured c) = false ->
  cameraReady (captured c) = true ->
  hasPermission (captured c) = true ->
  appState (captured c) = active ->
  cameraRef w = true ->
  drive c (takeAndUploadSnapshot c) w =
    (withInflight (inflight w ++ [{| owner := c; point := AwaitPhoto |}])
       (logCall TakePhoto (onState (setIsTakingSnapshot true) w)), Pending).
Proof.
  intros H1 H2 H3 H4 H5. unfold drive, takeAndUploadSnapshot.
  rewrite H1, H2, H3. simpl. rewrite enter_cases, H3, H4, H5. reflexivity.
Qed.

(** C1 (the code departs from it). The hook is armed, the first timer fires
    and its cycle waits for the camera with the live [isTakingSnapshot] set;
    the interval then fires and, instead of being skipped, calls the camera a
    second time: two cycles are in flight. *)
Theorem interval_tick_overlaps_cycle_in_flight :
  exists w1 w2,
    run Samples.props7 (initialWorld active) (Samples.arming ++ [Fire 1]) = Some w1
    /\ isTakingSnapshot (state w1) = true
    /\ length (inflight w1) = 1
    /\ calls w1 = [TakePhoto]
    /\ step Samples.props7 w1 (Fire 2) = Some (w2, Pending)
    /\ calls w2 = [TakePhoto; TakePhoto]
    /\ length (inflight w2) = 2.
Proof.
  eexists. eexists.
  split; [vm_compute; reflexivity|].
  split; [reflexivity|].
  split; [reflexivity|].
  split; [reflexivity|].
  split; [vm_compute; reflexivity|].
  split; reflexivity.
Qed.

(** ** The violation gate *)

(** A handled first violation is shown once, with its type and the
    cumulative count of the same response. *)
Lemma handled_violation_shown (c : Closure) (response : SnapshotResponse) (t : string)
    (w : World) (v : Violation) (vs : list Violation) (det : Details) :
  violations (analysis response) = Some (v :: vs) ->
  getViolationDetails (type v) = Some det ->
  violationModal (state (fst (tryCatchFinally (segmentUpload c (Resolved response) t) w)))
  = {| visible := true; violationType := type v; violationTitle := title det;
       violationMessage := message det;
       totalViolations := violation_count response; isDisqualified := false |}.
Proof.
  intros Hv Hd. rewrite upload_resolved, Hv. simpl. rewrite Hd. reflexivity.
Qed.

(** C3 (the code departs from it). A response whose only violation has a
    type outside the five cases: the counters are updated, then
    [showViolationModal] throws on [details.title], the [catch] swallows it
    and the gate is not shown at all. *)
Theorem unhandled_violation_is_not_shown (c : Closure) (t : string) (w : World) :
  let response := Samples.response [{| type := "phone_detected" |}] 4 false in
  let after := tryCatchFinally (segmentUpload c (Resolved response) t) w in
  violationModal (state (fst after)) = violationModal (state w)
  /\ violationCount (state (fst after)) = 4%Z
  /\ snapshotCount (state (fst after)) = (snapshotCount (state w) + 1)%Z
  /\ snd after = Normal (Return None)
  /\ (exists w',
        run Samples.props7 (initialWorld active)
          (Samples.uploading ++ [UploadDone 0 (Resolved response) t]) = Some w'
        /\ visible (violationModal (state w')) = false).
Proof.
  intros response after. subst after. rewrite upload_resolved.
  repeat split.
  eexists. split; [vm_compute; reflexivity|reflexivity].
Qed.

(** C4 (the code departs from it). With [auto_disqualified] set the cycle
    calls [showViolationModal('disqualified', ...)], which throws because
    ['disqualified'] has no case; the cycle ends in its [catch], and the
    modal's [isDisqualified] is not raised. *)
Theorem auto_disqualified_notice_is_not_shown (c : Closure) (response : SnapshotResponse)
    (t : string) (w : World) :
  auto_disqualified response = true ->
  let after := tryCatchFinally (segmentUpload c (Resolved response) t) w in
  snd after = Normal (Return None)
  /\ Bool.le (isDisqualified (violationModal (state (fst after))))
             (isDisqualified (violationModal (state w))).
Proof.
  intros Hdq after. subst after. rewrite upload_resolved, Hdq.
  destruct (default [] (violations (analysis response))) as [|v vs].
  - split; [reflexivity|]. simpl. destruct (isDisqualified _); reflexivity.
  - destruct (getViolationDetails (type v)); split; try reflexivity.
    simpl. destruct (isDisqualified _); reflexivity.
Qed.

Lemma auto_disqualified_notice_is_not_shown_witness :
  let response := Samples.response [] 10 true in
  let after :=
    tryCatchFinally
      (segmentUpload (closureOf Samples.props7 (initialWorld active))
         (Resolved response) "10:00:05")
      (initialWorld active) in
  auto_disqualified response = true
  /\ snd after = Normal (Return None)
  /\ isDisqualified (violationModal (state (fst after))) = false
  /\ visible (violationModal (state (fst after))) = false.
Proof.
  intros response after.
  pose proof (auto_disqualified_notice_is_not_shown
    (closureOf Samples.props7 (initialWorld active)) response "10:00:05"
    (initialWorld active) eq_refl) as [H1 H2].
  split; [reflexivity|]. split; [exact H1|]. split; reflexivity.
Defined.

(** In no run from mount does the modal ever carry [isDisqualified]. *)
Lemma step_isDisqualified (p : Props) (w w' : World) (ev : Event) (r : Settled) :
  step p w ev = Some (w', r) ->
  isDisqualified (violationModal (state w)) = false ->
  isDisqualified (violationModal (state w')) = false.
Proof.
  destruct ev as [granted| |next|id|n o iso|n o t| |]; simpl; intros Hstep Hno.
  - destruct (isProctoringEnabled p); [|discriminate].
    destruct (Bool.eqb _ _); inversion Hstep; subst;
      rewrite ?state_startEffect; exact Hno.
  - destruct (cameraReady (state w)); inversion Hstep; subst;
      rewrite ?state_startEffect; exact Hno.
  - destruct (sameAppState _ _); inversion Hstep; subst;
      rewrite ?state_appStateEffect; exact Hno.
  - destruct (find _ _) as [tm|]; [|discriminate].
    inversion Hstep as [Hd].
    assert (Hw : w' = fst (drive (callback tm) (takeAndUploadSnapshot (callback tm))
                         (if repeating tm then w else clearTimer id w)))
      by (rewrite Hd; reflexivity).
    rewrite Hw, drive_state. unfold takeAndUploadSnapshot.
    destruct (isTakingSnapshot _); [destruct (repeating tm); exact Hno|].
    destruct (_ || _); [destruct (repeating tm); exact Hno|].
    rewrite enter_cases. destruct (_ && _); destruct (repeating tm); exact Hno.
  - destruct (inflight w !! n) as [[c [|d]]|]; try discriminate.
    inversion Hstep as [Hd].
    assert (Hw : w' = fst (drive c (tryCatchFinally (segmentPhoto c o iso))
                         (removeInflight n w))) by (rewrite Hd; reflexivity).
    rewrite Hw, drive_state, photo_cases. destruct (cycleFails _); exact Hno.
  - destruct (inflight w !! n) as [[c [|d]]|]; try discriminate.
    inversion Hstep as [Hd].
    assert (Hw : w' = fst (drive c (tryCatchFinally (segmentUpload c o t))
                         (removeInflight n w))) by (rewrite Hd; reflexivity).
    rewrite Hw, drive_state. destruct o as [response|e]; [|exact Hno].
    rewrite upload_resolved.
    destruct (default [] (violations (analysis response))) as [|v vs]; [exact Hno|].
    destruct (getViolationDetails (type v)); [reflexivity|exact Hno].
  - inversion Hstep; subst. exact Hno.
  - inversion Hstep; subst. rewrite state_stopProctoring. exact Hno.
Qed.

Lemma disqualification_never_shown (p : Props) (a : AppStateStatus) (evs : list Event)
    (w : World) :
  run p (initialWorld a) evs = Some w ->
  isDisqualified (violationModal (state w)) = false.
Proof.
  assert (G : forall w0, isDisqualified (violationModal (state w0)) = false ->
              run p w0 evs = Some w ->
              isDisqualified (violationModal (state w)) = false).
  { induction evs as [|ev evs IH]; intros w0 H0 Hrun; simpl in Hrun.
    - inversion Hrun; subst. exact H0.
    - destruct (step p w0 ev) as [[w1 r]|] eqn:Hstep; [|discriminate].
      apply (IH w1); [|exact Hrun].
      exact (step_isDisqualified p w0 w1 ev r Hstep H0). }
  apply G. reflexivity.
Qed.


(** C10. The display path is defined on the five handled types only: for any
    other type [getViolationDetails] has no result and [showViolationModal]
    throws on [details.title] without storing a modal state; this includes
    ['disqualified'], the type the auto-disqualification branch passes. *)
Theorem violation_display_partial (t : string) (n : Z) (d : bool) (w : World) :
  (is_Some (getViolationDetails t) <-> t ∈ handledTypes)
  /\ ((t ∈ handledTypes) \/ showViolationModal t n d w = (w, Throw undefinedTitle))
  /\ ("disqualified" ∉ handledTypes)
  /\ getViolationDetails "disqualified" = None
  /\ showViolationModal "disqualified" n true w = (w, Throw undefinedTitle)
  /\ ((t ∉ handledTypes) \/
       exists w', showViolationModal t n d w = (w', Normal tt)
                  /\ visible (violationModal (state w')) = true
                  /\ violationType (violationModal (state w')) = t).
Proof.
  split; [apply getViolationDetails_handled|].
  split.
  { destruct (decide (t ∈ handledTypes)) as [Hin|Hnot]; [left; exact Hin|].
    right. apply showViolationModal_unhandled, Hnot. }
  split; [apply disqualified_unhandled|].
  split; [reflexivity|].
  split; [apply showViolationModal_disqualified|].
  destruct (decide (t ∈ handledTypes)) as [Hin|Hnot]; [|left; exact Hnot].
  right. apply getViolationDetails_handled in Hin as [det Hdet].
  eexists. split; [apply (showViolationModal_handled t n d w det Hdet)|].
  split; reflexivity.
Qed.

(** ** Closing the modal *)

(** C9 as amended. [closeViolationModal] hides the modal whatever
    [isDisqualified] is and keeps the other fields; of the two gestures only
    the hardware back button is disabled on a disqualification notice, the
    action button (labelled 'Close' then) still closes it. *)
Theorem close_hides_any_notice (w : World) :
  let m := violationModal (state w) in
  state (fst (closeViolationModal w)) = setViolationModal hide (state w)
  /\ visible (violationModal (state (fst (closeViolationModal w)))) = false
  /\ isDisqualified (violationModal (state (fst (closeViolationModal w)))) = isDisqualified m
  /\ press ActionButton w = fst (closeViolationModal w)
  /\ press HardwareBack w = (if isDisqualified m then w else fst (closeViolationModal w)).
Proof.
  intros m. subst m. repeat split.
  unfold press, modalHandler. destruct (isDisqualified _); reflexivity.
Qed.

(** C9 as stated fails: a visible disqualification notice, as
    [showViolationModal] builds it, is hidden by [closeViolationModal]. *)
Lemma close_dismisses_disqualification_notice :
  ~ (forall w : World,
       isDisqualified (violationModal (state w)) = true ->
       fst (closeViolationModal w) = w).
Proof.
  intros H.
  specialize (H (fst (showViolationModal "no_face" 10 true (initialWorld active)))
                eq_refl).
  apply (f_equal (fun x => visible (violationModal (state x)))) in H.
  vm_compute in H. discriminate H.
Qed.

(** ** Failed cycles *)

Lemma length_removeInflight (n : nat) (w : World) (x : Suspended) :
  inflight w !! n = Some x ->
  S (length (inflight (removeInflight n w))) = length (inflight w).
Proof.
  intros Hn. apply lookup_lt_Some in Hn. simpl.
  rewrite length_app, length_take, length_drop. lia.
Qed.

(** No segment lets an error out: the promise of a cycle never rejects. *)
Lemma step_never_rejects (p : Props) (w w' : World) (ev : Event) (r : Settled) :
  step p w ev = Some (w', r) ->
  match r with Unhandled _ => False | _ => True end.
Proof.
  destruct ev as [granted| |next|id|n o iso|n o t| |]; simpl; intros Hstep.
  - destruct (isProctoringEnabled p); [|discriminate].
    destruct (Bool.eqb _ _); inversion Hstep; exact I.
  - destruct (cameraReady (state w)); inversion Hstep; exact I.
  - destruct (sameAppState _ _); inversion Hstep; exact I.
  - destruct (find _ _) as [tm|]; [|discriminate].
    inversion Hstep as [Hd]. clear Hstep. revert Hd.
    unfold drive, takeAndUploadSnapshot.
    destruct (isTakingSnapshot _); [intros Hd; inversion Hd; exact I|].
    destruct (_ || _); [intros Hd; inversion Hd; exact I|].
    rewrite enter_cases. destruct (_ && _); intros Hd; inversion Hd; exact I.
  - destruct (inflight w !! n) as [[c [|d]]|]; try discriminate.
    inversion Hstep as [Hd]. clear Hstep. revert Hd.
    unfold drive. rewrite photo_cases.
    destruct (cycleFails _); intros Hd; inversion Hd; exact I.
  - destruct (inflight w !! n) as [[c [|d]]|]; try discriminate.
    inversion Hstep as [Hd]. clear Hstep. revert Hd.
    unfold drive. destruct o as [response|e].
    + rewrite upload_resolved.
      destruct (default [] (violations (analysis response))) as [|v vs];
        [|destruct (getViolationDetails (type v))];
        intros Hd; inversion Hd; exact I.
    + rewrite upload_rejected. intros Hd; inversion Hd; exact I.
  - inversion Hstep; exact I.
  - inversion Hstep; exact I.
Qed.

Lemma failed_delivery (p : Props) (w w' : World) (ev : Event) (r : Settled) :
  cycleFails ev = true ->
  step p w ev = Some (w', r) ->
  r = Fulfilled None
  /\ state w' = setIsTakingSnapshot false (state w)
  /\ calls w' = calls w
  /\ timers w' = timers w
  /\ snapshotIntervalRef w' = snapshotIntervalRef w
  /\ S (length (inflight w')) = length (inflight w).
Proof.
  destruct ev as [granted| |next|id|n o iso|n o t| |]; try discriminate.
  - intros Hf. simpl.
    destruct (inflight w !! n) as [[c [|d]]|] eqn:Hn; try discriminate.
    unfold drive. rewrite photo_cases.
    replace (cycleFails (PhotoDone 0 o iso)) with true by exact (eq_sym Hf).
    intros Hd. inversion Hd; subst.
    repeat split. exact (length_removeInflight n w _ Hn).
  - destruct o as [response|e]; [discriminate|]. intros _. unfold step.
    destruct (inflight w !! n) as [[c [|d]]|] eqn:Hn; try discriminate.
    unfold drive. rewrite upload_rejected.
    intros Hd. inversion Hd; subst.
    repeat split. exact (length_removeInflight n w _ Hn).
Qed.

(** A tick whose capture is refused before the camera is touched (app not
    active in the callback's render, or no camera reference): nothing but the
    busy flag is written, and it ends released. *)
Lemma refused_capture (c : Closure) (w : World) :
  is_active (appState (captured c)) && cameraRef w && hasPermission (captured c) = false ->
  isTakingSnapshot (captured c) = false ->
  cameraReady (captured c) = true ->
  hasPermission (captured c) = true ->
  drive c (takeAndUploadSnapshot c) w
  = (onState (setIsTakingSnapshot false) w, Fulfilled None).
Proof.
  intros Hcap H1 H2 H3. unfold drive, takeAndUploadSnapshot.
  rewrite H1, H2, H3. simpl. rewrite enter_cases, Hcap. reflexivity.
Qed.

End ProctoringFacts.

(** * The hook inside the screen *)

Module ScreenFacts.
Import Js Measures.

(** C5. A cycle whose capture yields no image or whose upload is rejected:
    the error is swallowed (the call completes with no value, nothing is
    rejected), the counters, the snapshot time and the modal are not written,
    the busy flag ends released, no upload is made, the interval and its
    timers stay as they were, the screen's own state is untouched and the
    next answer edit is accepted. *)
Theorem failed_cycle_is_swallowed (attemptId : Z) (device : Proctoring.Metadata)
    (s : Screen.World) (ev : Proctoring.Event) (w' : Proctoring.World)
    (r : Proctoring.Settled) :
  cycleFails ev = true ->
  Proctoring.step (Screen.hookProps attemptId device (Screen.exam s))
    (Screen.proctoring s) ev = Some (w', r) ->
  r = Proctoring.Fulfilled None
  /\ Proctoring.state w'
     = Proctoring.setIsTakingSnapshot false (Proctoring.state (Screen.proctoring s))
  /\ Proctoring.calls w' = Proctoring.calls (Screen.proctoring s)
  /\ Proctoring.timers w' = Proctoring.timers (Screen.proctoring s)
  /\ Proctoring.snapshotIntervalRef w'
     = Proctoring.snapshotIntervalRef (Screen.proctoring s)
  /\ Screen.step attemptId device s (Screen.HookEvent ev)
     = Some {| Screen.exam := Screen.exam s; Screen.proctoring := w' |}
  /\ (forall q a f now,
        is_Some (Screen.step attemptId device
                   {| Screen.exam := Screen.exam s; Screen.proctoring := w' |}
                   (Screen.ExamEvent (Exam.Edit q a f now)))).
Proof.
  intros Hf Hstep.
  destruct (ProctoringFacts.failed_delivery _ _ _ _ _ Hf Hstep)
    as (Hr & Hs & Hc & Ht & Hi & _).
  repeat (split; [assumption|]).
  split.
  - unfold Screen.step. rewrite Hstep.
    destruct ev; try reflexivity; discriminate Hf.
  - intros q a f now. unfold Screen.step. simpl. eexists. reflexivity.
Qed.

Lemma failed_cycle_is_swallowed_witness :
  let s := {| Screen.exam :=
                Exam.onState
                  (Exam.setAttempt
                     (Some {| Exam.proctoring_enabled := true;
                              Exam.time_remaining := 600 |}))
                  (Exam.initialWorld 0);
              Screen.proctoring :=
                default (Proctoring.initialWorld Proctoring.active)
                  (Proctoring.run Samples.props7
                     (Proctoring.initialWorld Proctoring.active) Samples.uploading) |} in
  let ev := Proctoring.UploadDone 0
              (Proctoring.Rejected (ApiError "Network Error" None)) "10:00:05" in
  cycleFails ev = true
  /\ exists w' r,
       Proctoring.step (Screen.hookProps 7 Samples.device (Screen.exam s))
         (Screen.proctoring s) ev = Some (w', r)
       /\ r = Proctoring.Fulfilled None
       /\ Proctoring.isTakingSnapshot (Proctoring.state (Screen.proctoring s)) = true
       /\ Proctoring.isTakingSnapshot (Proctoring.state w') = false
       /\ Proctoring.snapshotIntervalRef w' = Some 2.
Proof.
  intros s ev. split; [reflexivity|].
  destruct (Proctoring.step (Screen.hookProps 7 Samples.device (Screen.exam s))
              (Screen.proctoring s) ev) as [[w' r]|] eqn:Hstep;
    [|vm_compute in Hstep; discriminate Hstep].
  destruct (failed_cycle_is_swallowed 7 Samples.device s ev w' r eq_refl Hstep)
    as (Hr & Hs & _ & _ & Hi & _).
  exists w', r. split; [reflexivity|]. split; [exact Hr|].
  split; [vm_compute; reflexivity|].
  split; [rewrite Hs; reflexivity|].
  rewrite Hi. vm_compute. reflexivity.
Defined.

End ScreenFacts.

(** * Properties of the exam screen *)

Module ExamFacts.
Import Js Exam Measures Sessions.

(** ** Time accounting *)

Lemma updateQuestionTime_alter (k d : Z) (w : World) :
  userAnswers (state (updateQuestionTime k d w))
  = alter (addTime d) k (userAnswers (state w)).
Proof.
  unfold updateQuestionTime. simpl.
  apply map_eq. intros i.
  destruct (decide (i = k)) as [->|Hne].
  - rewrite lookup_alter_eq.
    destruct (userAnswers (state w) !! k) as [e|] eqn:E.
    + rewrite lookup_insert_eq. reflexivity.
    + rewrite E. reflexivity.
  - rewrite lookup_alter_ne by congruence.
    destruct (userAnswers (state w) !! k) as [e|] eqn:E; [|reflexivity].
    rewrite lookup_insert_ne by congruence. reflexivity.
Qed.

Lemma recordedTime_alter (m : gmap Z UserAnswer) (k i d : Z) :
  recordedTime (alter (addTime d) k m) i
  = if decide (i = k)
    then (if decide (is_Some (m !! k)) then recordedTime m k + d else 0)%Z
    else recordedTime m i.
Proof.
  unfold recordedTime. destruct (decide (i = k)) as [->|Hne].
  - rewrite lookup_alter_eq.
    destruct (decide (is_Some (m !! k))) as [[e He]|Hn].
    + rewrite He. reflexivity.
    + destruct (m !! k) as [e|]; [exfalso; apply Hn; eauto|reflexivity].
  - rewrite lookup_alter_ne by congruence. reflexivity.
Qed.

(** C7 as amended. Leaving question [q] through [navigateToQuestion] adds the
    whole seconds since [questionStartTime] to the [timeSpent] of [q]'s
    record when [q] has one and records nothing when it has none; no other
    question's record changes, whatever the order of the visits; and with a
    clock that does not run backwards no recorded time decreases. *)
Theorem navigate_adds_elapsed_seconds (c : Closure) (index : nat) (now : Z) (w : World)
    (q : Question) :
  questions (captured c) !! currentQuestionIndex (captured c) = Some q ->
  (questionStartTime (captured c) <= now)%Z ->
  let elapsed := floor_seconds now (questionStartTime (captured c)) in
  let m := userAnswers (state w) in
  let m' := userAnswers (state (navigateToQuestion c index now w)) in
  m' = alter (addTime elapsed) (id q) m
  /\ dom m' = dom m
  /\ (forall k, recordedTime m' k =
                if decide (k = id q)
                then (if decide (is_Some (m !! id q))
                      then recordedTime m (id q) + elapsed else 0)%Z
                else recordedTime m k)
  /\ (forall k, (recordedTime m k <= recordedTime m' k)%Z).
Proof.
  intros Hq Hclock elapsed m m'.
  assert (Hm : m' = alter (addTime elapsed) (id q) m).
  { subst m' m elapsed. unfold navigateToQuestion. rewrite Hq.
    destruct (questions (captured c) !! index) as [tq|];
      [destruct (bool_decide _)|]; simpl; apply updateQuestionTime_alter. }
  assert (Hpos : (0 <= elapsed)%Z).
  { subst elapsed. unfold floor_seconds. apply Z.div_pos; lia. }
  split; [exact Hm|]. rewrite Hm.
  split; [apply dom_alter_L|].
  split; [intros k; apply recordedTime_alter|].
  intros k. rewrite recordedTime_alter.
  destruct (decide (k = id q)) as [->|Hne]; [|lia].
  destruct (decide (is_Some (m !! id q))) as [Hs|Hn]; [lia|].
  unfold recordedTime. destruct (m !! id q) as [e|] eqn:E; [|simpl; lia].
  exfalso. apply Hn. eauto.
Qed.


Lemma navigate_adds_elapsed_seconds_witness :
  let w := default (initialWorld 0) (run 7 (initialWorld 0) revisit) in
  let c := closureOf 7 w in
  questions (captured c) !! currentQuestionIndex (captured c) = Some Samples.q1
  /\ (questionStartTime (captured c) <= 25000)%Z
  /\ recordedTime (userAnswers (state w)) 101 = 3%Z
  /\ recordedTime (userAnswers (state (navigateToQuestion c 1 25000 w))) 101 = 5%Z.
Proof.
  intros w c.
  assert (H1 : questions (captured c) !! currentQuestionIndex (captured c)
               = Some Samples.q1) by (vm_compute; reflexivity).
  assert (H2 : (questionStartTime (captured c) <= 25000)%Z)
    by (vm_compute; intros H; discriminate H).
  destruct (navigate_adds_elapsed_seconds c 1 25000 w Samples.q1 H1 H2)
    as (_ & _ & H3 & _).
  split; [exact H1|]. split; [exact H2|].
  split; [vm_compute; reflexivity|].
  rewrite H3. vm_compute. reflexivity.
Defined.

(** C7 as stated fails on [revisit]: question 101 was on
    display for ten seconds before it had a record, its record then shows
    the three seconds of the second visit only. *)
Lemma timeSpent_misses_unanswered_visit : ~ timeSpentIsDwellTime 7 0 revisit.
Proof.
  intros H.
  assert (exists w e, run 7 (initialWorld 0) revisit = Some w
                      /\ userAnswers (state w) !! 101%Z = Some e
                      /\ timeSpent e = 3%Z) as (w & e & Hr & Hl & Ht).
  { eexists. eexists. split; [vm_compute; reflexivity|].
    split; [vm_compute; reflexivity|reflexivity]. }
  specialize (H w 101%Z e Hr Hl). rewrite Ht in H.
  vm_compute in H. discriminate H.
Qed.


(** The cleanup of the question-time effect adds the visit a second time:
    after [revisit] the record of question 101 holds 3 s; leaving it 2 s later
    [navigateToQuestion] adds those 2 s and the cleanup, which kept the
    [questionStartTime] of the render that entered the question, adds the
    5 s since then. *)
Lemma cleanup_counts_the_visit_again :
  recordedTime
    (userAnswers (state (default (initialWorld 0)
       (run 7 (initialWorld 0) (revisit ++ [Navigate 1 25000]))))) 101 = 10%Z.
Proof. vm_compute. reflexivity. Qed.

(** ** The debounce timer *)

Lemma world_eta (w : World) :
  withTimeouts (autoSaveTimeoutRef w) (timeouts w) (nextTimerId w) w = w.
Proof. destruct w; reflexivity. Qed.

(** No call goes out while the only pending timer is not due. *)
Lemma elapse_before_due (now : Z) (w : World) (tm : Timeout) :
  timeouts w = [tm] -> (now < due tm)%Z -> elapse now w = w.
Proof.
  intros Ht Hlt. unfold elapse. rewrite Ht.
  rewrite (filter_cons_False (fun t => (due t <= now)%Z) tm []) by (simpl; lia).
  rewrite (filter_cons_True (fun t => ¬ (due t <= now)%Z) tm []) by (simpl; lia).
  rewrite !filter_nil. simpl. rewrite <- Ht. apply world_eta.
Qed.

Lemma elapse_quiet (now : Z) (w : World) : timeouts w = [] -> elapse now w = w.
Proof.
  intros Ht. unfold elapse. rewrite Ht, !filter_nil. simpl. rewrite <- Ht.
  apply world_eta.
Qed.

(** Once it is due, it fires: one [submitAnswer] call with its arguments. *)
Lemma elapse_fires (now : Z) (w : World) (i : nat) (a q : Z) (e : EditOf) :
  pendingSave w i a q e -> (time e + 1000 <= now)%Z ->
  calls (elapse now w) = calls w ++ [SubmitAnswer a q (value e) (flagged e)]
  /\ timeouts (elapse now w) = [].
Proof.
  intros [Ht _] Hdue. unfold elapse. rewrite Ht.
  rewrite (filter_cons_True (fun t => (due t <= now)%Z)) by (simpl; lia).
  rewrite (filter_cons_False (fun t => ¬ (due t <= now)%Z)) by (simpl; lia).
  rewrite !filter_nil. simpl. split; reflexivity.
Qed.

(** An edit replaces whatever single timer is pending by its own. *)
Lemma autoSaveAnswer_rearms (c : Closure) (q : Z) (e : EditOf) (w : World) :
  timeouts w = [] \/ (exists i a' q' e', pendingSave w i a' q' e') ->
  let w' := autoSaveAnswer c q (value e) (flagged e) (time e) w in
  pendingSave w' (nextTimerId w) (attemptId c) q e /\ calls w' = calls w.
Proof.
  intros Hw w'. subst w'. unfold autoSaveAnswer, pendingSave. simpl.
  split; [|reflexivity]. split; [|reflexivity].
  destruct Hw as [Ht | (i & a' & q' & e' & Ht & Hr)].
  - rewrite Ht. destruct (autoSaveTimeoutRef w); reflexivity.
  - rewrite Hr, Ht. unfold clearTimeout.
    rewrite filter_cons_False by (simpl; intros Hn; apply Hn; reflexivity).
    reflexivity.
Qed.

Lemma edit_rearms (a q : Z) (e : EditOf) (w : World) :
  timeouts w = []
  \/ (exists i a' q' e', pendingSave w i a' q' e' /\ (time e < time e' + 1000)%Z) ->
  exists w', step a w (editEvent q e) = Some w'
             /\ pendingSave w' (nextTimerId w) a q e
             /\ calls w' = calls w.
Proof.
  intros Hw. unfold editEvent. simpl.
  assert (He : elapse (time e) w = w).
  { destruct Hw as [Ht | (i & a' & q' & e' & [Ht Hr] & Hlt)].
    - apply elapse_quiet, Ht.
    - eapply elapse_before_due; [exact Ht|]. simpl. lia. }
  rewrite He. eexists. split; [reflexivity|].
  apply (autoSaveAnswer_rearms (closureOf a w) q e w).
  destruct Hw as [Ht | (i & a' & q' & e' & Hp & _)]; [left; exact Ht|].
  right. eauto.
Qed.

Lemma last_default_irrelevant {A} (l : list A) (a x y : A) :
  List.last (a :: l) x = List.last (a :: l) y.
Proof.
  revert a. induction l as [|b l IH]; intros a; [reflexivity|].
  change (List.last (b :: l) x = List.last (b :: l) y). apply IH.
Qed.

Lemma last_cons_shift {A} (l : list A) (a d : A) :
  List.last (a :: l) d = List.last l a.
Proof.
  destruct l as [|b l]; [reflexivity|].
  change (List.last (b :: l) d = List.last (b :: l) a).
  apply last_default_irrelevant.
Qed.

Lemma burst_rearms (a q : Z) (rest : list EditOf) :
  forall (w : World) (i : nat) (e : EditOf),
    pendingSave w i a q e ->
    burst (time e) rest ->
    exists w' i',
      run a w (map (editEvent q) rest) = Some w'
      /\ pendingSave w' i' a q (List.last rest e)
      /\ calls w' = calls w.
Proof.
  induction rest as [|e1 rest IH]; intros w i e Hp Hb.
  - exists w, i. split; [reflexivity|]. split; [exact Hp|reflexivity].
  - destruct Hb as [Hgap Hb].
    destruct (edit_rearms a q e1 w) as (w1 & Hs & Hp1 & Hc1).
    { right. exists i, a, q, e. split; [exact Hp|lia]. }
    destruct (IH w1 (nextTimerId w) e1 Hp1 Hb) as (w' & i' & Hr & Hp' & Hc').
    exists w', i'. split.
    + cbn [map run]. rewrite Hs. exact Hr.
    + split.
      * rewrite last_cons_shift. exact Hp'.
      * congruence.
Qed.

Lemma run_app (a : Z) (l1 l2 : list Event) (w w1 : World) :
  run a w l1 = Some w1 -> run a w (l1 ++ l2) = run a w1 l2.
Proof.
  revert w. induction l1 as [|ev l1 IH]; intros w Hr; simpl in *.
  - inversion Hr. reflexivity.
  - destruct (step a w ev) as [w'|]; [apply IH, Hr|discriminate].
Qed.

(** C6. A burst of edits of one question, each less than the 1000 ms delay
    after the one before, starting with no save pending: when the delay has
    passed after the last edit exactly one [submitAnswer] call has been made,
    with the answer and flag of the last edit, and no timer is left. *)
Theorem debounce_saves_last_edit_once (a q : Z) (w : World) (e : EditOf)
    (rest : list EditOf) (T : Z) :
  timeouts w = [] ->
  burst (time e) rest ->
  (time (List.last rest e) + 1000 <= T)%Z ->
  exists w',
    run a w (map (editEvent q) (e :: rest) ++ [Elapse T]) = Some w'
    /\ calls w' = calls w ++ [SubmitAnswer a q (value (List.last rest e))
                                (flagged (List.last rest e))]
    /\ timeouts w' = [].
Proof.
  intros Hq Hb HT.
  destruct (edit_rearms a q e w (or_introl Hq)) as (w1 & Hs & Hp1 & Hc1).
  destruct (burst_rearms a q rest w1 (nextTimerId w) e Hp1 Hb)
    as (w2 & i2 & Hr & Hp2 & Hc2).
  destruct (elapse_fires T w2 i2 a q (List.last rest e) Hp2 HT) as [Hcalls Hnone].
  exists (elapse T w2). split.
  - rewrite (run_app a (map (editEvent q) (e :: rest)) [Elapse T] w w2).
    + reflexivity.
    + cbn [map run]. rewrite Hs. exact Hr.
  - split; [|exact Hnone]. rewrite Hcalls, Hc2, Hc1. reflexivity.
Qed.

Lemma debounce_saves_last_edit_once_witness :
  let typing :=
    [{| value := "AB"; flagged := false; time := 1400 |};
     {| value := "ABC"; flagged := false; time := 2300 |}] in
  let first := {| value := "A"; flagged := false; time := 1000 |} in
  timeouts (initialWorld 0) = []
  /\ burst (time first) typing
  /\ exists w',
       run 7 (initialWorld 0)
         (map (editEvent 101) (first :: typing) ++ [Elapse 3300]) = Some w'
       /\ calls w' = [SubmitAnswer 7 101 "ABC" false]
       /\ timeouts w' = [].
Proof.
  intros typing first.
  assert (Hb : burst (time first) typing) by (simpl; lia).
  assert (HT : (time (List.last typing first) + 1000 <= 3300)%Z) by (simpl; lia).
  split; [reflexivity|]. split; [exact Hb|].
  exact (debounce_saves_last_edit_once 7 101 (initialWorld 0) first typing 3300
           eq_refl Hb HT).
Defined.


(** ** Final submission *)

(** [submitExam] does not read [submitting]: every invocation sends a
    request, built from the answers of its own render. *)
Lemma submitExam_sends (c : Closure) (now : Z) (w : World) :
  calls (submitExam c now w)
  = calls w ++ [SubmitExam {| attempt_id := attemptId c;
                              answers := answersForSubmit (userAnswers (captured c)) |}]
  /\ submitting (state (submitExam c now w)) = true.
Proof.
  unfold submitExam.
  destruct (questions (captured c) !! currentQuestionIndex (captured c));
    split; reflexivity.
Qed.

(** The tick that finds no time left clears the interval and submits once;
    later ticks find no interval. *)
Lemma countdown_submits_once (c : Closure) (now later : Z) (w : World) :
  countdown w = Some c ->
  (timeRemaining (state w) <= 0)%Z ->
  let w' := countdownTick now w in
  calls w' = calls w ++ [SubmitExam {| attempt_id := attemptId c;
                                       answers := answersForSubmit (userAnswers (captured c)) |}]
  /\ countdown w' = None
  /\ countdownTick later w' = w'.
Proof.
  intros Hc Hz w'. subst w'.
  assert (Heq : countdownTick now w
                = onState (setTimeRemaining (fun _ => 0%Z))
                    (handleAutoSubmit c now (withCountdown None w))).
  { unfold countdownTick. rewrite Hc.
    replace (timeRemaining (state w) <=? 0)%Z with true
      by (symmetry; apply Z.leb_le, Hz).
    reflexivity. }
  rewrite Heq.
  assert (Hn : countdown (onState (setTimeRemaining (fun _ => 0%Z))
                            (handleAutoSubmit c now (withCountdown None w))) = None).
  { unfold handleAutoSubmit, submitExam.
    destruct (questions (captured c) !! currentQuestionIndex (captured c)); reflexivity. }
  split.
  - unfold handleAutoSubmit. simpl.
    destruct (submitExam_sends c now (alert "Time's Up!" (withCountdown None w))) as [H _].
    exact H.
  - split; [exact Hn|]. unfold countdownTick. rewrite Hn. reflexivity.
Qed.

(** C8 (the code departs from it). On [expiry] the countdown does submit by
    itself, once; but the interval runs [handleAutoSubmit] of the render in
    which the attempt arrived, whose [userAnswers] is empty: the payload has
    no answer although question 101 is answered in memory.  And nothing
    guards re-entrance: with that submission still in flight and
    [submitting] set, a tap on the submit button sends a second request. *)
Theorem auto_submit_sends_stale_answers :
  exists w w2,
    run 7 (initialWorld 0) expiry = Some w
    /\ answer <$> userAnswers (state w) !! 101%Z = Some "B"
    /\ calls w = [SubmitAnswer 7 101 "B" false;
                  SubmitExam {| attempt_id := 7; answers := ∅ |}]
    /\ alerts w = ["Time's Up!"]
    /\ submitting (state w) = true
    /\ step 7 w (TapSubmit 6000) = Some w2
    /\ length (calls w2) = 3.
Proof.
  eexists. eexists.
  split; [vm_compute; reflexivity|].
  split; [vm_compute; reflexivity|].
  split; [vm_compute; reflexivity|].
  split; [reflexivity|].
  split; [reflexivity|].
  split; [vm_compute; reflexivity|].
  reflexivity.
Qed.

End ExamFacts.

(** * Recorded time along a session *)

Module SessionFacts.
Import Js Exam Measures Sessions.

Lemma floor_seconds_nonneg (now start : Z) :
  (start <= now)%Z -> (0 <= floor_seconds now start)%Z.
Proof. intros H. unfold floor_seconds. apply Z.div_pos; lia. Qed.

Lemma foldl_fireTimeout_frame (l : list Timeout) (w : World) :
  state (foldl fireTimeout w l) = state w
  /\ questionCleanup (foldl fireTimeout w l) = questionCleanup w
  /\ countdown (foldl fireTimeout w l) = countdown w.
Proof.
  revert w. induction l as [|t l IH]; intros w; [repeat split|].
  simpl. destruct (IH (fireTimeout w t)) as (H1 & H2 & H3).
  rewrite H1, H2, H3. repeat split.
Qed.

Lemma elapse_frame (now : Z) (w : World) :
  state (elapse now w) = state w
  /\ questionCleanup (elapse now w) = questionCleanup w
  /\ countdown (elapse now w) = countdown w.
Proof.
  unfold elapse.
  match goal with
  | |- context [foldl fireTimeout ?x ?l] =>
      destruct (foldl_fireTimeout_frame l x) as (H1 & H2 & H3)
  end.
  rewrite H1, H2, H3. repeat split.
Qed.

Lemma updateQuestionTime_grows (k d : Z) (w : World) (i : Z) :
  (0 <= d)%Z ->
  (recordedTime (userAnswers (state w)) i
   <= recordedTime (userAnswers (state (updateQuestionTime k d w))) i)%Z.
Proof.
  intros Hd. rewrite ExamFacts.updateQuestionTime_alter, ExamFacts.recordedTime_alter.
  destruct (decide (i = k)) as [->|Hne]; [|lia].
  destruct (decide (is_Some (userAnswers (state w) !! k))) as [Hs|Hn]; [lia|].
  unfold recordedTime.
  destruct (userAnswers (state w) !! k) as [e|]; [exfalso; apply Hn; eauto|simpl; lia].
Qed.

Lemma autoSaveAnswer_grows (c : Closure) (q : Z) (a : string) (f : bool) (now : Z)
    (w : World) (i : Z) :
  (questionStartTime (captured c) <= now)%Z ->
  (recordedTime (userAnswers (state w)) i
   <= recordedTime (userAnswers (state (autoSaveAnswer c q a f now w))) i)%Z.
Proof.
  intros Hc. pose proof (floor_seconds_nonneg _ _ Hc) as Hpos.
  unfold autoSaveAnswer, recordedTime. simpl.
  destruct (decide (i = q)) as [->|Hne].
  - rewrite lookup_insert_eq. simpl.
    destruct (userAnswers (state w) !! q) as [e|]; simpl; lia.
  - rewrite lookup_insert_ne by congruence. lia.
Qed.

Lemma questionEffect_grows (now : Z) (w : World) (i : Z) :
  (forall q s, questionCleanup w = Some (q, s) -> (s <= now)%Z) ->
  (recordedTime (userAnswers (state w)) i
   <= recordedTime (userAnswers (state (questionEffect now w))) i)%Z.
Proof.
  intros Hs. unfold questionEffect.
  assert (G : (recordedTime (userAnswers (state w)) i
               <= recordedTime (userAnswers (state
                    match questionCleanup w with
                    | Some (currentQuestion, questionStartTime) =>
                        updateQuestionTime (id currentQuestion)
                          (floor_seconds now questionStartTime) w
                    | None => w
                    end)) i)%Z).
  { destruct (questionCleanup w) as [[q s]|] eqn:E; [|lia].
    apply updateQuestionTime_grows, floor_seconds_nonneg, (Hs q s eq_refl). }
  destruct (questions (state w) !! currentQuestionIndex (state w)); exact G.
Qed.

Lemma navigateToQuestion_grows (c : Closure) (index : nat) (now : Z) (w : World) (i : Z) :
  (questionStartTime (captured c) <= now)%Z ->
  (recordedTime (userAnswers (state w)) i
   <= recordedTime (userAnswers (state (navigateToQuestion c index now w))) i)%Z.
Proof.
  intros Hc. unfold navigateToQuestion.
  assert (G : (recordedTime (userAnswers (state w)) i
               <= recordedTime (userAnswers (state
                    match questions (captured c) !! currentQuestionIndex (captured c) with
                    | Some currentQuestion =>
                        updateQuestionTime (id currentQuestion)
                          (floor_seconds now (questionStartTime (captured c))) w
                    | None => w
                    end)) i)%Z).
  { destruct (questions (captured c) !! currentQuestionIndex (captured c)); [|lia].
    apply updateQuestionTime_grows, floor_seconds_nonneg, Hc. }
  destruct (questions (captured c) !! index) as [tq|];
    [destruct (bool_decide _)|]; exact G.
Qed.

Lemma submitExam_grows (c : Closure) (now : Z) (w : World) (i : Z) :
  (questionStartTime (captured c) <= now)%Z ->
  (recordedTime (userAnswers (state w)) i
   <= recordedTime (userAnswers (state (submitExam c now w))) i)%Z.
Proof.
  intros Hc. unfold submitExam.
  destruct (questions (captured c) !! currentQuestionIndex (captured c)); [|simpl; lia].
  apply (updateQuestionTime_grows _ _ (onState (setSubmitting true) w)),
    floor_seconds_nonneg, Hc.
Qed.

(** One step of the screen never lowers a recorded time when the event's
    stamp is not before the start stamps in use. *)
Lemma step_recordedTime_grows (a : Z) (w w' : World) (ev : Event) (i : Z) :
  step a w ev = Some w' ->
  (forall now, eventTime ev = Some now -> stampsBefore w now) ->
  (recordedTime (userAnswers (state w)) i <= recordedTime (userAnswers (state w')) i)%Z.
Proof.
  intros Hstep Hst.
  destruct ev as [att|sorted fs now|q ans f now|index now|now|now|now|n ok at_|n ok];
    simpl in Hstep.
  - inversion Hstep; subst. unfold countdownEffect. simpl.
    destruct (time_remaining att =? 0)%Z; simpl; lia.
  - destruct (Hst now eq_refl) as (H1 & H2 & H3).
    destruct (elapse_frame now w) as (E1 & E2 & E3).
    inversion Hstep; subst. clear Hstep.
    etransitivity; [|apply questionEffect_grows].
    + destruct fs; simpl; rewrite E1; lia.
    + intros q s Hq. apply (H2 q s). destruct fs; simpl in Hq; rewrite E2 in Hq; exact Hq.
  - destruct (Hst now eq_refl) as (H1 & H2 & H3).
    destruct (elapse_frame now w) as (E1 & E2 & E3).
    inversion Hstep; subst. clear Hstep.
    rewrite <- E1 at 1. apply autoSaveAnswer_grows. simpl. rewrite E1. exact H1.
  - destruct (Hst now eq_refl) as (H1 & H2 & H3).
    destruct (elapse_frame now w) as (E1 & E2 & E3).
    assert (N : (recordedTime (userAnswers (state w)) i
                 <= recordedTime (userAnswers (state
                      (navigateToQuestion (closureOf a (elapse now w)) index now
                         (elapse now w)))) i)%Z).
    { rewrite <- E1 at 1. apply navigateToQuestion_grows. simpl. rewrite E1. exact H1. }
    destruct (Nat.eqb index _); inversion Hstep; subst; [exact N|].
    etransitivity; [exact N|]. apply questionEffect_grows.
    intros q s Hq. apply (H2 q s). rewrite <- E2.
    revert Hq. unfold navigateToQuestion.
    destruct (questions _ !! currentQuestionIndex _);
      destruct (questions _ !! index) as [tq|];
      try destruct (bool_decide _); simpl; intros Hq; exact Hq.
  - inversion Hstep; subst. destruct (elapse_frame now w) as (E1 & _). rewrite E1. lia.
  - destruct (Hst now eq_refl) as (H1 & H2 & H3).
    destruct (elapse_frame now w) as (E1 & E2 & E3).
    inversion Hstep; subst. clear Hstep. unfold countdownTick.
    destruct (countdown (elapse now w)) as [c|] eqn:Hc; [|rewrite E1; lia].
    destruct (timeRemaining (state (elapse now w)) <=? 0)%Z; [|simpl; rewrite E1; lia].
    simpl. unfold handleAutoSubmit.
    rewrite <- E1 at 1.
    apply (submitExam_grows c now (alert "Time's Up!" (withCountdown None (elapse now w)))).
    apply H3. symmetry. exact E3.
  - destruct (Hst now eq_refl) as (H1 & H2 & H3).
    destruct (elapse_frame now w) as (E1 & E2 & E3).
    inversion Hstep; subst. clear Hstep.
    rewrite <- E1 at 1. apply submitExam_grows. simpl. rewrite E1. exact H1.
  - destruct (inflight w !! n) as [[|]|]; try discriminate.
    inversion Hstep; subst. unfold saveSettled. destruct ok; simpl; lia.
  - destruct (inflight w !! n) as [[|]|]; try discriminate.
    inversion Hstep; subst. simpl. lia.
Qed.


Lemma stampsBefore_later (w : World) (t t' : Z) :
  stampsBefore w t -> (t <= t')%Z -> stampsBefore w t'.
Proof.
  intros (H1 & H2 & H3) Hle. split; [lia|]. split.
  - intros q s Hq. specialize (H2 q s Hq). lia.
  - intros c Hc. specialize (H3 c Hc). lia.
Qed.

Lemma submitExam_frame (c : Closure) (now : Z) (w : World) :
  questionStartTime (state (submitExam c now w)) = questionStartTime (state w)
  /\ questionCleanup (submitExam c now w) = questionCleanup w
  /\ countdown (submitExam c now w) = countdown w.
Proof.
  unfold submitExam.
  destruct (questions (captured c) !! currentQuestionIndex (captured c)); repeat split.
Qed.

Lemma questionEffect_stamps (now : Z) (w : World) :
  stampsBefore w now -> stampsBefore (questionEffect now w) now.
Proof.
  intros (H1 & H2 & H3). unfold questionEffect.
  destruct (questions (state w) !! currentQuestionIndex (state w)) as [cq|];
    destruct (questionCleanup w) as [[q s]|] eqn:E;
    unfold stampsBefore, updateQuestionTime; simpl.
  all: split; [first [lia | exact H1]|].
  all: split; [|exact H3].
  all: intros q' s' Hq; inversion Hq; subst; lia.
Qed.

(** The start stamps stay at or before the clock. *)
Lemma step_stamps (a : Z) (w w' : World) (ev : Event) (t0 : Z) :
  step a w ev = Some w' ->
  stampsBefore w t0 ->
  (forall now, eventTime ev = Some now -> (t0 <= now)%Z) ->
  stampsBefore w' (default t0 (eventTime ev)).
Proof.
  intros Hstep Hst Hle.
  destruct ev as [att|sorted fs now|q ans f now|index now|now|now|now|n ok at_|n ok];
    simpl in Hstep; simpl.
  - destruct Hst as (H1 & H2 & H3). inversion Hstep; subst. unfold countdownEffect. simpl.
    destruct (time_remaining att =? 0)%Z; simpl;
      (split; [exact H1|split; [exact H2|]]); intros c Hc;
      [discriminate|inversion Hc; subst; exact H1].
  - pose proof (stampsBefore_later w t0 now Hst (Hle now eq_refl)) as (H1 & H2 & H3).
    destruct (elapse_frame now w) as (E1 & E2 & E3).
    inversion Hstep; subst. apply questionEffect_stamps.
    destruct fs; unfold stampsBefore; simpl; rewrite ?E1, ?E2, ?E3;
      (split; [exact H1|split; [exact H2|exact H3]]).
  - pose proof (stampsBefore_later w t0 now Hst (Hle now eq_refl)) as (H1 & H2 & H3).
    destruct (elapse_frame now w) as (E1 & E2 & E3).
    inversion Hstep; subst. unfold stampsBefore, autoSaveAnswer. simpl.
    rewrite ?E2, ?E3. split; [lia|split; [exact H2|exact H3]].
  - pose proof (stampsBefore_later w t0 now Hst (Hle now eq_refl)) as (H1 & H2 & H3).
    destruct (elapse_frame now w) as (E1 & E2 & E3).
    assert (N : stampsBefore (navigateToQuestion (closureOf a (elapse now w)) index now
                                (elapse now w)) now).
    { unfold navigateToQuestion.
      destruct (questions _ !! currentQuestionIndex _);
        destruct (questions _ !! index) as [tq|];
        try destruct (bool_decide _);
        unfold stampsBefore, updateQuestionTime; simpl; rewrite ?E2, ?E3;
        (split; [lia|split; [exact H2|exact H3]]). }
    destruct (Nat.eqb index _); inversion Hstep; subst; [exact N|].
    apply questionEffect_stamps, N.
  - pose proof (stampsBefore_later w t0 now Hst (Hle now eq_refl)) as (H1 & H2 & H3).
    destruct (elapse_frame now w) as (E1 & E2 & E3).
    inversion Hstep; subst. unfold stampsBefore. rewrite E1, E2, E3.
    split; [exact H1|split; [exact H2|exact H3]].
  - pose proof (stampsBefore_later w t0 now Hst (Hle now eq_refl)) as (H1 & H2 & H3).
    destruct (elapse_frame now w) as (E1 & E2 & E3).
    inversion Hstep; subst. unfold countdownTick. rewrite E3.
    destruct (countdown w) as [c|] eqn:Hc.
    + destruct (timeRemaining (state (elapse now w)) <=? 0)%Z.
      * unfold handleAutoSubmit, stampsBefore.
        destruct (submitExam_frame c now
                    (alert "Time's Up!" (withCountdown None (elapse now w))))
          as (F1 & F2 & F3).
        cbn -[submitExam]. rewrite F1, F2, F3. simpl. rewrite E1, E2.
        split; [exact H1|split; [exact H2|intros c' Hc'; discriminate]].
      * unfold stampsBefore. cbn -[elapse]. rewrite E1, E2, E3.
        split; [exact H1|split; [exact H2|exact H3]].
    + unfold stampsBefore. rewrite E1, E2, E3.
      split; [exact H1|split; [exact H2|exact H3]].
  - pose proof (stampsBefore_later w t0 now Hst (Hle now eq_refl)) as (H1 & H2 & H3).
    destruct (elapse_frame now w) as (E1 & E2 & E3).
    inversion Hstep; subst. unfold stampsBefore.
    destruct (submitExam_frame (closureOf a (elapse now w)) now (elapse now w))
      as (F1 & F2 & F3).
    rewrite F1, F2, F3, E1, E2, E3. split; [exact H1|split; [exact H2|exact H3]].
  - destruct (inflight w !! n) as [[|]|]; try discriminate.
    inversion Hstep; subst. unfold saveSettled. destruct ok; exact Hst.
  - destruct (inflight w !! n) as [[|]|]; try discriminate.
    inversion Hstep; subst. exact Hst.
Qed.

(** Along every session whose clock does not run backwards no recorded time
    ever decreases, whichever handler, timer or effect cleanup writes it. *)
Lemma recordedTime_never_decreases (a : Z) (evs : list Event) :
  forall (w w' : World) (t0 : Z) (i : Z),
    stampsBefore w t0 ->
    clockOrdered t0 evs ->
    run a w evs = Some w' ->
    (recordedTime (userAnswers (state w)) i <= recordedTime (userAnswers (state w')) i)%Z.
Proof.
  induction evs as [|ev evs IH]; intros w w' t0 i Hst Hclock Hrun; simpl in Hrun.
  - inversion Hrun; subst. lia.
  - destruct (step a w ev) as [w1|] eqn:Hstep; [|discriminate].
    cbn [clockOrdered] in Hclock.
    assert (Hle : forall now, eventTime ev = Some now -> (t0 <= now)%Z).
    { intros now Hn. rewrite Hn in Hclock. apply Hclock. }
    assert (Hclock' : clockOrdered (default t0 (eventTime ev)) evs).
    { destruct (eventTime ev); [apply Hclock|exact Hclock]. }
    etransitivity.
    + apply (step_recordedTime_grows a w w1 ev i Hstep).
      intros now Hn. apply (stampsBefore_later w t0 now Hst (Hle now Hn)).
    + apply (IH w1 w' _ i (step_stamps a w w1 ev t0 Hstep Hst Hle) Hclock' Hrun).
Qed.

End SessionFacts.

(** * The scheduler over whole runs *)

Module SchedulerFacts.
Import Js Proctoring Measures Scheduler.

(** A property kept by every step whose event passes [ok] is kept by every
    run of such events. *)
Lemma run_keeps (p : Props) (Q : World -> Prop) (ok : Event -> bool) :
  (forall w ev w' r, Q w -> ok ev = true -> step p w ev = Some (w', r) -> Q w') ->
  forall evs w w',
    Q w -> forallb ok evs = true -> run p w evs = Some w' -> Q w'.
Proof.
  intros Hstep. induction evs as [|ev evs IH]; intros w w' HQ Hok Hrun; simpl in *.
  - inversion Hrun; subst. exact HQ.
  - apply andb_prop in Hok as [Hev Hevs].
    destruct (step p w ev) as [[w1 r]|] eqn:E; [|discriminate].
    apply (IH w1 w' (Hstep w ev w1 r HQ Hev E) Hevs Hrun).
Qed.

Lemma stopProctoring_idle (w : World) : idle w -> stopProctoring w = w.
Proof. intros (_ & _ & _ & Hr). unfold stopProctoring. rewrite Hr. reflexivity. Qed.

Lemma idle_onState (f : HookState -> HookState) (w : World) :
  idle w -> idle (onState f w).
Proof. intros H. exact H. Qed.

(** On an idle world the start effect does nothing unless all three
    conditions hold in the new render. *)
Lemma startEffect_idle (p : Props) (w : World) :
  idle w ->
  isProctoringEnabled p && cameraReady (state w) && hasPermission (state w) = false ->
  startEffect p w = w.
Proof.
  intros Hi Hc. unfold startEffect. rewrite (stopProctoring_idle w Hi). simpl.
  destruct (isProctoringEnabled p); simpl in *;
    [|reflexivity].
  destruct (negb (attemptId p =? 0)%Z); simpl; [|reflexivity].
  rewrite Hc. reflexivity.
Qed.

Lemma appStateEffect_idle (p : Props) (w : World) :
  idle w ->
  isProctoringEnabled p && cameraReady (state w) && hasPermission (state w) = false ->
  appStateEffect p w = w.
Proof.
  intros Hi Hc. pose proof Hi as (_ & _ & _ & Hr). unfold appStateEffect. simpl.
  rewrite Hr. simpl. rewrite andb_false_r. simpl.
  destruct (is_active (appState (state w))); simpl; [|reflexivity].
  destruct (isProctoringEnabled p); simpl in *; [|reflexivity].
  rewrite Hc. reflexivity.
Qed.

(** While one of the three arming conditions cannot become true, a step
    keeps the world idle. *)
Lemma idle_step (p : Props) (w w' : World) (ev : Event) (r : Settled) :
  idle w ->
  step p w ev = Some (w', r) ->
  isProctoringEnabled p && cameraReady (state w') && hasPermission (state w') = false ->
  idle w'.
Proof.
  intros Hi Hstep Hc. pose proof Hi as (Ht & Hf & Hcalls & Hr).
  destruct ev as [granted| |next|id|n o iso|n o t| |]; simpl in Hstep.
  - destruct (isProctoringEnabled p) eqn:He; [|discriminate].
    destruct (Bool.eqb _ _); inversion Hstep; subst; [exact Hi|].
    rewrite ProctoringFacts.state_startEffect in Hc.
    rewrite startEffect_idle; [exact Hi|exact Hi|]. rewrite He. exact Hc.
  - destruct (cameraReady (state w)); inversion Hstep; subst; [exact Hi|].
    rewrite ProctoringFacts.state_startEffect in Hc.
    rewrite startEffect_idle; [exact Hi|exact Hi|exact Hc].
  - destruct (sameAppState _ _); inversion Hstep; subst; [exact Hi|].
    rewrite ProctoringFacts.state_appStateEffect in Hc.
    rewrite appStateEffect_idle; [exact Hi|exact Hi|exact Hc].
  - rewrite Ht in Hstep. discriminate.
  - rewrite Hf in Hstep. rewrite lookup_nil in Hstep. discriminate.
  - rewrite Hf in Hstep. rewrite lookup_nil in Hstep. discriminate.
  - inversion Hstep; subst. exact Hi.
  - inversion Hstep; subst. rewrite (stopProctoring_idle w Hi). exact Hi.
Qed.


Lemma idle_step_state (p : Props) (w w' : World) (ev : Event) (r : Settled) :
  idle w ->
  step p w ev = Some (w', r) ->
  state w' = match ev with
             | PermissionAnswer granted => setHasPermission granted (state w)
             | CameraAttached => setCameraReady true (state w)
             | AppStateChanged next => setAppState next (state w)
             | CloseModal => setViolationModal hide (state w)
             | _ => state w
             end.
Proof.
  intros (Ht & Hf & _ & _) Hstep.
  destruct ev as [granted| |next|id|n o iso|n o t| |]; simpl in Hstep.
  - destruct (isProctoringEnabled p); [|discriminate].
    destruct (Bool.eqb _ _); inversion Hstep; subst;
      rewrite ?ProctoringFacts.state_startEffect; reflexivity.
  - destruct (cameraReady (state w)); inversion Hstep; subst;
      rewrite ?ProctoringFacts.state_startEffect; reflexivity.
  - destruct (sameAppState _ _); inversion Hstep; subst;
      rewrite ?ProctoringFacts.state_appStateEffect; reflexivity.
  - rewrite Ht in Hstep. discriminate.
  - rewrite Hf, lookup_nil in Hstep. discriminate.
  - rewrite Hf, lookup_nil in Hstep. discriminate.
  - inversion Hstep; subst. reflexivity.
  - inversion Hstep; subst. apply ProctoringFacts.state_stopProctoring.
Qed.

(** X1. Until the hook can be armed it does nothing: in a run from mount in
    which proctoring is disabled, or the permission is never granted, or no
    camera is ever attached, no photo is taken, nothing is uploaded and no
    timer is ever set. *)
Theorem unarmed_hook_never_captures (p : Props) (a : AppStateStatus) (evs : list Event)
    (w : World) :
  canArm p evs = false ->
  run p (initialWorld a) evs = Some w ->
  calls w = [] /\ timers w = [] /\ inflight w = [] /\ snapshotCount (state w) = 0%Z.
Proof.
  intros Hno Hrun.
  assert (Hcases : isProctoringEnabled p = false
                   \/ forallb (fun ev => negb (isGrant ev)) evs = true
                   \/ forallb (fun ev => negb (isAttach ev)) evs = true).
  { unfold canArm in Hno.
    destruct (isProctoringEnabled p); [|left; reflexivity].
    destruct (existsb isGrant evs) eqn:Hg.
    - destruct (existsb isAttach evs) eqn:Ha; [discriminate|].
      right. right. apply forallb_forall. intros ev Hin.
      destruct (isAttach ev) eqn:E; [|reflexivity].
      assert (existsb isAttach evs = true) by (apply existsb_exists; eauto).
      congruence.
    - right. left. apply forallb_forall. intros ev Hin.
      destruct (isGrant ev) eqn:E; [|reflexivity].
      assert (existsb isGrant evs = true) by (apply existsb_exists; eauto).
      congruence. }
  assert (Hidle0 : idle (initialWorld a)) by (repeat split).
  assert (G : idle w /\ snapshotCount (state w) = 0%Z).
  { destruct Hcases as [He | [Hg | Ha]].
    - apply (run_keeps p (fun x => idle x /\ snapshotCount (state x) = 0%Z)
               (fun _ => true)) with (evs := evs) (w := initialWorld a).
      + intros x ev x' r [Hi Hs] _ Hstep. split.
        * apply (idle_step p x x' ev r Hi Hstep). rewrite He. reflexivity.
        * rewrite (idle_step_state p x x' ev r Hi Hstep).
          destruct ev as [g| |n| | | | |]; exact Hs.
      + split; [exact Hidle0|reflexivity].
      + apply forallb_forall. reflexivity.
      + exact Hrun.
    - apply proj1 with (B := hasPermission (state w) = false).
      apply (run_keeps p (fun x => (idle x /\ snapshotCount (state x) = 0%Z)
                                   /\ hasPermission (state x) = false)
               (fun ev => negb (isGrant ev))) with (evs := evs) (w := initialWorld a).
      + intros x ev x' r [[Hi Hs] Hp] Hok Hstep.
        pose proof (idle_step_state p x x' ev r Hi Hstep) as Hst.
        assert (Hp' : hasPermission (state x') = false).
        { rewrite Hst. destruct ev as [[|]| |n| | | | |]; try exact Hp; try discriminate Hok.
          reflexivity. }
        split; [split|exact Hp'].
        * apply (idle_step p x x' ev r Hi Hstep). rewrite Hp'.
          rewrite andb_false_r. reflexivity.
        * rewrite Hst. destruct ev as [g| |n| | | | |]; exact Hs.
      + repeat split.
      + exact Hg.
      + exact Hrun.
    - apply proj1 with (B := cameraReady (state w) = false).
      apply (run_keeps p (fun x => (idle x /\ snapshotCount (state x) = 0%Z)
                                   /\ cameraReady (state x) = false)
               (fun ev => negb (isAttach ev))) with (evs := evs) (w := initialWorld a).
      + intros x ev x' r [[Hi Hs] Hp] Hok Hstep.
        pose proof (idle_step_state p x x' ev r Hi Hstep) as Hst.
        assert (Hp' : cameraReady (state x') = false).
        { rewrite Hst. destruct ev as [g| |n| | | | |]; try exact Hp; discriminate Hok. }
        split; [split|exact Hp'].
        * apply (idle_step p x x' ev r Hi Hstep). rewrite Hp'.
          rewrite andb_false_r. reflexivity.
        * rewrite Hst. destruct ev as [g| |n| | | | |]; exact Hs.
      + repeat split.
      + exact Ha.
      + exact Hrun. }
  destruct G as [(Ht & Hf & Hc & _) Hs]. repeat split; assumption.
Qed.

Lemma unarmed_hook_never_captures_witness :
  let p := {| attemptId := 7; isProctoringEnabled := false; device := Samples.device |} in
  let evs := [CameraAttached; AppStateChanged background; AppStateChanged active;
              CloseModal] in
  canArm p evs = false
  /\ exists w, run p (initialWorld active) evs = Some w /\ calls w = [] /\ timers w = [].
Proof.
  intros p evs. split; [reflexivity|].
  destruct (run p (initialWorld active) evs) as [w|] eqn:E;
    [|vm_compute in E; discriminate E].
  exists w. split; [reflexivity|].
  destruct (unarmed_hook_never_captures p active evs w eq_refl E) as (H1 & H2 & _).
  split; assumption.
Defined.


(** ** The timer table *)

Lemma NoDup_fmap_filter {A B} (f : A -> B) (P : A -> Prop) `{!forall x, Decision (P x)}
    (l : list A) :
  NoDup (f <$> l) -> NoDup (f <$> filter P l).
Proof.
  induction l as [|x l IH]; simpl; [intros Hnil; exact Hnil|].
  rewrite NoDup_cons. intros [Hx Hl]. rewrite filter_cons.
  destruct (decide (P x)); [|apply IH, Hl].
  simpl. apply NoDup_cons. split; [|apply IH, Hl].
  intros Hin. apply Hx. apply list_elem_of_fmap in Hin as (y & Hy & Hin).
  apply list_elem_of_filter in Hin as [_ Hin].
  apply list_elem_of_fmap. eauto.
Qed.

Lemma same_id_same_timer (l : list Timer) (t1 t2 : Timer) :
  NoDup (timerId <$> l) -> t1 ∈ l -> t2 ∈ l -> timerId t1 = timerId t2 -> t1 = t2.
Proof.
  intros Hnd H1 H2 Hid.
  apply list_elem_of_lookup in H1 as [i Hi]. apply list_elem_of_lookup in H2 as [j Hj].
  assert (Hi' : (timerId <$> l) !! i = Some (timerId t1))
    by (rewrite list_lookup_fmap, Hi; reflexivity).
  assert (Hj' : (timerId <$> l) !! j = Some (timerId t1))
    by (rewrite list_lookup_fmap, Hj, Hid; reflexivity).
  pose proof (NoDup_lookup _ i j _ Hnd Hi' Hj') as ->. congruence.
Qed.

(** The scheduling part of the world. *)
Lemma timersConsistent_ext (w w' : World) :
  timers w' = timers w -> nextTimerId w' = nextTimerId w ->
  snapshotIntervalRef w' = snapshotIntervalRef w ->
  timersConsistent w -> timersConsistent w'.
Proof.
  intros Ht Hn Hr. unfold timersConsistent. rewrite Ht, Hn, Hr. intros H. exact H.
Qed.

Lemma filter_iff_in {A} (P Q : A -> Prop) `{!forall x, Decision (P x)}
    `{!forall x, Decision (Q x)} (l : list A) :
  (forall x, x ∈ l -> (P x <-> Q x)) -> filter P l = filter Q l.
Proof.
  induction l as [|x l IH]; intros Hpq; [reflexivity|].
  rewrite !filter_cons.
  assert (Hl : filter P l = filter Q l).
  { apply IH. intros y Hy. apply Hpq. right. exact Hy. }
  destruct (decide (P x)) as [Hp|Hp]; destruct (decide (Q x)) as [Hq|Hq].
  - rewrite Hl. reflexivity.
  - exfalso. apply Hq, (Hpq x); [left|exact Hp].
  - exfalso. apply Hp, (Hpq x); [left|exact Hq].
  - exact Hl.
Qed.

Lemma filter_all {A} (P : A -> Prop) `{!forall x, Decision (P x)} (l : list A) :
  (forall x, x ∈ l -> P x) -> filter P l = l.
Proof.
  induction l as [|x l IH]; intros Hall; [reflexivity|].
  rewrite filter_cons_True by (apply Hall; left).
  rewrite IH; [reflexivity|]. intros y Hy. apply Hall. right. exact Hy.
Qed.

(** [stopProctoring] clears the interval and only the interval. *)
Lemma consistent_stop (w : World) :
  timersConsistent w ->
  timersConsistent (stopProctoring w)
  /\ snapshotIntervalRef (stopProctoring w) = None
  /\ timers (stopProctoring w) = filter (fun t => repeating t = false) (timers w).
Proof.
  intros (Hnd & Hlt & Hrep & Href).
  assert (Hsame : timers (stopProctoring w)
                  = filter (fun t => repeating t = false) (timers w)).
  { unfold stopProctoring. destruct (snapshotIntervalRef w) as [id|] eqn:Hr.
    - simpl. apply filter_iff_in. intros t Hin. split.
      + intros Hne. destruct (repeating t) eqn:E; [|reflexivity].
        specialize (Hrep t Hin E). inversion Hrep. congruence.
      + intros Hf Hid. destruct (Href id eq_refl) as (t' & Hin' & Hid' & Hrep').
        assert (t = t') by (apply (same_id_same_timer (timers w)); congruence).
        congruence.
    - symmetry. apply filter_all. intros t Hin.
      destruct (repeating t) eqn:E; [|reflexivity].
      specialize (Hrep t Hin E). discriminate. }
  assert (Hnone : snapshotIntervalRef (stopProctoring w) = None).
  { unfold stopProctoring. destruct (snapshotIntervalRef w) eqn:Hr; [reflexivity|exact Hr]. }
  assert (Hnext : nextTimerId (stopProctoring w) = nextTimerId w).
  { unfold stopProctoring. destruct (snapshotIntervalRef w); reflexivity. }
  split; [|split; [exact Hnone|exact Hsame]].
  unfold timersConsistent. rewrite Hsame, Hnone, Hnext.
  split; [apply NoDup_fmap_filter, Hnd|].
  split; [intros t Hin; apply list_elem_of_filter in Hin as [_ Hin]; apply Hlt, Hin|].
  split.
  - intros t Hin E. apply list_elem_of_filter in Hin as [Hf _]. congruence.
  - intros id Hid. discriminate.
Qed.


(** What [startProctoring] schedules when its guards pass: the interval of
    before is cleared, a one-shot timer and a new interval are added, both
    with the function of the render [c]. *)
Lemma startProctoring_timers (c : Closure) (w : World) :
  isProctoringEnabled (props c) = true ->
  cameraReady (captured c) = true ->
  hasPermission (captured c) = true ->
  timers (startProctoring c w)
  = timers (stopProctoring w)
    ++ [{| timerId := nextTimerId w; repeating := false; callback := c |};
        {| timerId := S (nextTimerId w); repeating := true; callback := c |}]
  /\ nextTimerId (startProctoring c w) = S (S (nextTimerId w))
  /\ snapshotIntervalRef (startProctoring c w) = Some (S (nextTimerId w))
  /\ inflight (startProctoring c w) = inflight w
  /\ calls (startProctoring c w) = calls w.
Proof.
  intros He Hc Hp. unfold startProctoring, stopProctoring. rewrite He, Hc, Hp. simpl.
  destruct (snapshotIntervalRef w) as [id|]; simpl;
    rewrite <- app_assoc; repeat split.
Qed.

Lemma startProctoring_skips (c : Closure) (w : World) :
  isProctoringEnabled (props c) && cameraReady (captured c) && hasPermission (captured c)
  = false ->
  startProctoring c w = w.
Proof.
  intros H. unfold startProctoring.
  destruct (isProctoringEnabled (props c)); [|reflexivity].
  destruct (cameraReady (captured c)); [|reflexivity].
  destruct (hasPermission (captured c)); [discriminate|reflexivity].
Qed.

Lemma consistent_start (c : Closure) (w : World) :
  timersConsistent w -> timersConsistent (startProctoring c w).
Proof.
  intros Hw.
  destruct (isProctoringEnabled (props c) && cameraReady (captured c)
            && hasPermission (captured c)) eqn:G.
  - apply andb_prop in G as [G Hp]. apply andb_prop in G as [He Hc].
    destruct (startProctoring_timers c w He Hc Hp) as (Ht & Hn & Hr & _).
    destruct (consistent_stop w Hw) as ((Hnd & Hlt & Hrep & _) & Hnone & Hsame).
    assert (Hnext : nextTimerId (stopProctoring w) = nextTimerId w).
    { unfold stopProctoring. destruct (snapshotIntervalRef w); reflexivity. }
    rewrite Hnext in Hlt.
    unfold timersConsistent. rewrite Ht, Hn, Hr.
    split; [|split; [|split]].
    + rewrite fmap_app. apply NoDup_app. split; [exact Hnd|]. split.
      * intros i Hi Hin. apply list_elem_of_fmap in Hi as (t & -> & Hin').
        specialize (Hlt t Hin'). simpl in Hin.
        rewrite !elem_of_cons, elem_of_nil in Hin. lia.
      * simpl. apply NoDup_cons. split; [|apply NoDup_singleton].
        rewrite list_elem_of_singleton. lia.
    + intros t Hin. apply elem_of_app in Hin as [Hin|Hin].
      * specialize (Hlt t Hin). lia.
      * rewrite !elem_of_cons, elem_of_nil in Hin.
        destruct Hin as [->|[->|[]]]; simpl; lia.
    + intros t Hin E. apply elem_of_app in Hin as [Hin|Hin].
      * rewrite Hsame in Hin. apply list_elem_of_filter in Hin as [Hf _]. congruence.
      * rewrite !elem_of_cons, elem_of_nil in Hin.
        destruct Hin as [->|[->|[]]]; [discriminate E|reflexivity].
    + intros id Hid. inversion Hid; subst.
      exists {| timerId := S (nextTimerId w); repeating := true; callback := c |}.
      split; [|split; reflexivity].
      apply elem_of_app. right. right. left.
  - rewrite (startProctoring_skips c w G). exact Hw.
Qed.

Lemma consistent_startEffect (p : Props) (w : World) :
  timersConsistent w -> timersConsistent (startEffect p w).
Proof.
  intros Hw. unfold startEffect.
  destruct (consistent_stop w Hw) as (Hs & _).
  destruct (_ && _); [apply consistent_start, Hs|exact Hs].
Qed.

Lemma consistent_appStateEffect (p : Props) (w : World) :
  timersConsistent w -> timersConsistent (appStateEffect p w).
Proof.
  intros Hw. unfold appStateEffect.
  destruct (_ && _); [apply (consistent_stop w Hw)|].
  destruct (_ && _); [apply consistent_start, Hw|exact Hw].
Qed.

(** Running a segment of a cycle leaves the timer table alone. *)
Lemma drive_schedule (c : Closure) (m : M Next) (w : World) :
  (timers (fst (m w)) = timers w /\ nextTimerId (fst (m w)) = nextTimerId w
   /\ snapshotIntervalRef (fst (m w)) = snapshotIntervalRef w) ->
  timers (fst (drive c m w)) = timers w
  /\ nextTimerId (fst (drive c m w)) = nextTimerId w
  /\ snapshotIntervalRef (fst (drive c m w)) = snapshotIntervalRef w.
Proof.
  unfold drive. destruct (m w) as [w' [[v|pt]|e]]; simpl; intros H; exact H.
Qed.

Lemma takeAndUploadSnapshot_schedule (c : Closure) (w : World) :
  timers (fst (takeAndUploadSnapshot c w)) = timers w
  /\ nextTimerId (fst (takeAndUploadSnapshot c w)) = nextTimerId w
  /\ snapshotIntervalRef (fst (takeAndUploadSnapshot c w)) = snapshotIntervalRef w.
Proof.
  unfold takeAndUploadSnapshot.
  destruct (isTakingSnapshot (captured c)); [repeat split|].
  destruct (_ || _); [repeat split|].
  rewrite ProctoringFacts.enter_cases. destruct (_ && _); repeat split.
Qed.

Lemma photo_schedule (c : Closure) (o : PhotoOutcome) (iso : string) (w : World) :
  let w' := fst (tryCatchFinally (segmentPhoto c o iso) w) in
  timers w' = timers w /\ nextTimerId w' = nextTimerId w
  /\ snapshotIntervalRef w' = snapshotIntervalRef w.
Proof.
  intros w'. subst w'. rewrite ProctoringFacts.photo_cases.
  destruct (cycleFails _); repeat split.
Qed.

Lemma upload_schedule (c : Closure) (o : UploadOutcome) (t : string) (w : World) :
  let w' := fst (tryCatchFinally (segmentUpload c o t) w) in
  timers w' = timers w /\ nextTimerId w' = nextTimerId w
  /\ snapshotIntervalRef w' = snapshotIntervalRef w.
Proof.
  intros w'. subst w'. destruct o as [response|e].
  - rewrite ProctoringFacts.upload_resolved.
    destruct (default [] (violations (analysis response))) as [|v vs];
      [|destruct (getViolationDetails (type v))]; repeat split.
  - rewrite ProctoringFacts.upload_rejected. repeat split.
Qed.

(** Firing a one-shot timer removes it and no other timer. *)
Lemma consistent_fire_once (w : World) (tm : Timer) :
  timersConsistent w -> tm ∈ timers w -> repeating tm = false ->
  timersConsistent (clearTimer (timerId tm) w).
Proof.
  intros (Hnd & Hlt & Hrep & Href) Hin Hone. unfold timersConsistent. simpl.
  split; [apply NoDup_fmap_filter, Hnd|].
  split; [intros t Ht; apply list_elem_of_filter in Ht as [_ Ht]; apply Hlt, Ht|].
  split.
  - intros t Ht E. apply list_elem_of_filter in Ht as [_ Ht]. apply Hrep; assumption.
  - intros id Hid. destruct (Href id Hid) as (t & Ht & Hti & Htr).
    exists t. split; [|split; assumption].
    apply list_elem_of_filter. split; [|exact Ht].
    intros Heq. assert (t = tm) by (apply (same_id_same_timer (timers w)); assumption).
    congruence.
Qed.

Lemma step_consistent (p : Props) (w w' : World) (ev : Event) (r : Settled) :
  timersConsistent w -> step p w ev = Some (w', r) -> timersConsistent w'.
Proof.
  intros Hw Hstep.
  destruct ev as [granted| |next|id|n o iso|n o t| |]; simpl in Hstep.
  - destruct (isProctoringEnabled p); [|discriminate].
    destruct (Bool.eqb _ _); inversion Hstep; subst;
      [exact Hw|apply consistent_startEffect; exact Hw].
  - destruct (cameraReady (state w)); inversion Hstep; subst;
      [exact Hw|apply consistent_startEffect; exact Hw].
  - destruct (sameAppState _ _); inversion Hstep; subst;
      [exact Hw|apply consistent_appStateEffect; exact Hw].
  - destruct (find _ _) as [tm|] eqn:Hfind; [|discriminate].
    apply find_some in Hfind as [Hin Hid]. apply Nat.eqb_eq in Hid.
    apply list_elem_of_In in Hin.
    inversion Hstep as [Hd].
    assert (Hw1 : timersConsistent (if repeating tm then w else clearTimer id w)).
    { destruct (repeating tm) eqn:E; [exact Hw|].
      rewrite <- Hid. apply consistent_fire_once; assumption. }
    assert (Heq : w' = fst (drive (callback tm) (takeAndUploadSnapshot (callback tm))
                          (if repeating tm then w else clearTimer id w)))
      by (rewrite Hd; reflexivity).
    rewrite Heq.
    destruct (drive_schedule (callback tm) _ _
                (takeAndUploadSnapshot_schedule (callback tm)
                   (if repeating tm then w else clearTimer id w))) as (H1 & H2 & H3).
    exact (timersConsistent_ext _ _ H1 H2 H3 Hw1).
  - destruct (inflight w !! n) as [[c [|d]]|]; try discriminate.
    inversion Hstep as [Hd].
    assert (Heq : w' = fst (drive c (tryCatchFinally (segmentPhoto c o iso))
                          (removeInflight n w))) by (rewrite Hd; reflexivity).
    rewrite Heq.
    destruct (drive_schedule c _ _ (photo_schedule c o iso (removeInflight n w)))
      as (H1 & H2 & H3).
    exact (timersConsistent_ext _ _ H1 H2 H3 Hw).
  - destruct (inflight w !! n) as [[c [|d]]|]; try discriminate.
    inversion Hstep as [Hd].
    assert (Heq : w' = fst (drive c (tryCatchFinally (segmentUpload c o t))
                          (removeInflight n w))) by (rewrite Hd; reflexivity).
    rewrite Heq.
    destruct (drive_schedule c _ _ (upload_schedule c o t (removeInflight n w)))
      as (H1 & H2 & H3).
    exact (timersConsistent_ext _ _ H1 H2 H3 Hw).
  - inversion Hstep; subst. exact Hw.
  - inversion Hstep; subst. apply (consistent_stop w Hw).
Qed.


Lemma consistent_initial (a : AppStateStatus) : timersConsistent (initialWorld a).
Proof.
  unfold timersConsistent. simpl. split; [apply NoDup_nil; exact I|].
  split; [intros t Hin; apply elem_of_nil in Hin; contradiction|].
  split; [intros t Hin; apply elem_of_nil in Hin; contradiction|].
  intros id Hid. discriminate.
Qed.

Lemma run_consistent (p : Props) (evs : list Event) (w w' : World) :
  timersConsistent w -> run p w evs = Some w' -> timersConsistent w'.
Proof.
  intros Hw Hrun.
  apply (run_keeps p timersConsistent (fun _ => true)) with (evs := evs) (w := w).
  - intros x ev x' r Hx _ Hstep. exact (step_consistent p x x' ev r Hx Hstep).
  - exact Hw.
  - apply forallb_forall. reflexivity.
  - exact Hrun.
Qed.

(** X2. However the hook is armed, paused, resumed and re-armed, it never
    has two intervals: at most one repeating timer is pending, and one is
    pending exactly when [snapshotIntervalRef] is set. *)
Theorem interval_is_unique (p : Props) (a : AppStateStatus) (evs : list Event) (w : World) :
  run p (initialWorld a) evs = Some w ->
  (forall t1 t2, t1 ∈ timers w -> t2 ∈ timers w ->
                 repeating t1 = true -> repeating t2 = true -> t1 = t2)
  /\ (is_Some (snapshotIntervalRef w)
      <-> exists t, t ∈ timers w /\ repeating t = true).
Proof.
  intros Hrun.
  destruct (run_consistent p evs _ w (consistent_initial a) Hrun)
    as (Hnd & _ & Hrep & Href).
  split.
  - intros t1 t2 H1 H2 R1 R2.
    apply (same_id_same_timer (timers w)); try assumption.
    pose proof (Hrep t1 H1 R1) as E1. pose proof (Hrep t2 H2 R2) as E2. congruence.
  - split.
    + intros [id Hid]. destruct (Href id Hid) as (t & Hin & _ & Hr). eauto.
    + intros (t & Hin & Hr). rewrite (Hrep t Hin Hr). eauto.
Qed.

Lemma interval_is_unique_witness :
  exists w,
    run Samples.props7 (initialWorld active)
      (Samples.arming ++ [AppStateChanged background; AppStateChanged active;
                          PermissionAnswer false; PermissionAnswer true]) = Some w
    /\ exists t, t ∈ timers w /\ repeating t = true.
Proof.
  destruct (run Samples.props7 (initialWorld active)
              (Samples.arming ++ [AppStateChanged background; AppStateChanged active;
                                  PermissionAnswer false; PermissionAnswer true]))
    as [w|] eqn:E; [|vm_compute in E; discriminate E].
  exists w. split; [reflexivity|].
  apply (interval_is_unique Samples.props7 active _ w E).
  vm_compute in E. inversion E; subst. eexists. reflexivity.
Defined.

(** X3. Leaving the screen, or a change of the app to a state other than
    active, clears the interval and nothing else: the counters and the modal
    stay, and so do the pending one-shot timers and the cycles in flight. *)
Theorem stop_clears_only_the_interval (p : Props) (a : AppStateStatus)
    (evs : list Event) (w : World) (ev : Event) :
  run p (initialWorld a) evs = Some w ->
  (ev = Unmount
   \/ exists next, ev = AppStateChanged next /\ is_active next = false
                   /\ sameAppState (appState (state w)) next = false) ->
  exists w',
    step p w ev = Some (w', Idle)
    /\ timers w' = filter (fun t => repeating t = false) (timers w)
    /\ snapshotIntervalRef w' = None
    /\ inflight w' = inflight w
    /\ calls w' = calls w
    /\ snapshotCount (state w') = snapshotCount (state w)
    /\ violationCount (state w') = violationCount (state w)
    /\ violationModal (state w') = violationModal (state w).
Proof.
  intros Hrun Hev.
  pose proof (run_consistent p evs _ w (consistent_initial a) Hrun) as Hw.
  assert (Hfields : forall x, inflight (stopProctoring x) = inflight x
                              /\ calls (stopProctoring x) = calls x).
  { intros x. unfold stopProctoring. destruct (snapshotIntervalRef x); split; reflexivity. }
  destruct Hev as [-> | (next & -> & Hna & Hchg)].
  - exists (stopProctoring w). destruct (consistent_stop w Hw) as (_ & Hnone & Hsame).
    destruct (Hfields w) as [Hi Hc].
    rewrite ProctoringFacts.state_stopProctoring. repeat split; assumption.
  - set (w1 := onState (setAppState next) w).
    assert (Hw1 : timersConsistent w1) by exact Hw.
    assert (Heff : appStateEffect p w1 = stopProctoring w1).
    { unfold appStateEffect.
      change (appState (captured (closureOf p w1))) with next. rewrite Hna.
      change (snapshotIntervalRef w1) with (snapshotIntervalRef w).
      destruct (snapshotIntervalRef w) as [id|] eqn:Hr.
      - rewrite bool_decide_eq_true_2 by eauto. reflexivity.
      - rewrite bool_decide_eq_false_2 by (intros [x Hx]; discriminate Hx).
        simpl. unfold stopProctoring.
        change (snapshotIntervalRef w1) with (snapshotIntervalRef w).
        rewrite Hr. reflexivity. }
    exists (stopProctoring w1).
    change (step p w (AppStateChanged next))
      with (if sameAppState (appState (state w)) next then Some (w1, Idle)
            else Some (appStateEffect p w1, Idle)).
    rewrite Hchg, Heff.
    destruct (consistent_stop w1 Hw1) as (_ & Hnone & Hsame).
    destruct (Hfields w1) as [Hi Hc].
    rewrite ProctoringFacts.state_stopProctoring. repeat split; assumption.
Qed.

Lemma stop_clears_only_the_interval_witness :
  exists w w',
    run Samples.props7 (initialWorld active) Samples.arming = Some w
    /\ step Samples.props7 w Unmount = Some (w', Idle)
    /\ timerId <$> timers w = [1; 2]
    /\ timerId <$> timers w' = [1].
Proof.
  destruct (run Samples.props7 (initialWorld active) Samples.arming) as [w|] eqn:E;
    [|vm_compute in E; discriminate E].
  destruct (stop_clears_only_the_interval Samples.props7 active Samples.arming w Unmount E
              (or_introl eq_refl)) as (w' & Hstep & Ht & _).
  exists w, w'. split; [reflexivity|]. split; [exact Hstep|].
  rewrite Ht. vm_compute in E. inversion E; subst. split; vm_compute; reflexivity.
Defined.


(** ** Counting uploads *)

Lemma step_snapshotCount (p : Props) (w w' : World) (ev : Event) (r : Settled) :
  step p w ev = Some (w', r) ->
  snapshotCount (state w') = (snapshotCount (state w) + responses [ev])%Z.
Proof.
  destruct ev as [granted| |next|id|n o iso|n o t| |]; simpl; intros Hstep.
  - destruct (isProctoringEnabled p); [|discriminate].
    destruct (Bool.eqb _ _); inversion Hstep; subst;
      rewrite ?ProctoringFacts.state_startEffect; simpl; lia.
  - destruct (cameraReady (state w)); inversion Hstep; subst;
      rewrite ?ProctoringFacts.state_startEffect; simpl; lia.
  - destruct (sameAppState _ _); inversion Hstep; subst;
      rewrite ?ProctoringFacts.state_appStateEffect; simpl; lia.
  - destruct (find _ _) as [tm|]; [|discriminate].
    inversion Hstep as [Hd].
    assert (Hw : w' = fst (drive (callback tm) (takeAndUploadSnapshot (callback tm))
                         (if repeating tm then w else clearTimer id w)))
      by (rewrite Hd; reflexivity).
    rewrite Hw, ProctoringFacts.drive_state. unfold takeAndUploadSnapshot.
    destruct (isTakingSnapshot _); [destruct (repeating tm); simpl; lia|].
    destruct (_ || _); [destruct (repeating tm); simpl; lia|].
    rewrite ProctoringFacts.enter_cases.
    destruct (_ && _); destruct (repeating tm); simpl; lia.
  - destruct (inflight w !! n) as [[c [|d]]|]; try discriminate.
    inversion Hstep as [Hd].
    assert (Hw : w' = fst (drive c (tryCatchFinally (segmentPhoto c o iso))
                         (removeInflight n w))) by (rewrite Hd; reflexivity).
    rewrite Hw, ProctoringFacts.drive_state, ProctoringFacts.photo_cases.
    destruct (cycleFails _); simpl; lia.
  - destruct (inflight w !! n) as [[c [|d]]|]; try discriminate.
    inversion Hstep as [Hd].
    assert (Hw : w' = fst (drive c (tryCatchFinally (segmentUpload c o t))
                         (removeInflight n w))) by (rewrite Hd; reflexivity).
    rewrite Hw, ProctoringFacts.drive_state. destruct o as [response|e].
    + rewrite ProctoringFacts.upload_resolved.
      destruct (default [] (violations (analysis response))) as [|v vs];
        [|destruct (getViolationDetails (type v))]; simpl; lia.
    + rewrite ProctoringFacts.upload_rejected. simpl. lia.
  - inversion Hstep; subst. simpl. lia.
  - inversion Hstep; subst. rewrite ProctoringFacts.state_stopProctoring. lia.
Qed.

(** X4. [snapshotCount] counts the server responses received: along every run
    it grows by one for each delivered response, whatever the verdict in it
    (also when showing the violation then fails), and by nothing else. *)
Theorem snapshotCount_counts_responses (p : Props) (evs : list Event) (w w' : World) :
  run p w evs = Some w' ->
  snapshotCount (state w') = (snapshotCount (state w) + responses evs)%Z.
Proof.
  revert w. induction evs as [|ev evs IH]; intros w Hrun; simpl in Hrun.
  - inversion Hrun; subst. simpl. lia.
  - destruct (step p w ev) as [[w1 r]|] eqn:Hstep; [|discriminate].
    rewrite (IH w1 Hrun), (step_snapshotCount p w w1 ev r Hstep).
    destruct ev as [| | | | |n [response|e] t| |]; simpl; lia.
Qed.

Lemma snapshotCount_counts_responses_witness :
  exists w',
    run Samples.props7 (initialWorld active)
      (Samples.uploading
       ++ [UploadDone 0 (Resolved (Samples.response [{| type := "phone_detected" |}] 4 true))
             "10:00:05";
           Fire 2; PhotoDone 0 (PhotoBase64 "aGk=") "2026-01-01T10:00:10.000Z";
           UploadDone 0 (Rejected (ApiError "Network Error" None)) "10:00:10"]) = Some w'
    /\ snapshotCount (state w') = 1%Z.
Proof.
  pose proof (snapshotCount_counts_responses Samples.props7
    (Samples.uploading
       ++ [UploadDone 0 (Resolved (Samples.response [{| type := "phone_detected" |}] 4 true))
             "10:00:05";
           Fire 2; PhotoDone 0 (PhotoBase64 "aGk=") "2026-01-01T10:00:10.000Z";
           UploadDone 0 (Rejected (ApiError "Network Error" None)) "10:00:10"])
    (initialWorld active)) as H.
  destruct (run Samples.props7 (initialWorld active) _) as [w'|] eqn:E.
  - exists w'. split; [reflexivity|]. rewrite (H w' eq_refl). reflexivity.
  - vm_compute in E. discriminate E.
Defined.

(** ** What is uploaded *)

Lemma elem_of_removeInflight (n : nat) (w : World) (s : Suspended) :
  s ∈ inflight (removeInflight n w) -> s ∈ inflight w.
Proof.
  simpl. intros Hin. apply elem_of_app in Hin as [Hin|Hin].
  - rewrite <- (take_drop n (inflight w)). apply elem_of_app. left. exact Hin.
  - rewrite <- (take_drop (S n) (inflight w)). apply elem_of_app. right. exact Hin.
Qed.

Lemma owned_stop (p : Props) (w : World) : ownedBy p w -> ownedBy p (stopProctoring w).
Proof.
  intros (Ht & Hf & Hc). unfold stopProctoring.
  destruct (snapshotIntervalRef w); [|exact (conj Ht (conj Hf Hc))].
  split; [|split; assumption].
  simpl. intros t Hin. apply list_elem_of_filter in Hin as [_ Hin]. apply Ht, Hin.
Qed.

Lemma owned_start (p : Props) (c : Closure) (w : World) :
  props c = p -> ownedBy p w -> ownedBy p (startProctoring c w).
Proof.
  intros Hp Hw.
  destruct (isProctoringEnabled (props c) && cameraReady (captured c)
            && hasPermission (captured c)) eqn:G.
  - apply andb_prop in G as [G H3]. apply andb_prop in G as [H1 H2].
    destruct (startProctoring_timers c w H1 H2 H3) as (Ht & _ & _ & Hi & Hc).
    destruct (owned_stop p w Hw) as (Hts & _ & _). destruct Hw as (_ & Hf & Hcs).
    unfold ownedBy. rewrite Ht, Hi, Hc. split; [|split; assumption].
    intros t Hin. apply elem_of_app in Hin as [Hin|Hin]; [apply Hts, Hin|].
    rewrite !elem_of_cons, elem_of_nil in Hin. destruct Hin as [->|[->|[]]]; exact Hp.
  - rewrite (startProctoring_skips c w G). exact Hw.
Qed.

Lemma owned_ext (p : Props) (w w' : World) :
  timers w' = timers w -> inflight w' = inflight w -> calls w' = calls w ->
  ownedBy p w -> ownedBy p w'.
Proof. intros Ht Hi Hc. unfold ownedBy. rewrite Ht, Hi, Hc. intros H. exact H. Qed.

Lemma step_owned (p : Props) (w w' : World) (ev : Event) (r : Settled) :
  ownedBy p w -> step p w ev = Some (w', r) -> ownedBy p w'.
Proof.
  intros Hw Hstep.
  assert (Heff : forall x, ownedBy p x -> ownedBy p (startEffect p x)).
  { intros x Hx. unfold startEffect.
    destruct (_ && _); [apply owned_start; [reflexivity|]|]; apply owned_stop, Hx. }
  destruct ev as [granted| |next|id|n o iso|n o t| |]; simpl in Hstep.
  - destruct (isProctoringEnabled p); [|discriminate].
    destruct (Bool.eqb _ _); inversion Hstep; subst; [exact Hw|apply Heff; exact Hw].
  - destruct (cameraReady (state w)); inversion Hstep; subst;
      [exact Hw|apply Heff; exact Hw].
  - destruct (sameAppState _ _); inversion Hstep; subst; [exact Hw|].
    unfold appStateEffect.
    destruct (_ && _); [apply owned_stop; exact Hw|].
    destruct (_ && _); [apply owned_start; [reflexivity|exact Hw]|exact Hw].
  - destruct (find _ _) as [tm|] eqn:Hfind; [|discriminate].
    apply find_some in Hfind as [Hin _]. apply list_elem_of_In in Hin.
    pose proof Hw as (Ht & Hf & Hc).
    assert (Hw1 : ownedBy p (if repeating tm then w else clearTimer id w)).
    { destruct (repeating tm); [exact Hw|]. split; [|split; assumption].
      simpl. intros t Hi. apply list_elem_of_filter in Hi as [_ Hi]. apply Ht, Hi. }
    revert Hstep. generalize dependent (if repeating tm then w else clearTimer id w).
    intros x Hx Hstep. inversion Hstep as [Hd]. clear Hstep. revert Hd.
    unfold drive, takeAndUploadSnapshot.
    destruct (isTakingSnapshot _); [intros Hd; inversion Hd; subst; exact Hx|].
    destruct (_ || _); [intros Hd; inversion Hd; subst; exact Hx|].
    rewrite ProctoringFacts.enter_cases.
    destruct (_ && _); intros Hd; inversion Hd; subst; [|exact Hx].
    destruct Hx as (Hxt & Hxf & Hxc). split; [exact Hxt|]. split.
    + simpl. intros s Hs. apply elem_of_app in Hs as [Hs|Hs]; [apply Hxf, Hs|].
      apply list_elem_of_singleton in Hs as ->. simpl. apply Ht, Hin.
    + simpl. intros a d Hu. apply elem_of_app in Hu as [Hu|Hu]; [apply Hxc, Hu|].
      apply list_elem_of_singleton in Hu. discriminate Hu.
  - destruct (inflight w !! n) as [[c [|d]]|] eqn:Hn; try discriminate.
    pose proof Hw as (Ht & Hf & Hc).
    assert (Hcp : props c = p).
    { apply (Hf {| owner := c; point := AwaitPhoto |}).
      apply list_elem_of_lookup. eauto. }
    inversion Hstep as [Hd]. clear Hstep. revert Hd.
    unfold drive. rewrite ProctoringFacts.photo_cases. unfold cycleFails.
    destruct (captureResult o) as [img|] eqn:Himg; simpl.
    + destruct (String.eqb_spec img "") as [->|Hne]; intros Hd; inversion Hd; subst.
      * split; [exact Ht|]. split; [|exact Hc].
        intros s Hs. apply Hf. apply (elem_of_removeInflight n w s Hs).
      * split; [exact Ht|]. split.
        -- simpl. intros s Hs. apply elem_of_app in Hs as [Hs|Hs].
           ++ apply Hf. apply (elem_of_removeInflight n w s). exact Hs.
           ++ apply list_elem_of_singleton in Hs as ->. reflexivity.
        -- simpl. intros a d Hu. apply elem_of_app in Hu as [Hu|Hu]; [apply Hc, Hu|].
           apply list_elem_of_singleton in Hu. inversion Hu; subst. simpl.
           repeat split. exact Hne.
    + intros Hd; inversion Hd; subst.
      split; [exact Ht|]. split; [|exact Hc].
      intros s Hs. apply Hf. apply (elem_of_removeInflight n w s Hs).
  - destruct (inflight w !! n) as [[c [|d]]|] eqn:Hn; try discriminate.
    pose proof Hw as (Ht & Hf & Hc).
    assert (Hrem : ownedBy p (removeInflight n w)).
    { split; [exact Ht|]. split; [|exact Hc].
      intros s Hs. apply Hf. apply (elem_of_removeInflight n w s Hs). }
    inversion Hstep as [Hd]. clear Hstep. revert Hd. unfold drive.
    destruct o as [response|e].
    + rewrite ProctoringFacts.upload_resolved.
      destruct (default [] (violations (analysis response))) as [|v vs];
        [|destruct (getViolationDetails (type v))];
        intros Hd; inversion Hd; subst; exact Hrem.
    + rewrite ProctoringFacts.upload_rejected. intros Hd; inversion Hd; subst. exact Hrem.
  - inversion Hstep; subst. exact Hw.
  - inversion Hstep; subst. apply owned_stop, Hw.
Qed.

(** X5. Whatever happens, every upload the hook makes carries the attempt id
    it was called with, the device constants and a captured image that is not
    empty: nothing is ever uploaded for a capture that returned no image. *)
Theorem uploads_carry_attempt_and_image (p : Props) (a : AppStateStatus)
    (evs : list Event) (w : World) (attempt : Z) (data : SnapshotData) :
  run p (initialWorld a) evs = Some w ->
  Upload attempt data ∈ calls w ->
  attempt = attemptId p /\ image_data data <> "" /\ metadata data = device p.
Proof.
  intros Hrun Hin.
  assert (Hw : ownedBy p w).
  { apply (run_keeps p (ownedBy p) (fun _ => true)) with (evs := evs) (w := initialWorld a).
    - intros x ev x' r Hx _ Hstep. exact (step_owned p x x' ev r Hx Hstep).
    - split; [|split]; simpl.
      + intros t Hx. apply elem_of_nil in Hx. contradiction.
      + intros s Hx. apply elem_of_nil in Hx. contradiction.
      + intros x d Hx. apply elem_of_nil in Hx. contradiction.
    - apply forallb_forall. reflexivity.
    - exact Hrun. }
  destruct Hw as (_ & _ & Hc). apply Hc, Hin.
Qed.

Lemma uploads_carry_attempt_and_image_witness :
  exists w data,
    run Samples.props7 (initialWorld active) Samples.uploading = Some w
    /\ Upload 7 data ∈ calls w
    /\ image_data data <> "" /\ metadata data = Samples.device.
Proof.
  destruct (run Samples.props7 (initialWorld active) Samples.uploading) as [w|] eqn:E;
    [|vm_compute in E; discriminate E].
  pose proof (uploads_carry_attempt_and_image Samples.props7 active Samples.uploading w 7
                (prepareSnapshotData Samples.props7 "2026-01-01T10:00:05.000Z" "aGVsbG8=")
                E) as H.
  exists w, (prepareSnapshotData Samples.props7 "2026-01-01T10:00:05.000Z" "aGVsbG8=").
  split; [reflexivity|].
  assert (Hin : Upload 7 (prepareSnapshotData Samples.props7 "2026-01-01T10:00:05.000Z"
                            "aGVsbG8=") ∈ calls w).
  { vm_compute in E. inversion E; subst. right. left. }
  split; [exact Hin|]. destruct (H Hin) as (_ & H2 & H3). split; assumption.
Defined.


(** *** The busy flag *)

Lemma inflight_stopProctoring (w : World) : inflight (stopProctoring w) = inflight w.
Proof. unfold stopProctoring. destruct (snapshotIntervalRef w); reflexivity. Qed.

Lemma inflight_startProctoring (c : Closure) (w : World) :
  inflight (startProctoring c w) = inflight w.
Proof.
  unfold startProctoring.
  destruct (negb (isProctoringEnabled (props c))); [reflexivity|].
  destruct (negb (cameraReady (captured c)) || negb (hasPermission (captured c)));
    [reflexivity|].
  destruct (snapshotIntervalRef w); reflexivity.
Qed.

Lemma inflight_startEffect (p : Props) (w : World) :
  inflight (startEffect p w) = inflight w.
Proof.
  unfold startEffect.
  destruct (_ && _); rewrite ?inflight_startProctoring; apply inflight_stopProctoring.
Qed.

Lemma inflight_appStateEffect (p : Props) (w : World) :
  inflight (appStateEffect p w) = inflight w.
Proof.
  unfold appStateEffect.
  destruct (_ && _); [apply inflight_stopProctoring|].
  destruct (_ && _); [apply inflight_startProctoring|reflexivity].
Qed.

Lemma step_busy (p : Props) (w w' : World) (ev : Event) (r : Settled) :
  step p w ev = Some (w', r) ->
  (inflight w = [] -> isTakingSnapshot (state w) = false) ->
  inflight w' = [] -> isTakingSnapshot (state w') = false.
Proof.
  destruct ev as [granted| |next|id|n o iso|n o t| |]; simpl; intros Hstep Hq.
  - destruct (isProctoringEnabled p); [|discriminate].
    destruct (Bool.eqb _ _); inversion Hstep; subst;
      rewrite ?inflight_startEffect, ?ProctoringFacts.state_startEffect; exact Hq.
  - destruct (cameraReady (state w)); inversion Hstep; subst;
      rewrite ?inflight_startEffect, ?ProctoringFacts.state_startEffect; exact Hq.
  - destruct (sameAppState _ _); inversion Hstep; subst;
      rewrite ?inflight_appStateEffect, ?ProctoringFacts.state_appStateEffect; exact Hq.
  - destruct (find _ _) as [tm|]; [|discriminate].
    inversion Hstep as [Hd]. clear Hstep.
    assert (Hw1 : inflight (if repeating tm then w else clearTimer id w) = inflight w
                  /\ state (if repeating tm then w else clearTimer id w) = state w)
      by (destruct (repeating tm); split; reflexivity).
    destruct Hw1 as [Hi1 Hs1]. revert Hd.
    generalize dependent (if repeating tm then w else clearTimer id w). intros w1 Hi1 Hs1.
    unfold drive, takeAndUploadSnapshot.
    destruct (isTakingSnapshot (captured (callback tm)));
      [intros Hd; inversion Hd; subst; rewrite Hi1, Hs1; exact Hq|].
    destruct (_ || _); [intros Hd; inversion Hd; subst; rewrite Hi1, Hs1; exact Hq|].
    rewrite ProctoringFacts.enter_cases. destruct (_ && _); intros Hd; inversion Hd; subst.
    + simpl. intros Hnil. apply app_eq_nil in Hnil as [_ Hnil]. discriminate.
    + intros _. reflexivity.
  - destruct (inflight w !! n) as [[c [|d]]|]; try discriminate.
    inversion Hstep as [Hd]. clear Hstep. revert Hd. unfold drive.
    rewrite ProctoringFacts.photo_cases.
    destruct (cycleFails _); intros Hd; inversion Hd; subst.
    + intros _. reflexivity.
    + simpl. intros Hnil. apply app_eq_nil in Hnil as [_ Hnil]. discriminate.
  - destruct (inflight w !! n) as [[c [|d]]|]; try discriminate.
    inversion Hstep as [Hd]. clear Hstep. revert Hd. unfold drive.
    destruct o as [response|e].
    + rewrite ProctoringFacts.upload_resolved.
      destruct (default [] (violations (analysis response))) as [|v vs];
        [|destruct (getViolationDetails (type v))];
        intros Hd; inversion Hd; subst; intros _; reflexivity.
    + rewrite ProctoringFacts.upload_rejected.
      intros Hd; inversion Hd; subst. intros _. reflexivity.
  - inversion Hstep; subst. exact Hq.
  - inversion Hstep; subst.
    rewrite inflight_stopProctoring, ProctoringFacts.state_stopProctoring. exact Hq.
Qed.

(** X6. Along every run from mount, the busy flag is down whenever no
    cycle is in flight: a cycle that has ended, however it ended, never
    leaves [isTakingSnapshot] set behind it. *)
Theorem busy_flag_is_down_when_nothing_is_in_flight
    (p : Props) (a : AppStateStatus) (evs : list Event) (w : World) :
  run p (initialWorld a) evs = Some w ->
  inflight w = [] ->
  isTakingSnapshot (state w) = false.
Proof.
  intros Hrun.
  apply (run_keeps p (fun x => inflight x = [] -> isTakingSnapshot (state x) = false)
           (fun _ => true)) with (evs := evs) (w := initialWorld a).
  - intros x ev x' r Hx _ Hstep. exact (step_busy p x x' ev r Hstep Hx).
  - intros _. reflexivity.
  - apply forallb_forall. reflexivity.
  - exact Hrun.
Qed.

Lemma busy_flag_is_down_when_nothing_is_in_flight_witness :
  exists w,
    run Samples.props7 (initialWorld active)
      (Samples.uploading
       ++ [UploadDone 0 (Rejected (ApiError "Network Error" None)) "10:00:05"]) = Some w
    /\ isTakingSnapshot (state w) = false.
Proof.
  destruct (run Samples.props7 (initialWorld active)
              (Samples.uploading
               ++ [UploadDone 0 (Rejected (ApiError "Network Error" None)) "10:00:05"]))
    as [w|] eqn:E; [|vm_compute in E; discriminate E].
  exists w. split; [reflexivity|].
  apply (busy_flag_is_down_when_nothing_is_in_flight Samples.props7 active _ w E).
  vm_compute in E. inversion E; subst. reflexivity.
Defined.

End SchedulerFacts.

(** * The answer map and the final submission *)

Module AnswersFacts.
Import Js Exam Measures Sessions Answers.

(** How the answer map evolves: every step changes it only by adding time to
    a record or, for an edit, by writing the record of that edit under its
    question id. *)
Lemma step_userAnswers_cases (P : gmap Z UserAnswer -> Prop) (a : Z) (w : World)
    (ev : Event) (w' : World) :
  (forall m k d, P m -> P (alter (addTime d) k m)) ->
  (forall m q ans f now ts st, ev = Edit q ans f now -> P m ->
     P (<[q := {| questionId := q; answer := ans; isFlagged := f;
                  timeSpent := ts; startTime := st |}]> m)) ->
  step a w ev = Some w' -> P (userAnswers (state w)) -> P (userAnswers (state w')).
Proof.
  intros Halter Hinsert Hstep HP.
  assert (Hupd : forall k d x, P (userAnswers (state x)) ->
                               P (userAnswers (state (updateQuestionTime k d x)))).
  { intros k d x Hx. rewrite ExamFacts.updateQuestionTime_alter. apply Halter, Hx. }
  assert (Heff : forall now x, P (userAnswers (state x)) ->
                               P (userAnswers (state (questionEffect now x)))).
  { intros now x Hx. unfold questionEffect.
    assert (G : P (userAnswers (state
                  match questionCleanup x with
                  | Some (currentQuestion, questionStartTime) =>
                      updateQuestionTime (id currentQuestion)
                        (floor_seconds now questionStartTime) x
                  | None => x
                  end))).
    { destruct (questionCleanup x) as [[q s]|]; [apply Hupd, Hx|exact Hx]. }
    destruct (questions (state x) !! currentQuestionIndex (state x)); exact G. }
  assert (Hnav : forall c index now x, P (userAnswers (state x)) ->
                   P (userAnswers (state (navigateToQuestion c index now x)))).
  { intros c index now x Hx. unfold navigateToQuestion.
    assert (G : P (userAnswers (state
                  match questions (captured c) !! currentQuestionIndex (captured c) with
                  | Some currentQuestion =>
                      updateQuestionTime (id currentQuestion)
                        (floor_seconds now (questionStartTime (captured c))) x
                  | None => x
                  end))).
    { destruct (questions (captured c) !! currentQuestionIndex (captured c));
        [apply Hupd, Hx|exact Hx]. }
    destruct (questions (captured c) !! index) as [tq|];
      [destruct (bool_decide _)|]; exact G. }
  assert (Hsub : forall c now x, P (userAnswers (state x)) ->
                   P (userAnswers (state (submitExam c now x)))).
  { intros c now x Hx. unfold submitExam.
    destruct (questions (captured c) !! currentQuestionIndex (captured c)); [|exact Hx].
    apply (Hupd _ _ (onState (setSubmitting true) x)). exact Hx. }
  destruct ev as [att|sorted fs now|q ans f now|index now|now|now|now|n ok at_|n ok];
    simpl in Hstep.
  - inversion Hstep; subst. unfold countdownEffect. simpl.
    destruct (time_remaining att =? 0)%Z; exact HP.
  - destruct (SessionFacts.elapse_frame now w) as (E1 & _).
    inversion Hstep; subst. apply Heff. destruct fs; simpl; rewrite E1; exact HP.
  - destruct (SessionFacts.elapse_frame now w) as (E1 & _).
    inversion Hstep; subst. unfold autoSaveAnswer. simpl. rewrite E1.
    apply (Hinsert _ q ans f now); [reflexivity|exact HP].
  - destruct (SessionFacts.elapse_frame now w) as (E1 & _).
    assert (N : P (userAnswers (state (navigateToQuestion (closureOf a (elapse now w))
                                         index now (elapse now w)))))
      by (apply Hnav; rewrite E1; exact HP).
    destruct (Nat.eqb index _); inversion Hstep; subst; [exact N|apply Heff, N].
  - inversion Hstep; subst. destruct (SessionFacts.elapse_frame now w) as (E1 & _).
    rewrite E1. exact HP.
  - destruct (SessionFacts.elapse_frame now w) as (E1 & _).
    inversion Hstep; subst. unfold countdownTick.
    destruct (countdown (elapse now w)) as [c|]; [|rewrite E1; exact HP].
    destruct (timeRemaining (state (elapse now w)) <=? 0)%Z; [|simpl; rewrite E1; exact HP].
    unfold handleAutoSubmit.
    apply (Hsub c now (alert "Time's Up!" (withCountdown None (elapse now w)))).
    simpl. rewrite E1. exact HP.
  - destruct (SessionFacts.elapse_frame now w) as (E1 & _).
    inversion Hstep; subst. apply Hsub. rewrite E1. exact HP.
  - destruct (inflight w !! n) as [[|]|]; try discriminate.
    inversion Hstep; subst. unfold saveSettled. destruct ok; exact HP.
  - destruct (inflight w !! n) as [[|]|]; try discriminate.
    inversion Hstep; subst. exact HP.
Qed.

Lemma step_userAnswers_ind (P : gmap Z UserAnswer -> Prop) :
  (forall m k d, P m -> P (alter (addTime d) k m)) ->
  (forall m q a f ts st, P m ->
     P (<[q := {| questionId := q; answer := a; isFlagged := f;
                  timeSpent := ts; startTime := st |}]> m)) ->
  forall a w ev w',
    step a w ev = Some w' -> P (userAnswers (state w)) -> P (userAnswers (state w')).
Proof.
  intros Halter Hinsert a w ev w'.
  apply (step_userAnswers_cases P a w ev w' Halter).
  intros m q ans f now ts st _. apply Hinsert.
Qed.

Lemma keyed_alter (m : gmap Z UserAnswer) (k d : Z) :
  keyed m -> keyed (alter (addTime d) k m).
Proof.
  intros Hm i e. destruct (decide (i = k)) as [->|Hne].
  - rewrite lookup_alter_eq. destruct (m !! k) as [e0|] eqn:E; [|discriminate].
    simpl. intros He. inversion He; subst. simpl. apply (Hm k e0 E).
  - rewrite lookup_alter_ne by congruence. apply Hm.
Qed.

Lemma keyed_insert (m : gmap Z UserAnswer) (q : Z) (e : UserAnswer) :
  questionId e = q -> keyed m -> keyed (<[q := e]> m).
Proof.
  intros He Hm i x. destruct (decide (i = q)) as [->|Hne].
  - rewrite lookup_insert_eq. intros Hx. inversion Hx; subst. reflexivity.
  - rewrite lookup_insert_ne by congruence. apply Hm.
Qed.

Lemma run_keyed (a : Z) (evs : list Event) (w0 w : World) :
  keyed (userAnswers (state w0)) ->
  run a w0 evs = Some w -> keyed (userAnswers (state w)).
Proof.
  revert w0. induction evs as [|ev evs IH]; intros w0 H0 Hrun; simpl in Hrun.
  - inversion Hrun; subst. exact H0.
  - destruct (step a w0 ev) as [w1|] eqn:Hstep; [|discriminate].
    apply (IH w1); [|exact Hrun].
    apply (step_userAnswers_ind keyed) with (a := a) (w := w0) (ev := ev);
      [ intros m k d; apply keyed_alter
      | intros m q x f ts st; apply keyed_insert; reflexivity
      | exact Hstep | exact H0 ].
Qed.

Lemma keyed_initial (a : Z) (mounted : Z) (evs : list Event) (w : World) :
  run a (initialWorld mounted) evs = Some w -> keyed (userAnswers (state w)).
Proof.
  apply run_keyed. intros k e He. simpl in He. rewrite lookup_empty in He. discriminate.
Qed.

(** X7. Along every session from mount, each answer record is stored under
    the id it carries in its [questionId] field: no edit, navigation, timer
    or submission ever files a record under another question. *)
Theorem records_are_keyed_by_question (a mounted : Z) (evs : list Event) (w : World) :
  run a (initialWorld mounted) evs = Some w ->
  keyed (userAnswers (state w)).
Proof. apply keyed_initial. Qed.

Lemma records_are_keyed_by_question_witness :
  exists w,
    run 7 (initialWorld 0) (revisit ++ [Navigate 1 25000; Edit 102 "C" true 26000])
    = Some w
    /\ (questionId <$> userAnswers (state w) !! 102%Z) = Some 102%Z.
Proof.
  destruct (run 7 (initialWorld 0) (revisit ++ [Navigate 1 25000; Edit 102 "C" true 26000]))
    as [w|] eqn:E; [|vm_compute in E; discriminate E].
  exists w. split; [reflexivity|].
  pose proof (records_are_keyed_by_question 7 0 _ w E) as Hk.
  destruct (userAnswers (state w) !! 102%Z) as [e|] eqn:L.
  - simpl. rewrite (Hk 102%Z e L). reflexivity.
  - exfalso. vm_compute in E. inversion E; subst. vm_compute in L. discriminate L.
Defined.


(** The loop of [submitExam] over [Object.values(userAnswers)], for records
    with distinct keys that carry their key. *)
Lemma foldl_payload (l : list (Z * UserAnswer)) (acc : gmap string AnswerWithTime) :
  NoDup l.*1 ->
  (forall k e, (k, e) ∈ l -> questionId e = k) ->
  foldl (fun acc userAnswer =>
           <[pretty (questionId userAnswer) := toAnswerWithTime userAnswer]> acc)
    acc (map snd l)
  = list_to_map ((fun ke => (pretty (fst ke), toAnswerWithTime (snd ke))) <$> l) ∪ acc.
Proof.
  revert acc. induction l as [|[k e] l IH]; intros acc Hnd Hk.
  - simpl. rewrite (left_id ∅ (∪)). reflexivity.
  - simpl. inversion Hnd as [|? ? Hnotin Hnd']; subst.
    rewrite IH; [|exact Hnd'|intros k' e' Hin; apply Hk; right; exact Hin].
    rewrite (Hk k e) by left.
    rewrite <- insert_union_l. symmetry. apply insert_union_r.
    apply not_elem_of_list_to_map_1.
    rewrite <- list_fmap_compose. intros Hin.
    apply list_elem_of_fmap in Hin as ([k' e'] & Heq & Hin). simpl in Heq.
    apply (inj pretty) in Heq. subst k'.
    apply Hnotin. apply list_elem_of_fmap. exists (k, e'). split; [reflexivity|exact Hin].
Qed.

Lemma answersForSubmit_keyed (m : gmap Z UserAnswer) :
  keyed m -> answersForSubmit m = kmap pretty (toAnswerWithTime <$> m).
Proof.
  intros Hk. unfold answersForSubmit. rewrite foldl_payload.
  - rewrite (right_id ∅ (∪)). apply map_eq. intros s. apply option_eq. intros x.
    rewrite <- elem_of_list_to_map.
    + rewrite list_elem_of_fmap, lookup_kmap_Some by apply _. split.
      * intros ([k e] & Heq & Hin). simpl in Heq. inversion Heq; subst.
        exists k. split; [reflexivity|].
        rewrite lookup_fmap. apply elem_of_map_to_list in Hin. rewrite Hin. reflexivity.
      * intros (k & -> & Hl). rewrite lookup_fmap in Hl.
        destruct (m !! k) as [e|] eqn:E; [|discriminate]. simpl in Hl.
        inversion Hl; subst. exists (k, e). split; [reflexivity|].
        apply elem_of_map_to_list, E.
    + rewrite <- list_fmap_compose.
      apply (NoDup_fmap_2_strong (fun ke : Z * UserAnswer => pretty (fst ke))).
      * intros [k e] [k' e'] Hin Hin' Hp. simpl in Hp. apply (inj pretty) in Hp. subst k'.
        apply elem_of_map_to_list in Hin, Hin'. congruence.
      * apply NoDup_map_to_list.
  - apply NoDup_fst_map_to_list.
  - intros k e Hin. apply elem_of_map_to_list in Hin. apply (Hk k e Hin).
Qed.

(** X8. The payload of the final submission holds exactly one entry per
    recorded question, under the decimal string of its id, with the answer,
    the flag and the time of that record. *)
Theorem payload_has_one_entry_per_record (m : gmap Z UserAnswer) :
  keyed m ->
  answersForSubmit m = kmap pretty (toAnswerWithTime <$> m)
  /\ (forall q, answersForSubmit m !! pretty q = toAnswerWithTime <$> m !! q)
  /\ (forall s, is_Some (answersForSubmit m !! s) ->
                exists q, s = pretty q /\ is_Some (m !! q)).
Proof.
  intros Hk. pose proof (answersForSubmit_keyed m Hk) as Heq.
  split; [exact Heq|]. rewrite Heq. split.
  - intros q. rewrite (lookup_kmap pretty), lookup_fmap. reflexivity.
  - intros s [x Hx]. apply lookup_kmap_Some in Hx as (q & -> & Hl); [|apply _].
    exists q. split; [reflexivity|]. rewrite lookup_fmap in Hl.
    destruct (m !! q); [eauto|discriminate].
Qed.

Lemma payload_has_one_entry_per_record_witness :
  answersForSubmit (<[102%Z := {| questionId := 102; answer := "B"; isFlagged := true;
                                  timeSpent := 12; startTime := 0 |}]> ∅) !! "102"
  = Some {| question_id := 102; answer_text := "B"; is_flagged := true; time_spent := 12 |}.
Proof.
  pose (m := <[102%Z := {| questionId := 102; answer := "B"; isFlagged := true;
                           timeSpent := 12; startTime := 0 |}]> (∅ : gmap Z UserAnswer)).
  assert (Hk : keyed m).
  { intros k e. unfold m. destruct (decide (k = 102%Z)) as [->|Hne].
    - rewrite lookup_insert_eq. intros He. inversion He; subst. reflexivity.
    - rewrite lookup_insert_ne by congruence. rewrite lookup_empty. discriminate. }
  destruct (payload_has_one_entry_per_record m Hk) as (_ & Hq & _).
  change "102" with (pretty 102%Z). fold m. rewrite Hq. reflexivity.
Defined.

(** X9. A press of the confirm button sends the records of the render it
    was pressed in, one entry per record. The seconds of the visit that the
    press ends are added to the current question's record, but not to the
    entry that is sent for it. *)
Theorem confirm_press_sends_the_rendered_records
    (a mounted : Z) (evs : list Event) (w : World) (now : Z) :
  run a (initialWorld mounted) evs = Some w ->
  exists w' before,
    step a w (TapSubmit now) = Some w'
    /\ calls w'
       = before ++ [SubmitExam
                      {| attempt_id := a;
                         answers := kmap pretty (toAnswerWithTime <$> userAnswers (state w)) |}]
    /\ forall q e,
         questions (state w) !! currentQuestionIndex (state w) = Some q ->
         userAnswers (state w) !! id q = Some e ->
         userAnswers (state w') !! id q
         = Some (addTime (floor_seconds now (questionStartTime (state w))) e)
         /\ (kmap pretty (toAnswerWithTime <$> userAnswers (state w))
               : gmap string AnswerWithTime) !! pretty (id q)
            = Some (toAnswerWithTime e).
Proof.
  intros Hrun. pose proof (keyed_initial a mounted evs w Hrun) as Hk.
  destruct (SessionFacts.elapse_frame now w) as (E1 & _).
  exists (submitExam (closureOf a (elapse now w)) now (elapse now w)), (calls (elapse now w)).
  split; [reflexivity|]. split.
  - destruct (ExamFacts.submitExam_sends (closureOf a (elapse now w)) now (elapse now w))
      as [H _].
    rewrite H. unfold closureOf. cbn [attemptId captured]. rewrite E1.
    rewrite (answersForSubmit_keyed _ Hk). reflexivity.
  - intros q e Hq He. split.
    + unfold submitExam, closureOf. cbn [attemptId captured]. rewrite E1, Hq.
      change (userAnswers (state (updateQuestionTime (id q)
                (floor_seconds now (questionStartTime (state w)))
                (onState (setSubmitting true) (elapse now w)))) !! id q
              = Some (addTime (floor_seconds now (questionStartTime (state w))) e)).
      rewrite ExamFacts.updateQuestionTime_alter. cbn [state onState userAnswers setSubmitting].
      rewrite E1, lookup_alter_eq, He. reflexivity.
    + rewrite (lookup_kmap pretty), lookup_fmap, He. reflexivity.
Qed.

Lemma confirm_press_sends_the_rendered_records_witness :
  exists w w',
    run 7 (initialWorld 0)
      [QuestionsLoaded [Samples.q1; Samples.q2] (Some "Physics") 0;
       Edit 101 "A" false 4000] = Some w
    /\ step 7 w (TapSubmit 9000) = Some w'
    /\ (timeSpent <$> userAnswers (state w') !! 101%Z) = Some 9%Z
    /\ exists before payload,
         calls w' = before ++ [SubmitExam payload]
         /\ (time_spent <$> answers payload !! "101") = Some 4%Z.
Proof.
  destruct (run 7 (initialWorld 0)
              [QuestionsLoaded [Samples.q1; Samples.q2] (Some "Physics") 0;
               Edit 101 "A" false 4000]) as [w|] eqn:E; [|vm_compute in E; discriminate E].
  destruct (confirm_press_sends_the_rendered_records 7 0 _ w 9000 E)
    as (w' & before & Hs & Hc & Hq).
  exists w, w'. split; [reflexivity|]. split; [exact Hs|].
  assert (Hw : questions (state w) !! currentQuestionIndex (state w) = Some Samples.q1
               /\ questionStartTime (state w) = 4000%Z
               /\ userAnswers (state w) !! 101%Z
                  = Some {| questionId := 101; answer := "A"; isFlagged := false;
                            timeSpent := 4; startTime := 0 |}).
  { vm_compute in E. inversion E; subst. repeat split. }
  destruct Hw as (H1 & H2 & H3).
  destruct (Hq Samples.q1 _ H1 H3) as [Ha Hb].
  split.
  - change (id Samples.q1) with 101%Z in Ha. rewrite Ha, H2. reflexivity.
  - eexists before, _. split; [exact Hc|].
    change (pretty (id Samples.q1)) with "101" in Hb. cbn [answers]. rewrite Hb.
    reflexivity.
Defined.

(** *** The countdown *)

Lemma calls_foldl_fireTimeout (l : list Timeout) (w : World) :
  List.filter isSubmitExam (calls (foldl fireTimeout w l))
  = List.filter isSubmitExam (calls w).
Proof.
  revert w. induction l as [|t l IH]; intros w; [reflexivity|].
  simpl. rewrite IH. unfold fireTimeout, request. simpl.
  rewrite List.filter_app. simpl. apply app_nil_r.
Qed.

Lemma submissions_elapse (now : Z) (w : World) :
  submissions (elapse now w) = submissions w.
Proof.
  unfold submissions, elapse. rewrite calls_foldl_fireTimeout. reflexivity.
Qed.

Lemma submissions_submitExam (c : Closure) (now : Z) (w : World) :
  submissions (submitExam c now w) = S (submissions w).
Proof.
  unfold submissions.
  destruct (ExamFacts.submitExam_sends c now w) as [H _]. rewrite H.
  rewrite List.filter_app, length_app. simpl. lia.
Qed.

(** A tick that finds time left only counts down. *)
Lemma tick_counts_down (a : Z) (c : Closure) (now : Z) (w : World) :
  countdown w = Some c ->
  (0 < timeRemaining (state w))%Z ->
  exists w', step a w (CountdownTick now) = Some w'
    /\ countdown w' = Some c
    /\ timeRemaining (state w') = (timeRemaining (state w) - 1)%Z
    /\ submissions w' = submissions w.
Proof.
  intros Hc Hpos. destruct (SessionFacts.elapse_frame now w) as (E1 & _ & E3).
  exists (countdownTick now (elapse now w)). split; [reflexivity|].
  unfold countdownTick. rewrite E3, Hc, E1.
  replace (timeRemaining (state w) <=? 0)%Z with false by (symmetry; apply Z.leb_gt, Hpos).
  split; [|split].
  - change (countdown (elapse now w) = Some c). rewrite E3. exact Hc.
  - reflexivity.
  - change (submissions (elapse now w) = submissions w). apply submissions_elapse.
Qed.

(** The tick that finds none submits and stops the interval. *)
Lemma tick_submits (a : Z) (c : Closure) (now : Z) (w : World) :
  countdown w = Some c ->
  (timeRemaining (state w) <= 0)%Z ->
  exists w', step a w (CountdownTick now) = Some w'
    /\ countdown w' = None
    /\ timeRemaining (state w') = 0%Z
    /\ submissions w' = S (submissions w).
Proof.
  intros Hc Hz. destruct (SessionFacts.elapse_frame now w) as (E1 & _ & E3).
  exists (countdownTick now (elapse now w)). split; [reflexivity|].
  unfold countdownTick. rewrite E3, Hc, E1.
  replace (timeRemaining (state w) <=? 0)%Z with true by (symmetry; apply Z.leb_le, Hz).
  unfold handleAutoSubmit.
  split; [|split].
  - unfold submitExam. destruct (questions (captured c) !! currentQuestionIndex (captured c));
      reflexivity.
  - reflexivity.
  - change (submissions (submitExam c now
                           (alert "Time's Up!" (withCountdown None (elapse now w))))
            = S (submissions w)).
    rewrite submissions_submitExam. f_equal. apply submissions_elapse.
Qed.

(** Without an interval the ticks change neither the counter nor the
    submissions. *)
Lemma ticks_without_countdown (a : Z) (ts : list Z) (w w' : World) :
  countdown w = None ->
  run a w (ticks ts) = Some w' ->
  countdown w' = None
  /\ timeRemaining (state w') = timeRemaining (state w)
  /\ submissions w' = submissions w.
Proof.
  revert w. induction ts as [|t ts IH]; intros w Hc Hrun; simpl in Hrun.
  - inversion Hrun; subst. repeat split. exact Hc.
  - destruct (SessionFacts.elapse_frame t w) as (E1 & _ & E3).
    assert (Ht : countdownTick t (elapse t w) = elapse t w)
      by (unfold countdownTick; rewrite E3, Hc; reflexivity).
    rewrite Ht in Hrun.
    destruct (IH (elapse t w)) as (H1 & H2 & H3); [congruence|exact Hrun|].
    rewrite H2, H3, E1, submissions_elapse. repeat split. exact H1.
Qed.

Lemma ticks_with_countdown (a : Z) (c : Closure) (ts : list Z) (w w' : World) :
  countdown w = Some c ->
  (0 <= timeRemaining (state w))%Z ->
  run a w (ticks ts) = Some w' ->
  timeRemaining (state w') = Z.max 0 (timeRemaining (state w) - Z.of_nat (length ts))
  /\ submissions w'
     = (submissions w
        + if (timeRemaining (state w) <? Z.of_nat (length ts))%Z then 1 else 0)%nat.
Proof.
  revert w. induction ts as [|t ts IH]; intros w Hc Hpos Hrun.
  - simpl in Hrun. inversion Hrun; subst. simpl length.
    change (Z.of_nat 0) with 0%Z.
    replace (timeRemaining (state w') <? 0)%Z with false by (symmetry; apply Z.ltb_ge, Hpos).
    split; lia.
  - change (run a w (ticks (t :: ts)))
      with (match step a w (CountdownTick t) with
            | Some w1 => run a w1 (ticks ts)
            | None => None
            end) in Hrun.
    destruct (decide (0 < timeRemaining (state w))%Z) as [Hlt|Hge].
    + destruct (tick_counts_down a c t w Hc Hlt) as (w1 & Hs & Hc1 & Ht1 & Hn1).
      rewrite Hs in Hrun.
      destruct (IH w1 Hc1 ltac:(lia) Hrun) as (H1 & H2).
      rewrite H1, H2, Ht1, Hn1. simpl length. split; [lia|].
      destruct (Z.ltb_spec (timeRemaining (state w) - 1) (Z.of_nat (length ts)));
        destruct (Z.ltb_spec (timeRemaining (state w)) (Z.of_nat (S (length ts)))); lia.
    + destruct (tick_submits a c t w Hc ltac:(lia)) as (w1 & Hs & Hc1 & Ht1 & Hn1).
      rewrite Hs in Hrun.
      destruct (ticks_without_countdown a ts w1 w' Hc1 Hrun) as (_ & H2 & H3).
      rewrite H2, H3, Ht1, Hn1. simpl length. split; [lia|].
      destruct (Z.ltb_spec (timeRemaining (state w)) (Z.of_nat (S (length ts)))); lia.
Qed.

(** X10. An attempt that arrives with [T > 0] seconds is submitted by the
    countdown exactly once, on tick [T + 1]: the display reaches zero after
    [T] ticks and the next tick submits. An attempt that arrives with no
    time left starts no countdown and is never submitted by it. *)
Theorem countdown_submits_on_the_tick_after_zero
    (a : Z) (att : ExamAttempt) (ts : list Z) (w w' : World) :
  (0 <= time_remaining att)%Z ->
  run a w (AttemptLoaded att :: ticks ts) = Some w' ->
  submissions w'
  = (submissions w
     + if ((0 <? time_remaining att) && (time_remaining att <? Z.of_nat (length ts)))%Z
       then 1 else 0)%nat
  /\ ((0 < time_remaining att)%Z ->
      timeRemaining (state w')
      = Z.max 0 (time_remaining att - Z.of_nat (length ts))).
Proof.
  intros Hpos Hrun.
  change (run a w (AttemptLoaded att :: ticks ts))
    with (run a (countdownEffect a (onState (setAttempt (Some att)) w)) (ticks ts)) in Hrun.
  unfold countdownEffect in Hrun. simpl attempt in Hrun. cbv beta iota in Hrun.
  destruct (Z.eqb_spec (time_remaining att) 0) as [Hz|Hnz].
  - apply ticks_without_countdown in Hrun as (_ & _ & H3); [|reflexivity].
    rewrite Hz. simpl. split; [rewrite H3; unfold submissions; simpl; lia|lia].
  - apply (ticks_with_countdown a (closureOf a (onState (setAttempt (Some att)) w)))
      in Hrun as (H1 & H2); [|reflexivity|simpl; lia].
    simpl in H1, H2.
    replace (0 <? time_remaining att)%Z with true by (symmetry; apply Z.ltb_lt; lia).
    simpl. split; [rewrite H2; unfold submissions; simpl; lia|intros _; exact H1].
Qed.

Lemma countdown_submits_on_the_tick_after_zero_witness :
  exists w2 w3,
    run 7 (initialWorld 0)
      (AttemptLoaded {| proctoring_enabled := true; time_remaining := 2 |}
       :: ticks [1000; 2000]%Z) = Some w2
    /\ submissions w2 = 0%nat /\ timeRemaining (state w2) = 0%Z
    /\ run 7 (initialWorld 0)
         (AttemptLoaded {| proctoring_enabled := true; time_remaining := 2 |}
          :: ticks [1000; 2000; 3000; 4000]%Z) = Some w3
    /\ submissions w3 = 1%nat.
Proof.
  destruct (run 7 (initialWorld 0)
              (AttemptLoaded {| proctoring_enabled := true; time_remaining := 2 |}
               :: ticks [1000; 2000]%Z)) as [w2|] eqn:E2; [|vm_compute in E2; discriminate E2].
  destruct (run 7 (initialWorld 0)
              (AttemptLoaded {| proctoring_enabled := true; time_remaining := 2 |}
               :: ticks [1000; 2000; 3000; 4000]%Z)) as [w3|] eqn:E3;
    [|vm_compute in E3; discriminate E3].
  exists w2, w3.
  assert (Hpos : (0 <= time_remaining {| proctoring_enabled := true; time_remaining := 2 |})%Z)
    by (simpl; lia).
  destruct (countdown_submits_on_the_tick_after_zero 7 _ _ _ _ Hpos E2) as (A2 & B2).
  destruct (countdown_submits_on_the_tick_after_zero 7 _ _ _ _ Hpos E3) as (A3 & _).
  repeat split; [exact A2|apply B2; simpl; lia|exact A3].
Defined.

End AnswersFacts.

(** * The violation modal under the hook *)

Module ModalFacts.
Import Js Proctoring Measures Modal.

(** How the hook's modal state evolves: a step keeps it, hides it, or shows
    the details of a handled type with [isDisqualified] false. *)
Lemma step_violationModal_ind (P : ViolationModalState -> Prop) :
  (forall m, P m -> P (hide m)) ->
  (forall t det n, getViolationDetails t = Some det ->
     P {| visible := true; violationType := t; violationTitle := title det;
          violationMessage := message det; totalViolations := n;
          isDisqualified := false |}) ->
  forall p w ev w' r,
    step p w ev = Some (w', r) ->
    P (violationModal (state w)) -> P (violationModal (state w')).
Proof.
  intros Hhide Hshow p w ev w' r.
  destruct ev as [granted| |next|id|n o iso|n o t| |]; simpl; intros Hstep HP.
  - destruct (isProctoringEnabled p); [|discriminate].
    destruct (Bool.eqb _ _); inversion Hstep; subst;
      rewrite ?ProctoringFacts.state_startEffect; exact HP.
  - destruct (cameraReady (state w)); inversion Hstep; subst;
      rewrite ?ProctoringFacts.state_startEffect; exact HP.
  - destruct (sameAppState _ _); inversion Hstep; subst;
      rewrite ?ProctoringFacts.state_appStateEffect; exact HP.
  - destruct (find _ _) as [tm|]; [|discriminate].
    inversion Hstep as [Hd].
    assert (Hw : w' = fst (drive (callback tm) (takeAndUploadSnapshot (callback tm))
                         (if repeating tm then w else clearTimer id w)))
      by (rewrite Hd; reflexivity).
    rewrite Hw, ProctoringFacts.drive_state. unfold takeAndUploadSnapshot.
    destruct (isTakingSnapshot _); [destruct (repeating tm); exact HP|].
    destruct (_ || _); [destruct (repeating tm); exact HP|].
    rewrite ProctoringFacts.enter_cases.
    destruct (_ && _); destruct (repeating tm); exact HP.
  - destruct (inflight w !! n) as [[c [|d]]|]; try discriminate.
    inversion Hstep as [Hd].
    assert (Hw : w' = fst (drive c (tryCatchFinally (segmentPhoto c o iso))
                         (removeInflight n w))) by (rewrite Hd; reflexivity).
    rewrite Hw, ProctoringFacts.drive_state, ProctoringFacts.photo_cases.
    destruct (cycleFails _); exact HP.
  - destruct (inflight w !! n) as [[c [|d]]|]; try discriminate.
    inversion Hstep as [Hd].
    assert (Hw : w' = fst (drive c (tryCatchFinally (segmentUpload c o t))
                         (removeInflight n w))) by (rewrite Hd; reflexivity).
    rewrite Hw, ProctoringFacts.drive_state. destruct o as [response|e]; [|exact HP].
    rewrite ProctoringFacts.upload_resolved.
    destruct (default [] (violations (analysis response))) as [|v vs]; [exact HP|].
    destruct (getViolationDetails (type v)) as [det|] eqn:E; [|exact HP].
    apply (Hshow (type v) det (violation_count response) E).
  - inversion Hstep; subst. apply Hhide, HP.
  - inversion Hstep; subst. rewrite ProctoringFacts.state_stopProctoring. exact HP.
Qed.

Lemma run_violationModal_ind (P : ViolationModalState -> Prop) :
  (forall m, P m -> P (hide m)) ->
  (forall t det n, getViolationDetails t = Some det ->
     P {| visible := true; violationType := t; violationTitle := title det;
          violationMessage := message det; totalViolations := n;
          isDisqualified := false |}) ->
  forall p evs w w',
    run p w evs = Some w' ->
    P (violationModal (state w)) -> P (violationModal (state w')).
Proof.
  intros Hhide Hshow p evs. induction evs as [|ev evs IH]; intros w w' Hrun HP.
  - simpl in Hrun. inversion Hrun; subst. exact HP.
  - simpl in Hrun. destruct (step p w ev) as [[w1 r]|] eqn:Hstep; [|discriminate].
    apply (IH w1 w' Hrun).
    exact (step_violationModal_ind P Hhide Hshow p w ev w1 r Hstep HP).
Qed.

Lemma icon_of_handled (t : string) (det : Details) :
  getViolationDetails t = Some det ->
  getViolationIcon false t <> "⚠️" /\ getViolationIcon false t <> "🚫".
Proof.
  unfold getViolationDetails, getViolationIcon.
  destruct (String.eqb t "no_face"); [intros _; split; discriminate|].
  destruct (String.eqb t "multiple_faces"); [intros _; split; discriminate|].
  destruct (String.eqb t "looking_away"); [intros _; split; discriminate|].
  destruct (String.eqb t "suspicious_gaze"); [intros _; split; discriminate|].
  destruct (String.eqb t "head_pose_violation"); [intros _; split; discriminate|].
  discriminate.
Qed.

(** X11. The header colour and the severity badge always agree: two renders
    show the same colour exactly when they show the same severity word. *)
Theorem colour_matches_severity (d d' : bool) (n n' : Z) :
  getViolationColor d n = getViolationColor d' n'
  <-> getSeverityLevel d n = getSeverityLevel d' n'.
Proof.
  unfold getViolationColor, getSeverityLevel.
  destruct d, d', (5 <=? n)%Z, (3 <=? n)%Z, (5 <=? n')%Z, (3 <=? n')%Z;
    split; intros H; try reflexivity; discriminate H.
Qed.

(** X12. The icon falls back to the warning sign exactly for the types the
    hook has no details for, so for exactly the types whose notice the hook
    never shows. *)
Theorem default_icon_iff_no_details (t : string) :
  getViolationIcon false t = "⚠️" <-> getViolationDetails t = None.
Proof.
  unfold getViolationDetails, getViolationIcon.
  destruct (String.eqb t "no_face"); [split; discriminate|].
  destruct (String.eqb t "multiple_faces"); [split; discriminate|].
  destruct (String.eqb t "looking_away"); [split; discriminate|].
  destruct (String.eqb t "suspicious_gaze"); [split; discriminate|].
  destruct (String.eqb t "head_pose_violation"); [split; discriminate|].
  split; reflexivity.
Qed.

(** X13. Along every run from mount, a visible notice carries the title and
    the message of its own type, shows that type's icon (never the fallback,
    never the disqualification sign), is never rendered as CRITICAL, has the
    button "I Understand", and the hardware back button closes it. *)
Theorem visible_notice_is_an_ordinary_warning
    (p : Props) (a : AppStateStatus) (evs : list Event) (w : World) :
  run p (initialWorld a) evs = Some w ->
  visible (violationModal (state w)) = true ->
  let m := violationModal (state w) in
  getViolationDetails (violationType m)
    = Some {| title := violationTitle m; message := violationMessage m |}
  /\ getViolationIcon (isDisqualified m) (violationType m) <> "⚠️"
  /\ getViolationIcon (isDisqualified m) (violationType m) <> "🚫"
  /\ getSeverityLevel (isDisqualified m) (violationCount (state w)) <> "CRITICAL"
  /\ buttonText (isDisqualified m) = "I Understand"
  /\ modalHandler m HardwareBack = Some closeViolationModal.
Proof.
  intros Hrun Hvis m.
  assert (Inv : isDisqualified m = false
                /\ (visible m = true ->
                    getViolationDetails (violationType m)
                    = Some {| title := violationTitle m; message := violationMessage m |})).
  { subst m.
    apply (run_violationModal_ind
             (fun m => isDisqualified m = false
                       /\ (visible m = true ->
                           getViolationDetails (violationType m)
                           = Some {| title := violationTitle m;
                                     message := violationMessage m |}))
             ) with (p := p) (evs := evs) (w := initialWorld a).
    - intros m0 [Hd _]. split; [exact Hd|]. simpl. discriminate.
    - intros t det n Hdet. split; [reflexivity|]. intros _. simpl.
      rewrite Hdet. destruct det; reflexivity.
    - exact Hrun.
    - split; [reflexivity|]. simpl. discriminate. }
  destruct Inv as [Hd Hdet]. specialize (Hdet Hvis).
  destruct (icon_of_handled _ _ Hdet) as [I1 I2].
  rewrite Hd. repeat split; try assumption.
  - unfold getSeverityLevel.
    destruct (5 <=? _)%Z; [discriminate|]. destruct (3 <=? _)%Z; discriminate.
  - unfold modalHandler. rewrite Hd. reflexivity.
Qed.

Lemma visible_notice_is_an_ordinary_warning_witness :
  exists w,
    run Samples.props7 (initialWorld active)
      (Samples.uploading
       ++ [UploadDone 0 (Resolved (Samples.response [{| type := "no_face" |}] 1 false))
             "10:00:05"]) = Some w
    /\ visible (violationModal (state w)) = true
    /\ getViolationIcon (isDisqualified (violationModal (state w)))
         (violationType (violationModal (state w))) <> "⚠️".
Proof.
  destruct (run Samples.props7 (initialWorld active)
              (Samples.uploading
               ++ [UploadDone 0 (Resolved (Samples.response [{| type := "no_face" |}] 1 false))
                     "10:00:05"])) as [w|] eqn:E; [|vm_compute in E; discriminate E].
  exists w. split; [reflexivity|].
  assert (Hvis : visible (violationModal (state w)) = true)
    by (vm_compute in E; inversion E; subst; reflexivity).
  split; [exact Hvis|].
  destruct (visible_notice_is_an_ordinary_warning Samples.props7 active _ w E Hvis)
    as (_ & H & _).
  exact H.
Defined.

End ModalFacts.

(** * The question view *)

Module PaperFacts.
Import Js Exam Measures Answers Paper.

Lemma split_not_nil (s : string) : split s <> [].
Proof.
  destruct s as [|c r]; simpl; [discriminate|].
  destruct (Ascii.eqb c pipe); [discriminate|]. destruct (split r); discriminate.
Qed.

Lemma split_pieces_pipeFree (s : string) : Forall (fun x => pipeFree x = true) (split s).
Proof.
  induction s as [|c r IH]; simpl.
  - constructor; [reflexivity|constructor].
  - destruct (Ascii.eqb c pipe) eqn:E.
    + constructor; [reflexivity|exact IH].
    + destruct (split r) as [|h t]; inversion IH; subst; constructor; simpl;
        rewrite ?E; auto.
Qed.




(** [join] undoes [split] on every string. *)
Lemma join_split (s : string) : join (split s) = s.
Proof.
  induction s as [|c r IH]; [reflexivity|].
  simpl. destruct (Ascii.eqb_spec c pipe) as [->|Hne].
  - pose proof (split_not_nil r) as Hn.
    destruct (split r) as [|h t] eqn:E; [congruence|].
    change (join ("" :: h :: t)) with ("" +:+ "|" +:+ join (h :: t)).
    rewrite IH. reflexivity.
  - pose proof (split_not_nil r) as Hn.
    destruct (split r) as [|h t] eqn:E; [congruence|].
    destruct t as [|h' t'].
    + simpl in *. rewrite IH. reflexivity.
    + change (join (String c h :: h' :: t')) with (String c (h +:+ "|" +:+ join (h' :: t'))).
      change (join (h :: h' :: t')) with (h +:+ "|" +:+ join (h' :: t')) in IH.
      rewrite IH. reflexivity.
Qed.

Lemma includes_In (l : list string) (x : string) : includes l x = true <-> In x l.
Proof.
  unfold includes. rewrite existsb_exists. split.
  - intros (y & Hy & E). apply String.eqb_eq in E. subst. exact Hy.
  - intros H. exists x. split; [exact H|apply String.eqb_refl].
Qed.






Lemma join_app_one (l : list string) (o : string) :
  l <> [] -> join (l ++ [o]) = join l +:+ "|" +:+ o.
Proof.
  induction l as [|x rest IH]; [congruence|]. intros _.
  destruct rest as [|y rest'].
  - reflexivity.
  - change (join ((x :: y :: rest') ++ [o]))
      with (x +:+ "|" +:+ join ((y :: rest') ++ [o])).
    rewrite IH by discriminate.
    change (join (x :: y :: rest')) with (x +:+ "|" +:+ join (y :: rest')).
    generalize (join (y :: rest')). intros j.
    induction x as [|c r IHx]; [reflexivity|].
    change (String c r +:+ "|" +:+ j +:+ "|" +:+ o)
      with (String c (r +:+ "|" +:+ j +:+ "|" +:+ o)).
    rewrite IHx. reflexivity.
Qed.




(** X15. An option whose text holds a ['|'] never shows as selected,
    whatever the answer; and every press of it appends its text to the
    answer once more instead of toggling it. *)
Theorem option_with_pipe_is_never_selected (o cur : string) :
  pipeFree o = false ->
  isSelected multiple_mcq cur o = false
  /\ newAnswer multiple_mcq cur o
     = (if String.eqb cur "" then o else cur +:+ "|" +:+ o).
Proof.
  intros Hpf.
  assert (Hno : forall l, Forall (fun x => pipeFree x = true) l -> includes l o = false).
  { intros l Hl. destruct (includes l o) eqn:E; [|reflexivity].
    apply includes_In in E. rewrite Forall_forall in Hl.
    apply list_elem_of_In in E. rewrite (Hl o E) in Hpf. discriminate. }
  split.
  - simpl. apply Hno, split_pieces_pipeFree.
  - unfold newAnswer. destruct (String.eqb cur "") eqn:Ec.
    + reflexivity.
    + rewrite (Hno (split cur) (split_pieces_pipeFree cur)).
      rewrite join_app_one by apply split_not_nil. rewrite join_split. reflexivity.
Qed.

Lemma option_with_pipe_is_never_selected_witness :
  isSelected multiple_mcq (newAnswer multiple_mcq "x" "a|b") "a|b" = false
  /\ newAnswer multiple_mcq (newAnswer multiple_mcq "x" "a|b") "a|b" = "x|a|b|a|b".
Proof.
  split.
  - apply (option_with_pipe_is_never_selected "a|b" (newAnswer multiple_mcq "x" "a|b")).
    reflexivity.
  - destruct (option_with_pipe_is_never_selected "a|b"
                (newAnswer multiple_mcq "x" "a|b") eq_refl) as [_ H].
    rewrite H. reflexivity.
Defined.

(** *** The footer *)

(** Navigation to a question of the list: the index moves there, the list
    stays, and the subject tab follows the question. *)
Lemma navigate_view (a : Z) (index : nat) (now : Z) (w : World) (tq : Question) :
  questions (state w) !! index = Some tq ->
  exists w',
    step a w (Navigate index now) = Some w'
    /\ currentQuestionIndex (state w') = index
    /\ questions (state w') = questions (state w)
    /\ selectedSubject (state w') = Some (subject tq).
Proof.
  intros Htq. destruct (SessionFacts.elapse_frame now w) as (E1 & E2 & _).
  unfold step.
  set (w1 := elapse now w) in *.
  assert (N : currentQuestionIndex (state (navigateToQuestion (closureOf a w1) index now w1))
              = index
              /\ questions (state (navigateToQuestion (closureOf a w1) index now w1))
                 = questions (state w)
              /\ selectedSubject (state (navigateToQuestion (closureOf a w1) index now w1))
                 = Some (subject tq)).
  { unfold navigateToQuestion, closureOf. cbn [captured]. rewrite E1, Htq.
    unfold updateQuestionTime.
    destruct (questions (state w) !! currentQuestionIndex (state w)) as [cq|];
      destruct (bool_decide (Some (subject tq) = selectedSubject (state w))) eqn:Eb;
      cbn; rewrite ?E1; repeat split;
      try (apply bool_decide_eq_true_1 in Eb; symmetry; exact Eb). }
  destruct N as (N1 & N2 & N3).
  destruct (Nat.eqb index (currentQuestionIndex (state w1))).
  - eexists. split; [reflexivity|]. repeat split; assumption.
  - eexists. split; [reflexivity|].
    set (w2 := navigateToQuestion (closureOf a w1) index now w1) in *.
    unfold questionEffect, updateQuestionTime.
    destruct (questionCleanup w2) as [[cq st]|];
      destruct (questions (state w2) !! currentQuestionIndex (state w2));
      cbn; repeat split; assumption.
Qed.

(** X16. From an index inside the question list, Previous and Next keep it
    inside: Previous goes one back and stops at the first question, Next
    goes one on and stops at the last; the list is unchanged, and after a
    move the subject tab is the subject of the question shown. *)
Theorem footer_keeps_index_in_range (a : Z) (forward : bool) (now : Z) (w : World) :
  (currentQuestionIndex (state w) < length (questions (state w)))%nat ->
  exists w',
    (if forward then pressNext a now w else pressPrevious a now w) = Some w'
    /\ questions (state w') = questions (state w)
    /\ currentQuestionIndex (state w')
       = (if forward
          then Nat.min (currentQuestionIndex (state w) + 1) (length (questions (state w)) - 1)
          else Nat.pred (currentQuestionIndex (state w)))
    /\ (currentQuestionIndex (state w') < length (questions (state w')))%nat
    /\ (currentQuestionIndex (state w') <> currentQuestionIndex (state w) ->
        Some (selectedSubject (state w'))
        = (fun q => Some (subject q))
            <$> questions (state w') !! currentQuestionIndex (state w')).
Proof.
  intros Hin. destruct forward.
  - unfold pressNext.
    destruct (Nat.ltb_spec (currentQuestionIndex (state w))
                (length (questions (state w)) - 1)) as [Hlt|Hge].
    + destruct (lookup_lt_is_Some_2 (questions (state w))
                  (currentQuestionIndex (state w) + 1) ltac:(lia)) as [tq Htq].
      destruct (navigate_view a _ now w tq Htq) as (w' & Hs & H1 & H2 & H3).
      exists w'. split; [exact Hs|]. rewrite H1, H2.
      repeat split; [lia|lia|]. intros _. rewrite Htq, H3. reflexivity.
    + exists w. split; [reflexivity|]. repeat split; [lia|exact Hin|congruence].
  - unfold pressPrevious.
    destruct (Nat.ltb_spec 0 (currentQuestionIndex (state w))) as [Hlt|Hge].
    + destruct (lookup_lt_is_Some_2 (questions (state w))
                  (currentQuestionIndex (state w) - 1) ltac:(lia)) as [tq Htq].
      destruct (navigate_view a _ now w tq Htq) as (w' & Hs & H1 & H2 & H3).
      exists w'. split; [exact Hs|]. rewrite H1, H2.
      repeat split; [lia|lia|]. intros _. rewrite Htq, H3. reflexivity.
    + exists w. split; [reflexivity|]. repeat split; [lia|exact Hin|congruence].
Qed.

Lemma footer_keeps_index_in_range_witness :
  exists w w',
    run 7 (initialWorld 0) [QuestionsLoaded [Samples.q1; Samples.q2] (Some "Physics") 0]
    = Some w
    /\ pressNext 7 5000 w = Some w'
    /\ currentQuestionIndex (state w') = 1%nat.
Proof.
  destruct (run 7 (initialWorld 0)
              [QuestionsLoaded [Samples.q1; Samples.q2] (Some "Physics") 0])
    as [w|] eqn:E; [|vm_compute in E; discriminate E].
  assert (Hq : questions (state w) = [Samples.q1; Samples.q2]
               /\ currentQuestionIndex (state w) = 0%nat)
    by (vm_compute in E; inversion E; subst; split; reflexivity).
  destruct Hq as [Hq Hi].
  assert (Hin : (currentQuestionIndex (state w) < length (questions (state w)))%nat)
    by (rewrite Hq, Hi; simpl; lia).
  destruct (footer_keeps_index_in_range 7 true 5000 w Hin) as (w' & Hp & _ & Hidx & _).
  exists w, w'. split; [reflexivity|]. split; [exact Hp|].
  rewrite Hidx, Hq, Hi. reflexivity.
Defined.


(** *** Answered marks *)

(** A step adds a record only for the question of an edit. *)
Lemma step_records (a : Z) (w : World) (ev : Event) (w' : World) (k : Z) :
  step a w ev = Some w' ->
  is_Some (userAnswers (state w') !! k) ->
  is_Some (userAnswers (state w) !! k) \/ k ∈ edited [ev].
Proof.
  intros Hstep.
  apply (AnswersFacts.step_userAnswers_cases
           (fun m => is_Some (m !! k) ->
                     is_Some (userAnswers (state w) !! k) \/ k ∈ edited [ev])
           a w ev w'); [| |exact Hstep|tauto].
  - intros m i d Hm Hs. apply Hm.
    destruct (decide (k = i)) as [->|Hne].
    + rewrite lookup_alter_eq in Hs. destruct (m !! i); [eauto|].
      destruct Hs as [x Hx]; discriminate.
    + rewrite lookup_alter_ne in Hs by congruence. exact Hs.
  - intros m q ans f now ts st -> Hm Hs.
    destruct (decide (k = q)) as [->|Hne].
    + right. simpl. apply list_elem_of_singleton. reflexivity.
    + rewrite lookup_insert_ne in Hs by congruence. apply Hm, Hs.
Qed.

Lemma edited_cons (ev : Event) (evs : list Event) :
  edited (ev :: evs) = edited [ev] ++ edited evs.
Proof. unfold edited. simpl. destruct ev; reflexivity. Qed.

Lemma run_records (a : Z) (evs : list Event) (w w' : World) (k : Z) :
  run a w evs = Some w' ->
  is_Some (userAnswers (state w') !! k) ->
  is_Some (userAnswers (state w) !! k) \/ k ∈ edited evs.
Proof.
  revert w. induction evs as [|ev evs IH]; intros w Hrun Hs; simpl in Hrun.
  - inversion Hrun; subst. left. exact Hs.
  - destruct (step a w ev) as [w1|] eqn:Hstep; [|discriminate].
    rewrite edited_cons, elem_of_app.
    destruct (IH w1 Hrun Hs) as [H1|H1]; [|tauto].
    destruct (step_records a w ev w1 k Hstep H1); tauto.
Qed.

Lemma filter_all_true {A} (f : A -> bool) (l : list A) :
  (forall x, In x l -> f x = true) -> List.filter f l = l.
Proof.
  induction l as [|x l IH]; intros H; [reflexivity|].
  simpl. rewrite (H x) by (left; reflexivity). f_equal. apply IH.
  intros y Hy. apply H. right. exact Hy.
Qed.

(** X17. At any time of a session, a question that was never edited counts
    as answered: the subject badge and the submit summary of a list of such
    questions show all of them as answered, and each of them that is not the
    current one has the answered style in the palette. *)
Theorem unedited_questions_count_as_answered
    (trim : string -> string) (a mounted : Z) (evs : list Event) (w : World)
    (subjectQuestions : list Question) :
  run a (initialWorld mounted) evs = Some w ->
  (forall q, q ∈ subjectQuestions -> id q ∉ edited evs) ->
  answeredInSubject trim (userAnswers (state w)) subjectQuestions
  = length subjectQuestions
  /\ forall q index, q ∈ subjectQuestions -> index <> currentQuestionIndex (state w) ->
       paletteItem trim (state w) index q = paletteItemAnswered.
Proof.
  intros Hrun Hun.
  assert (Hnone : forall q, q ∈ subjectQuestions -> userAnswers (state w) !! id q = None).
  { intros q Hq. destruct (userAnswers (state w) !! id q) as [e|] eqn:E; [|reflexivity].
    destruct (run_records a evs _ w (id q) Hrun) as [H|H].
    - rewrite E. eauto.
    - simpl in H. rewrite lookup_empty in H. destruct H as [x Hx]. discriminate.
    - exfalso. apply (Hun q Hq H). }
  split.
  - unfold answeredInSubject. rewrite filter_all_true; [reflexivity|].
    intros q Hq. unfold isAnswered. rewrite Hnone; [reflexivity|].
    apply list_elem_of_In, Hq.
  - intros q index Hq Hne. unfold paletteItem, isAnswered.
    destruct (Nat.eqb_spec index (currentQuestionIndex (state w))); [contradiction|].
    rewrite (Hnone q Hq). reflexivity.
Qed.

Lemma unedited_questions_count_as_answered_witness :
  exists w,
    run 7 (initialWorld 0)
      [QuestionsLoaded [Samples.q1; Samples.q2] (Some "Physics") 0] = Some w
    /\ answeredInSubject (fun s => s) (userAnswers (state w)) [Samples.q1; Samples.q2]
       = 2%nat.
Proof.
  destruct (run 7 (initialWorld 0)
              [QuestionsLoaded [Samples.q1; Samples.q2] (Some "Physics") 0])
    as [w|] eqn:E; [|vm_compute in E; discriminate E].
  exists w. split; [reflexivity|].
  apply (unedited_questions_count_as_answered (fun s => s) 7 0 _ w
           [Samples.q1; Samples.q2] E).
  intros q _ Hin. simpl in Hin. apply elem_of_nil in Hin. exact Hin.
Defined.

(** *** Grouping by subject *)

Lemma groupStep_spec (normalize : string -> string) (g0 : gmap string (list Question))
    (u0 : list string) (q : Question) :
  normalize (rawSubject q) ∉ inheritedKeys ->
  exists g1 u1,
    groupStep normalize (Some (g0, u0)) q = Some (g1, u1)
    /\ (forall k, default [] (g1 !! k)
                  = default [] (g0 !! k)
                    ++ (if decide (normalize (rawSubject q) = k) then [q] else []))
    /\ (forall k, is_Some (g1 !! k) <-> is_Some (g0 !! k) \/ normalize (rawSubject q) = k)
    /\ u1 = (if decide (is_Some (g0 !! normalize (rawSubject q))) then u0
             else u0 ++ [normalize (rawSubject q)]).
Proof.
  intros Hni. unfold groupStep.
  rewrite (bool_decide_eq_false_2 _ Hni).
  destruct (g0 !! normalize (rawSubject q)) as [l|] eqn:E.
  - eexists _, _. split; [reflexivity|]. split; [|split].
    + intros k. destruct (decide (normalize (rawSubject q) = k)) as [<-|Hne].
      * rewrite lookup_insert_eq, E. reflexivity.
      * rewrite lookup_insert_ne by exact Hne. rewrite app_nil_r. reflexivity.
    + intros k. destruct (decide (normalize (rawSubject q) = k)) as [<-|Hne].
      * rewrite lookup_insert_eq. split; eauto.
      * rewrite lookup_insert_ne by exact Hne. tauto.
    + destruct (decide (is_Some (Some l))) as [_|Hn]; [reflexivity|].
      exfalso. apply Hn. eauto.
  - eexists _, _. split; [reflexivity|]. split; [|split].
    + intros k. destruct (decide (normalize (rawSubject q) = k)) as [<-|Hne].
      * rewrite lookup_insert_eq, E. reflexivity.
      * rewrite lookup_insert_ne by exact Hne. rewrite app_nil_r. reflexivity.
    + intros k. destruct (decide (normalize (rawSubject q) = k)) as [<-|Hne].
      * rewrite lookup_insert_eq. split; eauto.
      * rewrite lookup_insert_ne by exact Hne. tauto.
    + destruct (decide (is_Some (@None (list Question)))) as [[x Hx]|_];
        [discriminate|reflexivity].
Qed.

Lemma foldl_groupStep (normalize : string -> string) (qs : list Question) :
  forall (g0 : gmap string (list Question)) (u0 : list string),
  (forall q, q ∈ qs -> normalize (rawSubject q) ∉ inheritedKeys) ->
  NoDup u0 ->
  (forall k, k ∈ u0 <-> is_Some (g0 !! k)) ->
  exists g u,
    foldl (groupStep normalize) (Some (g0, u0)) qs = Some (g, u)
    /\ (forall k, default [] (g !! k)
                  = default [] (g0 !! k)
                    ++ filter (fun q => normalize (rawSubject q) = k) qs)
    /\ NoDup u
    /\ (forall k, k ∈ u <-> is_Some (g !! k))
    /\ (forall k, is_Some (g !! k)
                  <-> is_Some (g0 !! k) \/ exists q, q ∈ qs /\ normalize (rawSubject q) = k).
Proof.
  induction qs as [|q qs IH]; intros g0 u0 Hni Hnd Hu.
  - exists g0, u0. split; [reflexivity|]. split; [|split; [exact Hnd|split; [exact Hu|]]].
    + intros k. rewrite app_nil_r. reflexivity.
    + intros k. split; [tauto|]. intros [H|(q & Hq & _)]; [exact H|].
      apply elem_of_nil in Hq. contradiction.
  - destruct (groupStep_spec normalize g0 u0 q) as (g1 & u1 & Hs & Hd & Hk & Hu1).
    { apply Hni. left. }
    assert (Hnd1 : NoDup u1).
    { rewrite Hu1. destruct (decide (is_Some (g0 !! normalize (rawSubject q)))) as [_|Hn];
        [exact Hnd|].
      apply NoDup_app. split; [exact Hnd|]. split; [|apply NoDup_singleton].
      intros x Hx Hx'. apply list_elem_of_singleton in Hx'. subst x.
      apply Hn, Hu, Hx. }
    assert (Hu1' : forall k, k ∈ u1 <-> is_Some (g1 !! k)).
    { intros k. rewrite Hk, Hu1.
      destruct (decide (is_Some (g0 !! normalize (rawSubject q)))) as [Hy|Hn].
      - rewrite Hu. split; [tauto|]. intros [H|<-]; [exact H|exact Hy].
      - rewrite elem_of_app, list_elem_of_singleton, Hu. split; intros [H|H]; auto. }
    destruct (IH g1 u1) as (g & u & Hf & Hd' & Hnd' & Hu' & Hk');
      [intros q' Hq'; apply Hni; right; exact Hq'|exact Hnd1|exact Hu1'|].
    exists g, u.
    split; [change (foldl (groupStep normalize) (Some (g0, u0)) (q :: qs))
              with (foldl (groupStep normalize)
                      (groupStep normalize (Some (g0, u0)) q) qs);
            rewrite Hs; exact Hf|].
    split; [|split; [exact Hnd'|split; [exact Hu'|]]].
    + intros k. rewrite Hd', Hd, <- app_assoc. f_equal.
      destruct (decide (normalize (rawSubject q) = k)) as [E|E].
      * rewrite filter_cons_True by exact E. reflexivity.
      * rewrite filter_cons_False by exact E. reflexivity.
    + intros k. rewrite Hk', Hk. split.
      * intros [[H|H]|(q' & Hq' & E)]; [left; exact H| |].
        -- right. exists q. split; [left|exact H].
        -- right. exists q'. split; [right; exact Hq'|exact E].
      * intros [H|(q' & Hq' & E)]; [left; left; exact H|].
        apply elem_of_cons in Hq' as [->|Hq']; [left; right; exact E|].
        right. exists q'. split; assumption.
Qed.

(** X18. When no normalised subject is a key that plain objects inherit,
    the grouping succeeds; each group holds, in order, exactly the
    questions of its normalised subject; and the tab list holds each
    subject that occurs once and no other. *)
Theorem grouping_partitions_the_questions
    (normalize : string -> string) (sortedQuestions : list Question) :
  (forall q, q ∈ sortedQuestions -> normalize (rawSubject q) ∉ inheritedKeys) ->
  exists grouped uniqueSubjects,
    groupBySubject normalize sortedQuestions = Some (grouped, uniqueSubjects)
    /\ (forall k, default [] (grouped !! k)
                  = filter (fun q => normalize (rawSubject q) = k) sortedQuestions)
    /\ NoDup uniqueSubjects
    /\ (forall k, k ∈ uniqueSubjects
                  <-> exists q, q ∈ sortedQuestions /\ normalize (rawSubject q) = k)
    /\ (forall k, k ∈ uniqueSubjects <-> is_Some (grouped !! k)).
Proof.
  intros Hni. unfold groupBySubject.
  destruct (foldl_groupStep normalize sortedQuestions ∅ [] Hni)
    as (g & u & Hf & Hd & Hnd & Hu & Hk).
  - apply NoDup_nil_2.
  - intros k. rewrite lookup_empty. split; [intros H; apply elem_of_nil in H; contradiction|].
    intros [x Hx]. discriminate.
  - exists g, u. split; [exact Hf|]. split; [|split; [exact Hnd|split; [|exact Hu]]].
    + intros k. rewrite Hd, lookup_empty. reflexivity.
    + intros k. rewrite Hu, Hk, lookup_empty. split.
      * intros [[x Hx]|H]; [discriminate|exact H].
      * intros H. right. exact H.
Qed.

Lemma grouping_partitions_the_questions_witness :
  exists grouped,
    groupBySubject titleCase [Samples.q1; Samples.q2] = Some (grouped, ["Physics"])
    /\ default [] (grouped !! "Physics") = [Samples.q1; Samples.q2].
Proof.
  destruct (grouping_partitions_the_questions titleCase [Samples.q1; Samples.q2])
    as (g & u & Hg & Hd & _).
  - intros q Hq. apply elem_of_cons in Hq as [->|Hq];
      [|apply elem_of_cons in Hq as [->|Hq]; [|apply elem_of_nil in Hq; contradiction]];
      vm_compute; intros H; repeat (apply elem_of_cons in H as [H|H]; [discriminate H|]);
      apply elem_of_nil in H; exact H.
  - exists g. split.
    + rewrite Hg. f_equal. f_equal. vm_compute in Hg. inversion Hg. reflexivity.
    + rewrite Hd. reflexivity.
Defined.




(** *** Submissions *)

Lemma submissions_frame (w w' : World) :
  calls w' = calls w -> submissions w' = submissions w.
Proof. unfold submissions. intros ->. reflexivity. Qed.

Lemma armed_frame (w w' : World) : countdown w' = countdown w -> armed w' = armed w.
Proof. unfold armed. intros ->. reflexivity. Qed.

Lemma questionEffect_frame (now : Z) (w : World) :
  calls (questionEffect now w) = calls w
  /\ countdown (questionEffect now w) = countdown w.
Proof.
  unfold questionEffect, updateQuestionTime.
  destruct (questionCleanup w) as [[cq st]|];
    destruct (questions (state w) !! currentQuestionIndex (state w)); split; reflexivity.
Qed.

Lemma navigateToQuestion_frame (c : Closure) (index : nat) (now : Z) (w : World) :
  calls (navigateToQuestion c index now w) = calls w
  /\ countdown (navigateToQuestion c index now w) = countdown w.
Proof.
  unfold navigateToQuestion, updateQuestionTime.
  destruct (questions (captured c) !! currentQuestionIndex (captured c));
    destruct (questions (captured c) !! index) as [tq|];
    try destruct (bool_decide _); split; reflexivity.
Qed.

Lemma submitExam_countdown (c : Closure) (now : Z) (w : World) :
  countdown (submitExam c now w) = countdown w.
Proof.
  unfold submitExam.
  destruct (questions (captured c) !! currentQuestionIndex (captured c)); reflexivity.
Qed.

Lemma step_submissions (a : Z) (w : World) (ev : Event) (w' : World) :
  step a w ev = Some w' ->
  (submissions w + taps [ev] <= submissions w')%nat
  /\ (submissions w' + armed w' <= submissions w + armed w + taps [ev] + loads [ev])%nat.
Proof.
  assert (Hel : forall now, submissions (elapse now w) = submissions w
                            /\ armed (elapse now w) = armed w).
  { intros now. split; [apply AnswersFacts.submissions_elapse|].
    apply armed_frame. apply (SessionFacts.elapse_frame now w). }
  destruct ev as [att|sorted fs now|q ans f now|index now|now|now|now|n ok at_|n ok];
    unfold step; intros Hstep.
  - inversion Hstep; subst.
    assert (Hc : submissions (countdownEffect a (onState (setAttempt (Some att)) w))
                 = submissions w).
    { apply submissions_frame. unfold countdownEffect. simpl.
      destruct (time_remaining att =? 0)%Z; reflexivity. }
    rewrite Hc. unfold armed at 1, countdownEffect. simpl.
    destruct (time_remaining att =? 0)%Z; unfold taps, loads; simpl; lia.
  - destruct (Hel now) as [H1 H2]. inversion Hstep; subst.
    match goal with |- context [questionEffect now ?x] =>
      destruct (questionEffect_frame now x) as [F1 F2];
      rewrite (submissions_frame x _ F1), (armed_frame x _ F2);
      assert (Hx : submissions x = submissions w /\ armed x = armed w)
        by (destruct fs; split; assumption)
    end.
    destruct Hx as [-> ->]. unfold taps, loads; unfold taps, loads; simpl; lia.
  - destruct (Hel now) as [H1 H2]. inversion Hstep; subst.
    assert (Hx : submissions (autoSaveAnswer (closureOf a (elapse now w)) q ans f now
                                (elapse now w)) = submissions w
                 /\ armed (autoSaveAnswer (closureOf a (elapse now w)) q ans f now
                             (elapse now w)) = armed w).
    { split; [rewrite <- H1; apply submissions_frame
             |rewrite <- H2; apply armed_frame];
        unfold autoSaveAnswer; simpl;
        destruct (autoSaveTimeoutRef (elapse now w)); reflexivity. }
    destruct Hx as [-> ->]. unfold taps, loads; unfold taps, loads; simpl; lia.
  - destruct (Hel now) as [H1 H2].
    destruct (navigateToQuestion_frame (closureOf a (elapse now w)) index now (elapse now w))
      as [N1 N2].
    destruct (Nat.eqb index _); inversion Hstep; subst.
    + rewrite (submissions_frame _ _ N1), (armed_frame _ _ N2), H1, H2. unfold taps, loads; unfold taps, loads; simpl; lia.
    + match goal with |- context [questionEffect now ?x] =>
        destruct (questionEffect_frame now x) as [F1 F2];
        rewrite (submissions_frame x _ F1), (armed_frame x _ F2)
      end.
      rewrite (submissions_frame _ _ N1), (armed_frame _ _ N2), H1, H2. unfold taps, loads; unfold taps, loads; simpl; lia.
  - destruct (Hel now) as [H1 H2]. inversion Hstep; subst. rewrite H1, H2. unfold taps, loads; unfold taps, loads; simpl; lia.
  - destruct (countdown w) as [c|] eqn:Hc.
    + destruct (Z_lt_le_dec 0 (timeRemaining (state w))) as [Hlt|Hle].
      * destruct (AnswersFacts.tick_counts_down a c now w Hc Hlt)
          as (w1 & Hs & Hc1 & _ & Hn1).
        unfold step in Hs. rewrite Hs in Hstep. inversion Hstep; subst.
        rewrite Hn1. unfold armed. rewrite Hc1, Hc. unfold taps, loads; unfold taps, loads; simpl; lia.
      * destruct (AnswersFacts.tick_submits a c now w Hc Hle)
          as (w1 & Hs & Hc1 & _ & Hn1).
        unfold step in Hs. rewrite Hs in Hstep. inversion Hstep; subst.
        rewrite Hn1. unfold armed. rewrite Hc1, Hc. unfold taps, loads; unfold taps, loads; simpl; lia.
    + destruct (Hel now) as [H1 H2]. inversion Hstep; subst.
      assert (Ht : countdownTick now (elapse now w) = elapse now w).
      { unfold countdownTick.
        destruct (SessionFacts.elapse_frame now w) as (_ & _ & E3).
        rewrite E3, Hc. reflexivity. }
      rewrite Ht, H1, H2. unfold taps, loads; unfold taps, loads; simpl; lia.
  - destruct (Hel now) as [H1 H2]. inversion Hstep; subst.
    rewrite AnswersFacts.submissions_submitExam, H1.
    rewrite (armed_frame _ _ (submitExam_countdown _ now (elapse now w))), H2.
    unfold taps, loads; unfold taps, loads; simpl; lia.
  - destruct (inflight w !! n) as [[|]|]; try discriminate.
    inversion Hstep; subst.
    assert (Hx : submissions (saveSettled ok at_ (removeInflight n w)) = submissions w
                 /\ armed (saveSettled ok at_ (removeInflight n w)) = armed w)
      by (unfold saveSettled; destruct ok; split; reflexivity).
    destruct Hx as [-> ->]. unfold taps, loads; unfold taps, loads; simpl; lia.
  - destruct (inflight w !! n) as [[|]|]; try discriminate.
    inversion Hstep; subst.
    assert (Hx : submissions (submitSettled ok (removeInflight n w)) = submissions w
                 /\ armed (submitSettled ok (removeInflight n w)) = armed w)
      by (split; reflexivity).
    destruct Hx as [-> ->]. unfold taps, loads; unfold taps, loads; simpl; lia.
Qed.

Lemma taps_cons (ev : Event) (evs : list Event) : taps (ev :: evs) = (taps [ev] + taps evs)%nat.
Proof. unfold taps. simpl. destruct ev; reflexivity. Qed.

Lemma loads_cons (ev : Event) (evs : list Event) :
  loads (ev :: evs) = (loads [ev] + loads evs)%nat.
Proof. unfold loads. simpl. destruct ev; reflexivity. Qed.

Lemma run_submissions (a : Z) (evs : list Event) (w w' : World) :
  run a w evs = Some w' ->
  (submissions w + taps evs <= submissions w')%nat
  /\ (submissions w' + armed w' <= submissions w + armed w + taps evs + loads evs)%nat.
Proof.
  revert w. induction evs as [|ev evs IH]; intros w Hrun; simpl in Hrun.
  - inversion Hrun; subst. unfold taps, loads. simpl. lia.
  - destruct (step a w ev) as [w1|] eqn:Hstep; [|discriminate].
    destruct (step_submissions a w ev w1 Hstep) as [A1 A2].
    destruct (IH w1 Hrun) as [B1 B2].
    rewrite taps_cons, loads_cons. lia.
Qed.

(** X20. In a session from mount, every press of the confirm button sends a
    final submission, whatever [submitting] is, and the countdown adds at
    most one more for each arrival of the attempt: the submissions number
    at least the presses and at most the presses plus the arrivals. *)
Theorem every_confirm_press_submits (a mounted : Z) (evs : list Event) (w : World) :
  run a (initialWorld mounted) evs = Some w ->
  (taps evs <= submissions w <= taps evs + loads evs)%nat.
Proof.
  intros Hrun. destruct (run_submissions a evs _ w Hrun) as [H1 H2].
  unfold submissions at 1 in H1. unfold submissions at 2, armed at 2 in H2.
  simpl in H1, H2. lia.
Qed.

Lemma every_confirm_press_submits_witness :
  exists w,
    run 7 (initialWorld 0) [TapSubmit 1000; TapSubmit 1200] = Some w
    /\ submissions w = 2%nat.
Proof.
  destruct (run 7 (initialWorld 0) [TapSubmit 1000; TapSubmit 1200]) as [w|] eqn:E;
    [|vm_compute in E; discriminate E].
  exists w. split; [reflexivity|].
  pose proof (every_confirm_press_submits 7 0 _ w E) as H.
  change (taps [TapSubmit 1000; TapSubmit 1200]) with 2%nat in H.
  change (loads [TapSubmit 1000; TapSubmit 1200]) with 0%nat in H. lia.
Defined.


(** *** The clock *)

Lemma two_places (k : nat) :
  (k < 100)%nat ->
  padStart2 (pretty (Z.of_nat k))
  = String (digit (Z.of_nat k / 10)) (String (digit (Z.of_nat k mod 10)) "").
Proof.
  intros Hk.
  assert (H : forallb (fun k =>
                String.eqb (padStart2 (pretty (Z.of_nat k)))
                  (String (digit (Z.of_nat k / 10))
                     (String (digit (Z.of_nat k mod 10)) "")))
                (seq 0 100) = true) by (vm_compute; reflexivity).
  rewrite forallb_forall in H. apply String.eqb_eq, H, in_seq. lia.
Qed.

Lemma two_places_Z (n : Z) :
  (0 <= n < 100)%Z ->
  padStart2 (pretty n) = String (digit (n / 10)) (String (digit (n mod 10)) "").
Proof.
  intros Hn. rewrite <- (Z2Nat.id n) by lia. apply two_places. lia.
Qed.

Lemma digit_inj (a b : Z) :
  (0 <= a < 10)%Z -> (0 <= b < 10)%Z -> digit a = digit b -> a = b.
Proof.
  intros Ha Hb H. unfold digit in H.
  apply (f_equal Ascii.nat_of_ascii) in H.
  rewrite !Ascii.nat_ascii_embedding in H by lia. lia.
Qed.

Lemma two_places_inj (n n' : Z) :
  (0 <= n < 100)%Z -> (0 <= n' < 100)%Z ->
  padStart2 (pretty n) = padStart2 (pretty n') -> n = n'.
Proof.
  intros Hn Hn' H. rewrite !two_places_Z in H by assumption.
  inversion H as [[H1 H2]].
  apply digit_inj in H1; [|split; [apply Z.div_pos; lia|apply Z.div_lt_upper_bound; lia]
                          |split; [apply Z.div_pos; lia|apply Z.div_lt_upper_bound; lia]].
  apply digit_inj in H2; [|apply Z.mod_pos_bound; lia|apply Z.mod_pos_bound; lia].
  rewrite (Z.div_mod n 10), (Z.div_mod n' 10) by lia. lia.
Qed.

(** The digits written so far are never lost. *)
Lemma pretty_N_go_length (x : N) :
  forall s, (String.length s <= String.length (pretty_N_go x s))%nat.
Proof.
  induction (N.lt_wf_0 x) as [x _ IH]. intros s.
  destruct (N.eq_dec x 0%N) as [->|Hx].
  - rewrite pretty_N_go_0. lia.
  - rewrite pretty_N_go_step by lia.
    etransitivity; [|apply IH; apply N.div_lt; lia]. simpl. lia.
Qed.

Lemma pretty_three_places (n : Z) :
  (100 <= n)%Z -> (3 <= String.length (pretty n))%nat.
Proof.
  intros Hn. destruct n as [|p|p]; try lia.
  change (pretty (Z.pos p)) with (pretty (N.pos p)).
  unfold pretty, pretty_N. destruct (decide (N.pos p = 0%N)) as [|_]; [discriminate|].
  assert (H100 : (100 <= N.pos p)%N) by lia.
  assert (H1 : (0 < N.pos p `div` 10)%N) by (apply N.div_str_pos; lia).
  assert (H2 : (0 < (N.pos p `div` 10) `div` 10)%N).
  { apply N.div_str_pos. split; [lia|]. apply N.div_le_lower_bound; lia. }
  rewrite pretty_N_go_step by lia.
  rewrite pretty_N_go_step by exact H1.
  rewrite pretty_N_go_step by exact H2.
  etransitivity; [|apply pretty_N_go_length]. simpl. lia.
Qed.

Lemma padStart2_long (s : string) : (2 <= String.length s)%nat -> padStart2 s = s.
Proof.
  unfold padStart2. destruct (String.length s) as [|[|k]]; [lia|lia|reflexivity].
Qed.

Lemma padStart2_pretty_inj (m m' : Z) :
  (0 <= m)%Z -> (0 <= m')%Z -> padStart2 (pretty m) = padStart2 (pretty m') -> m = m'.
Proof.
  intros Hm Hm' H.
  destruct (Z_lt_le_dec m 100) as [Hlt|Hge]; destruct (Z_lt_le_dec m' 100) as [Hlt'|Hge'].
  - apply two_places_inj; [lia|lia|exact H].
  - exfalso. rewrite (two_places_Z m) in H by lia.
    rewrite (padStart2_long (pretty m')) in H
      by (pose proof (pretty_three_places m' Hge'); lia).
    pose proof (pretty_three_places m' Hge') as H3. rewrite <- H in H3. simpl in H3. lia.
  - exfalso. rewrite (two_places_Z m') in H by lia.
    rewrite (padStart2_long (pretty m)) in H
      by (pose proof (pretty_three_places m Hge); lia).
    pose proof (pretty_three_places m Hge) as H3. rewrite H in H3. simpl in H3. lia.
  - rewrite !padStart2_long in H
      by (match goal with |- (2 <= String.length (pretty ?x))%nat =>
            pose proof (pretty_three_places x ltac:(assumption)); lia end).
    apply (inj pretty) in H. exact H.
Qed.

Lemma length_app_string (a b : string) :
  String.length (a +:+ b) = (String.length a + String.length b)%nat.
Proof. induction a as [|c a IH]; simpl; [reflexivity|]. rewrite IH. reflexivity. Qed.

Lemma string_app_inj_tail (a a' b b' : string) :
  String.length b = String.length b' -> a +:+ b = a' +:+ b' -> a = a' /\ b = b'.
Proof.
  revert a'. induction a as [|c a IH]; intros a' Hlen H.
  - destruct a' as [|c' a']; [split; [reflexivity|exact H]|].
    exfalso. apply (f_equal String.length) in H. simpl in H.
    rewrite !length_app_string in H. simpl in H. lia.
  - destruct a' as [|c' a'].
    + exfalso. apply (f_equal String.length) in H. simpl in H.
      rewrite !length_app_string in H. simpl in H. lia.
    + simpl in H. inversion H as [[Hc Hr]]. destruct (IH a' Hlen Hr) as [-> ->].
      split; reflexivity.
Qed.

(** X21. The clock. Under a hundred minutes it has exactly the shape
    [mm:ss]: two digits of minutes, a colon, two digits of seconds below
    sixty. And whatever the time left, two different times never show the
    same clock. *)
Theorem clock_is_mm_ss_and_injective (seconds seconds' : Z) :
  (0 <= seconds)%Z -> (0 <= seconds')%Z ->
  ((seconds < 6000)%Z ->
   formatTime seconds
   = String (digit (seconds / 600))
       (String (digit (seconds / 60 mod 10))
          (String colon
             (String (digit (seconds mod 60 / 10))
                (String (digit (seconds mod 10)) "")))))
  /\ (formatTime seconds = formatTime seconds' -> seconds = seconds').
Proof.
  intros Hs Hs'.
  assert (Hrem : forall x, (0 <= x)%Z -> Z.rem x 60 = (x mod 60)%Z)
    by (intros x Hx; apply Z.rem_mod_nonneg; lia).
  assert (Hsecs : forall x, (0 <= x)%Z ->
            padStart2 (pretty (Z.rem x 60))
            = String (digit (x mod 60 / 10)) (String (digit (x mod 60 mod 10)) "")).
  { intros x Hx. rewrite (Hrem x Hx). apply two_places_Z.
    pose proof (Z.mod_pos_bound x 60). lia. }
  split.
  - intros Hlt. unfold formatTime. rewrite (Hsecs seconds Hs).
    rewrite two_places_Z
      by (split; [apply Z.div_pos; lia|apply Z.div_lt_upper_bound; lia]).
    replace (seconds / 60 / 10)%Z with (seconds / 600)%Z
      by (rewrite Z.div_div by lia; reflexivity).
    replace (seconds mod 60 mod 10)%Z with (seconds mod 10)%Z.
    + reflexivity.
    + symmetry. apply Z.mod_mod_divide. exists 6%Z. reflexivity.
  - unfold formatTime. intros H.
    rewrite (Hsecs seconds Hs), (Hsecs seconds' Hs') in H.
    apply string_app_inj_tail in H as [Hm Hr]; [|reflexivity].
    apply padStart2_pretty_inj in Hm;
      [|apply Z.div_pos; lia|apply Z.div_pos; lia].
    inversion Hr as [[H1 H2]].
    assert (B : forall x, (0 <= x mod 60 < 60)%Z)
      by (intros x; apply Z.mod_pos_bound; lia).
    apply digit_inj in H1;
      [|split; [apply Z.div_pos; [apply B|lia]|apply Z.div_lt_upper_bound; [lia|];
                pose proof (B seconds); lia]
       |split; [apply Z.div_pos; [apply B|lia]|apply Z.div_lt_upper_bound; [lia|];
                pose proof (B seconds'); lia]].
    apply digit_inj in H2; [|apply Z.mod_pos_bound; lia|apply Z.mod_pos_bound; lia].
    assert (Hmod : (seconds mod 60 = seconds' mod 60)%Z).
    { rewrite (Z.div_mod (seconds mod 60) 10), (Z.div_mod (seconds' mod 60) 10) by lia.
      lia. }
    rewrite (Z.div_mod seconds 60), (Z.div_mod seconds' 60) by lia. lia.
Qed.

Lemma clock_is_mm_ss_and_injective_witness :
  formatTime 754 = "12:34" /\ (formatTime 754 = formatTime 754 -> 754 = 754)%Z.
Proof.
  assert (H0 : (0 <= 754)%Z) by lia.
  destruct (clock_is_mm_ss_and_injective 754 754 H0 H0) as [Hshape Hinj].
  split; [|exact Hinj].
  rewrite Hshape by lia. reflexivity.
Defined.

End PaperFacts.

(** * The exam card *)

Module HomeFacts.
Import Home.



End HomeFacts.

(** * Storage and the API functions *)

Module ApiFacts.
Import Js Storage Api.

Ltac distinct_keys :=
  unfold ACCESS_TOKEN_KEY, REFRESH_TOKEN_KEY, USER_DATA_KEY, CREDENTIALS_KEY;
  congruence.

Lemma saved_access (access refresh : string) (s : Store) :
  fst (saveTokens Done access refresh s) !! ACCESS_TOKEN_KEY = Some access.
Proof.
  unfold saveTokens, swallow, multiSet. cbn [fst snd foldl].
  rewrite lookup_insert_ne by distinct_keys. apply lookup_insert_eq.
Qed.

Lemma readToken_stored (s : Store) (token : string) :
  s !! ACCESS_TOKEN_KEY = Some token -> token <> "" ->
  readToken Done s = (s, Normal token).
Proof.
  intros Hs Hne. unfold readToken, getAccessToken, orNull, getItem. cbn [fst snd].
  rewrite Hs. destruct (String.eqb_spec token ""); [contradiction|reflexivity].
Qed.

Lemma readToken_missing (o : Outcome) (s : Store) :
  (o = Done -> s !! ACCESS_TOKEN_KEY = None \/ s !! ACCESS_TOKEN_KEY = Some "") ->
  exists s', readToken o s = (s', Throw noToken).
Proof.
  intros H. unfold readToken, getAccessToken, orNull, getItem.
  destruct o as [|e remains]; cbn [fst snd].
  - destruct (H eq_refl) as [-> | ->]; eexists; reflexivity.
  - eexists; reflexivity.
Qed.

(** X23. The access token saved at login is the one every later call
    carries: after [saveTokens] each posting function sends exactly one
    request, to its own URL, with [Bearer <access>], and settles as the
    server replies; the refresh token reads back as saved. *)
Theorem saved_token_signs_every_request
    (access refresh : string) (s : Store) :
  access <> "" ->
  let s1 := fst (saveTokens Done access refresh s) in
  getRefreshToken Done s1 = (s1, Normal (Some refresh))
  /\ (forall attemptId data reply,
        takeProctoringSnapshot Done s1 attemptId data reply
        = {| store := s1;
             sent := [{| method := POST;
                         url := API_BASE_URL +:+ "/exams/attempts/" +:+ pretty attemptId
                                +:+ "/proctoring/snapshot/";
                         authorization := "Bearer " +:+ access;
                         body := SnapshotBody data |}];
             result := settle reply |})
  /\ (forall (A : Type) attemptId q ans f (reply : Reply A),
        submitAnswer Done s1 attemptId q ans f reply
        = {| store := s1;
             sent := [{| method := POST;
                         url := API_BASE_URL +:+ "/exams/attempts/" +:+ pretty attemptId
                                +:+ "/auto-save/";
                         authorization := "Bearer " +:+ access;
                         body := AutoSaveBody q ans f |}];
             result := settle reply |})
  /\ (forall (A : Type) payload (reply : Reply A),
        submitExam Done s1 payload reply
        = {| store := s1;
             sent := [{| method := POST;
                         url := API_BASE_URL +:+ "/exams/submit-exam/";
                         authorization := "Bearer " +:+ access;
                         body := SubmitExamBody payload |}];
             result := settle reply |}).
Proof.
  intros Hne s1.
  assert (Hr : readToken Done s1 = (s1, Normal access))
    by (apply readToken_stored; [apply saved_access|exact Hne]).
  split; [|split; [|split]].
  - unfold getRefreshToken, orNull, getItem. cbn [fst snd]. f_equal. f_equal.
    subst s1. unfold saveTokens, swallow, multiSet. cbn [fst snd foldl]. apply lookup_insert_eq.
  - intros. unfold takeProctoringSnapshot, authorizedPost. rewrite Hr. reflexivity.
  - intros. unfold submitAnswer, autoSaveAnswer, authorizedPost. rewrite Hr. reflexivity.
  - intros. unfold submitExam, authorizedPost. rewrite Hr. reflexivity.
Qed.

Lemma saved_token_signs_every_request_witness :
  sent (submitExam Done (fst (saveTokens Done "abc" "xyz" ∅))
          {| Exam.attempt_id := 7; Exam.answers := ∅ |} (Answered tt))
  = [{| method := POST; url := "https://exams.dashoapp.com/api/exams/submit-exam/";
        authorization := "Bearer abc";
        body := SubmitExamBody {| Exam.attempt_id := 7; Exam.answers := ∅ |} |}].
Proof.
  assert (Hne : "abc" <> "") by discriminate.
  destruct (saved_token_signs_every_request "abc" "xyz" ∅ Hne) as (_ & _ & _ & H).
  rewrite (H unit {| Exam.attempt_id := 7; Exam.answers := ∅ |} (Answered tt)). reflexivity.
Defined.

(** X24. Logout removes the two tokens, the user data and the stored
    credentials, and nothing else: every other key, the device information
    under ["device_info"] among them, keeps its value. *)
Theorem logout_removes_the_four_keys_only (s : Store) (k : string) :
  let s1 := fst (clearTokens Done s) in
  s1 !! ACCESS_TOKEN_KEY = None
  /\ s1 !! REFRESH_TOKEN_KEY = None
  /\ s1 !! USER_DATA_KEY = None
  /\ s1 !! CREDENTIALS_KEY = None
  /\ s1 !! "device_info" = s !! "device_info"
  /\ (k <> ACCESS_TOKEN_KEY -> k <> REFRESH_TOKEN_KEY -> k <> USER_DATA_KEY ->
      k <> CREDENTIALS_KEY -> s1 !! k = s !! k)
  /\ getAccessToken Done s1 = (s1, Normal None)
  /\ getRefreshToken Done s1 = (s1, Normal None).
Proof.
  intros s1.
  assert (H1 : s1 !! ACCESS_TOKEN_KEY = None).
  { subst s1. unfold clearTokens, swallow, multiRemove. cbn [fst snd foldl].
    rewrite !lookup_delete_ne by distinct_keys. apply lookup_delete_eq. }
  assert (H2 : s1 !! REFRESH_TOKEN_KEY = None).
  { subst s1. unfold clearTokens, swallow, multiRemove. cbn [fst snd foldl].
    rewrite !lookup_delete_ne by distinct_keys. apply lookup_delete_eq. }
  assert (H3 : s1 !! USER_DATA_KEY = None).
  { subst s1. unfold clearTokens, swallow, multiRemove. cbn [fst snd foldl].
    rewrite !lookup_delete_ne by distinct_keys. apply lookup_delete_eq. }
  assert (H4 : s1 !! CREDENTIALS_KEY = None).
  { subst s1. unfold clearTokens, swallow, multiRemove. cbn [fst snd foldl]. apply lookup_delete_eq. }
  assert (H5 : forall i, i <> ACCESS_TOKEN_KEY -> i <> REFRESH_TOKEN_KEY ->
                         i <> USER_DATA_KEY -> i <> CREDENTIALS_KEY -> s1 !! i = s !! i).
  { intros i N1 N2 N3 N4. subst s1. unfold clearTokens, swallow, multiRemove. cbn [fst snd foldl].
    rewrite !lookup_delete_ne by congruence. reflexivity. }
  repeat split; try assumption.
  - apply H5; distinct_keys.
  - apply H5.
  - unfold getAccessToken, orNull, getItem. rewrite H1. reflexivity.
  - unfold getRefreshToken, orNull, getItem. rewrite H2. reflexivity.
Qed.

(** X25. Without a readable access token (none stored, an empty one, or a
    storage read that fails) no API function sends a request, and each
    rejects with "No access token found"; a snapshot cycle that ends so
    counts as a failed delivery for the hook. *)
Theorem call_without_token_sends_nothing (o : Outcome) (s : Store) :
  (o = Done -> s !! ACCESS_TOKEN_KEY = None \/ s !! ACCESS_TOKEN_KEY = Some "") ->
  (forall attemptId data reply n t,
     sent (takeProctoringSnapshot o s attemptId data reply) = []
     /\ result (takeProctoringSnapshot o s attemptId data reply) = Throw noToken
     /\ Measures.cycleFails
          (Proctoring.UploadDone n
             (uploadOutcome (result (takeProctoringSnapshot o s attemptId data reply))) t)
        = true)
  /\ (forall (A : Type) c (reply : Reply A),
        sent (perform o s c reply) = [] /\ result (perform o s c reply) = Throw noToken)
  /\ (forall attemptId examId attemptReply replies,
        exists s', getExamQuestions o s attemptId examId attemptReply replies
                   = Some {| store := s'; sent := []; result := Throw noToken |}).
Proof.
  intros H. destruct (readToken_missing o s H) as [s' Hr].
  split; [|split].
  - intros. unfold takeProctoringSnapshot, authorizedPost. rewrite Hr.
    repeat split; reflexivity.
  - intros A c reply. destruct c; unfold perform, submitAnswer, autoSaveAnswer, submitExam,
      authorizedPost; rewrite Hr; split; reflexivity.
  - intros. exists s'. unfold getExamQuestions. rewrite Hr. reflexivity.
Qed.

Lemma call_without_token_sends_nothing_witness :
  result (takeProctoringSnapshot (Failed (TypeError "storage") ∅)
            (<[ACCESS_TOKEN_KEY := "abc"]> ∅) 7
            (Proctoring.prepareSnapshotData Samples.props7 "t" "aGVsbG8=")
            (Answered (Samples.response [] 0 false)))
  = Throw noToken.
Proof.
  assert (H : Failed (TypeError "storage") ∅ = Done ->
              (<[ACCESS_TOKEN_KEY := "abc"]> ∅ : Store) !! ACCESS_TOKEN_KEY = None
              \/ (<[ACCESS_TOKEN_KEY := "abc"]> ∅ : Store) !! ACCESS_TOKEN_KEY = Some "")
    by discriminate.
  destruct (call_without_token_sends_nothing _ _ H) as (H1 & _).
  destruct (H1 7%Z (Proctoring.prepareSnapshotData Samples.props7 "t" "aGVsbG8=")
              (Answered (Samples.response [] 0 false)) 0%nat "t") as (_ & H2 & _).
  exact H2.
Defined.

(** *** The pages of the question list *)

Lemma truthy_idem (u : option string) : truthy (truthy u) = truthy u.
Proof.
  destruct u as [u|]; [|reflexivity]. simpl.
  destruct (String.eqb u "") eqn:E; [reflexivity|]. simpl. rewrite E. reflexivity.
Qed.

Lemma fetchPages_truthy (token : string) (replies : list (Reply Page))
    (nextUrl : option string) (all : list Exam.Question) (requests : list Request) :
  fetchPages token replies (truthy nextUrl) all requests
  = fetchPages token replies nextUrl all requests.
Proof.
  destruct replies as [|r rest]; simpl; rewrite truthy_idem;
    destruct (truthy nextUrl); reflexivity.
Qed.

(** The loop over a trail of answered pages. *)
Lemma fetchPages_trail (token : string) (pages : list Page) :
  forall (rest : list (Reply Page)) (nextUrl : option string)
         (all : list Exam.Question) (requests : list Request)
         (us : list string) (final : option string),
  trail nextUrl pages = Some (us, final) ->
  fetchPages token (map Answered pages ++ rest) nextUrl all requests
  = fetchPages token rest final (all ++ concat (map results pages))
      (requests ++ map (get token) us).
Proof.
  induction pages as [|p ps IH]; intros rest nextUrl all requests us final Ht.
  - simpl in Ht. inversion Ht; subst. simpl. rewrite !app_nil_r.
    apply eq_sym, fetchPages_truthy.
  - simpl in Ht. destruct (truthy nextUrl) as [u|] eqn:Eu; [|discriminate].
    destruct (trail (next p) ps) as [[us' final']|] eqn:Et; [|discriminate].
    inversion Ht; subst.
    change (fetchPages token (map Answered (p :: ps) ++ rest) nextUrl all requests)
      with (match truthy nextUrl with
            | None => Some (requests, Normal all)
            | Some u0 =>
                fetchPages token (map Answered ps ++ rest) (next p) (all ++ results p)
                  (requests ++ [get token u0])
            end).
    rewrite Eu. rewrite (IH rest (next p) _ _ us' final Et).
    simpl. rewrite <- !app_assoc. reflexivity.
Qed.

Lemma trail_length (pages : list Page) :
  forall nextUrl us final,
    trail nextUrl pages = Some (us, final) -> length us = length pages.
Proof.
  induction pages as [|p ps IH]; intros nextUrl us final Ht; simpl in Ht.
  - inversion Ht; reflexivity.
  - destruct (truthy nextUrl); [|discriminate].
    destruct (trail (next p) ps) as [[us' final']|] eqn:Et; [|discriminate].
    inversion Ht; subst. simpl. f_equal. apply (IH _ _ _ Et).
Qed.

(** X26. When the server answers with a chain of pages that ends (the last
    one has no [next]), the call returns the questions of all pages in
    order, reports their number as [count] whatever the server counted,
    sends one request for each page, each with the token, and reads no
    reply beyond the chain. *)
Theorem pages_are_concatenated
    (s : Store) (token : string) (attemptId examId : Z) (attemptReply : Reply Z)
    (pages : list Page) (rest : list (Reply Page)) (us : list string) :
  s !! ACCESS_TOKEN_KEY = Some token -> token <> "" ->
  examId <> 0%Z ->
  trail (Some (firstPage examId)) pages = Some (us, None) ->
  getExamQuestions Done s attemptId (Some examId) attemptReply (map Answered pages ++ rest)
  = Some {| store := s;
            sent := map (get token) us;
            result := Normal {| results := concat (map results pages);
                                count := Z.of_nat (length (concat (map results pages)));
                                next := None |} |}
  /\ length us = length pages.
Proof.
  intros Hs Hne Hex Ht. split; [|apply (trail_length _ _ _ _ Ht)].
  unfold getExamQuestions. rewrite (readToken_stored s token Hs Hne).
  destruct (Z.eqb_spec examId 0) as [|_]; [contradiction|].
  unfold fetchAll. fold (firstPage examId).
  rewrite (fetchPages_trail token pages rest _ [] [] us None Ht).
  destruct rest; reflexivity.
Qed.

Lemma pages_are_concatenated_witness :
  let page1 := {| results := [Samples.q1]; count := 99;
                  next := Some "https://exams.dashoapp.com/api/questions/questions/?exam=3&page=2" |} in
  let page2 := {| results := [Samples.q2]; count := 99; next := None |} in
  exists c,
    getExamQuestions Done (<[ACCESS_TOKEN_KEY := "abc"]> ∅) 7 (Some 3%Z) (Refused noToken)
      [Answered page1; Answered page2] = Some c
    /\ result c = Normal {| results := [Samples.q1; Samples.q2]; count := 2; next := None |}
    /\ length (sent c) = 2%nat.
Proof.
  intros page1 page2.
  assert (Hs : (<[ACCESS_TOKEN_KEY := "abc"]> ∅ : Store) !! ACCESS_TOKEN_KEY = Some "abc")
    by apply lookup_insert_eq.
  assert (Hne : "abc" <> "") by discriminate.
  assert (Hex : 3%Z <> 0%Z) by discriminate.
  destruct (pages_are_concatenated (<[ACCESS_TOKEN_KEY := "abc"]> ∅) "abc" 7 3
              (Refused noToken) [page1; page2] []
              [firstPage 3;
               "https://exams.dashoapp.com/api/questions/questions/?exam=3&page=2"]
              Hs Hne Hex eq_refl) as [H _].
  eexists. split; [exact H|]. split; reflexivity.
Defined.

(** X27. When every page the server has answered so far names a next one,
    the call has not returned: it waits for the next reply, however many
    pages came. And when the server then refuses the next request, the call
    rejects with that error and the questions fetched so far are lost. *)
Theorem refused_page_loses_all_pages
    (s : Store) (token : string) (attemptId examId : Z) (attemptReply : Reply Z)
    (pages : list Page) (rest : list (Reply Page)) (us : list string) (u : string)
    (e : Error) :
  s !! ACCESS_TOKEN_KEY = Some token -> token <> "" ->
  examId <> 0%Z ->
  trail (Some (firstPage examId)) pages = Some (us, Some u) ->
  getExamQuestions Done s attemptId (Some examId) attemptReply (map Answered pages) = None
  /\ getExamQuestions Done s attemptId (Some examId) attemptReply
       (map Answered pages ++ Refused e :: rest)
     = Some {| store := s; sent := map (get token) (us ++ [u]); result := Throw e |}.
Proof.
  intros Hs Hne Hex Ht.
  assert (Hu : truthy (Some u) = Some u).
  { assert (G : forall pages nextUrl us final,
                trail nextUrl pages = Some (us, final) -> truthy final = final).
    { clear. induction pages as [|p ps IH]; intros nextUrl us final Ht; simpl in Ht.
      - inversion Ht; subst. apply truthy_idem.
      - destruct (truthy nextUrl); [|discriminate].
        destruct (trail (next p) ps) as [[us' final']|] eqn:Et; [|discriminate].
        inversion Ht; subst. apply (IH _ _ _ Et). }
    apply (G _ _ _ _ Ht). }
  unfold getExamQuestions. rewrite (readToken_stored s token Hs Hne).
  destruct (Z.eqb_spec examId 0) as [|_]; [contradiction|].
  unfold fetchAll. fold (firstPage examId). split.
  - rewrite <- (app_nil_r (map Answered pages)).
    rewrite (fetchPages_trail token pages [] _ [] [] us (Some u) Ht).
    unfold fetchPages. rewrite Hu. reflexivity.
  - rewrite (fetchPages_trail token pages (Refused e :: rest) _ [] [] us (Some u) Ht).
    unfold fetchPages. rewrite Hu. simpl. rewrite map_app. reflexivity.
Qed.

Lemma refused_page_loses_all_pages_witness :
  let page1 := {| results := [Samples.q1]; count := 2;
                  next := Some "https://exams.dashoapp.com/api/questions/questions/?exam=3&page=2" |} in
  getExamQuestions Done (<[ACCESS_TOKEN_KEY := "abc"]> ∅) 7 (Some 3%Z) (Refused noToken)
    [Answered page1; Refused (ApiError "Request failed" (Some 500%Z))]
  = Some {| store := <[ACCESS_TOKEN_KEY := "abc"]> ∅;
            sent := map (get "abc")
                      [firstPage 3;
                       "https://exams.dashoapp.com/api/questions/questions/?exam=3&page=2"];
            result := Throw (ApiError "Request failed" (Some 500%Z)) |}.
Proof.
  intros page1.
  assert (Hs : (<[ACCESS_TOKEN_KEY := "abc"]> ∅ : Store) !! ACCESS_TOKEN_KEY = Some "abc")
    by apply lookup_insert_eq.
  assert (Hne : "abc" <> "") by discriminate.
  assert (Hex : 3%Z <> 0%Z) by discriminate.
  destruct (refused_page_loses_all_pages (<[ACCESS_TOKEN_KEY := "abc"]> ∅) "abc" 7 3
              (Refused noToken) [page1] [] [firstPage 3]
              "https://exams.dashoapp.com/api/questions/questions/?exam=3&page=2"
              (ApiError "Request failed" (Some 500%Z)) Hs Hne Hex eq_refl) as [_ H].
  exact H.
Defined.

End ApiFacts.

(** * Whole sittings *)

Module SittingFacts.
Import Js Measures Scheduler Sitting.

(** Only the arrival of the attempt writes [attempt]. *)
Lemma step_attempt (a : Z) (w : Exam.World) (e : Exam.Event) (x : Exam.World) :
  Exam.step a w e = Some x ->
  Exam.attempt (Exam.state x)
  = match e with
    | Exam.AttemptLoaded att => Some att
    | _ => Exam.attempt (Exam.state w)
    end.
Proof.
  assert (Hupd : forall k d y,
            Exam.attempt (Exam.state (Exam.updateQuestionTime k d y))
            = Exam.attempt (Exam.state y)) by reflexivity.
  assert (Heff : forall now y,
            Exam.attempt (Exam.state (Exam.questionEffect now y))
            = Exam.attempt (Exam.state y)).
  { intros now y. unfold Exam.questionEffect, Exam.updateQuestionTime.
    destruct (Exam.questionCleanup y) as [[cq st]|];
      destruct (Exam.questions (Exam.state y) !! Exam.currentQuestionIndex (Exam.state y));
      reflexivity. }
  assert (Hnav : forall c index now y,
            Exam.attempt (Exam.state (Exam.navigateToQuestion c index now y))
            = Exam.attempt (Exam.state y)).
  { intros c index now y. unfold Exam.navigateToQuestion, Exam.updateQuestionTime.
    destruct (Exam.questions (Exam.captured c) !! Exam.currentQuestionIndex (Exam.captured c));
      destruct (Exam.questions (Exam.captured c) !! index) as [tq|];
      try destruct (bool_decide _); reflexivity. }
  assert (Hsub : forall c now y,
            Exam.attempt (Exam.state (Exam.submitExam c now y))
            = Exam.attempt (Exam.state y)).
  { intros c now y. unfold Exam.submitExam, Exam.updateQuestionTime.
    destruct (Exam.questions (Exam.captured c) !! Exam.currentQuestionIndex (Exam.captured c));
      reflexivity. }
  assert (Hel : forall now, Exam.attempt (Exam.state (Exam.elapse now w))
                            = Exam.attempt (Exam.state w)).
  { intros now. destruct (SessionFacts.elapse_frame now w) as (E1 & _). rewrite E1.
    reflexivity. }
  destruct e as [att|sorted fs now|q ans f now|index now|now|now|now|n ok at_|n ok];
    unfold Exam.step; intros Hstep.
  - inversion Hstep; subst. unfold Exam.countdownEffect. simpl.
    destruct (Exam.time_remaining att =? 0)%Z; reflexivity.
  - inversion Hstep; subst. rewrite Heff. destruct fs; simpl; apply Hel.
  - inversion Hstep; subst. rewrite <- (Hel now). unfold Exam.autoSaveAnswer. simpl.
    destruct (Exam.autoSaveTimeoutRef (Exam.elapse now w)); reflexivity.
  - destruct (Nat.eqb index _); inversion Hstep; subst;
      rewrite ?Heff, Hnav; apply Hel.
  - inversion Hstep; subst. apply Hel.
  - inversion Hstep; subst. rewrite <- (Hel now). unfold Exam.countdownTick.
    destruct (Exam.countdown (Exam.elapse now w)) as [c|]; [|reflexivity].
    destruct (Exam.timeRemaining (Exam.state (Exam.elapse now w)) <=? 0)%Z;
      [|reflexivity].
    unfold Exam.handleAutoSubmit.
    change (Exam.attempt (Exam.state (Exam.submitExam c now
              (Exam.alert "Time's Up!" (Exam.withCountdown None (Exam.elapse now w)))))
            = Exam.attempt (Exam.state (Exam.elapse now w))).
    rewrite Hsub. reflexivity.
  - inversion Hstep; subst. rewrite Hsub. apply Hel.
  - destruct (Exam.inflight w !! n) as [[|]|]; try discriminate.
    inversion Hstep; subst. unfold Exam.saveSettled. destruct ok; reflexivity.
  - destruct (Exam.inflight w !! n) as [[|]|]; try discriminate.
    inversion Hstep; subst. reflexivity.
Qed.

Lemma step_unproctored (attemptId : Z) (device : Proctoring.Metadata)
    (s s' : Screen.World) (ev : Screen.Event) :
  enables ev = false ->
  Screen.step attemptId device s ev = Some s' ->
  unproctored attemptId device s -> unproctored attemptId device s'.
Proof.
  intros Hen Hstep [Hoff Hidle]. destruct ev as [e|e]; unfold Screen.step in Hstep.
  - destruct (Exam.step attemptId (Screen.exam s) e) as [x|] eqn:Hx; [|discriminate].
    assert (Hoff' : Proctoring.isProctoringEnabled (Screen.hookProps attemptId device x)
                    = false).
    { unfold Screen.hookProps in *. simpl in *. rewrite (step_attempt _ _ _ _ Hx).
      destruct e; try exact Hoff. simpl in Hen. exact Hen. }
    cbv zeta in Hstep. rewrite Hoff, Hoff' in Hstep. simpl in Hstep.
    inversion Hstep; subst.
    split; [exact Hoff'|exact Hidle].
  - assert (G : forall x r,
              Proctoring.step (Screen.hookProps attemptId device (Screen.exam s))
                (Screen.proctoring s) e = Some (x, r) ->
              unproctored attemptId device
                {| Screen.exam := Screen.exam s; Screen.proctoring := x |}).
    { intros x r Hp. split; [exact Hoff|].
      apply (SchedulerFacts.idle_step _ _ _ _ _ Hidle Hp). rewrite Hoff. reflexivity. }
    destruct e; try (rewrite Hoff in Hstep; discriminate Hstep);
      match type of Hstep with
      | match ?m with _ => _ end = _ =>
          destruct m as [[x r]|] eqn:Hp; [|discriminate Hstep];
          inversion Hstep; subst; exact (G x r eq_refl)
      end.
Qed.

(** X28. In a sitting where no attempt that asks for proctoring arrives,
    the camera is never used: whatever else happens on the screen and in the
    hook, no photo is taken, nothing is uploaded and no timer is armed. *)
Theorem no_proctoring_no_camera (attemptId mounted : Z) (device : Proctoring.Metadata)
    (current : Proctoring.AppStateStatus) (evs : list Screen.Event) (s : Screen.World) :
  forallb (fun ev => negb (enables ev)) evs = true ->
  run attemptId device (initialWorld mounted current) evs = Some s ->
  Proctoring.calls (Screen.proctoring s) = []
  /\ Proctoring.timers (Screen.proctoring s) = []
  /\ Proctoring.inflight (Screen.proctoring s) = []
  /\ Proctoring.snapshotIntervalRef (Screen.proctoring s) = None.
Proof.
  intros Hno Hrun.
  assert (G : forall evs s0, forallb (fun ev => negb (enables ev)) evs = true ->
              unproctored attemptId device s0 ->
              run attemptId device s0 evs = Some s -> unproctored attemptId device s).
  { clear. induction evs as [|ev evs IH]; intros s0 Hno H0 Hrun; simpl in *.
    - inversion Hrun; subst. exact H0.
    - apply andb_prop in Hno as [Hev Hevs].
      destruct (Screen.step attemptId device s0 ev) as [s1|] eqn:E; [|discriminate].
      apply (IH s1 Hevs); [|exact Hrun].
      apply (step_unproctored attemptId device s0 s1 ev); [|exact E|exact H0].
      destruct (enables ev); [discriminate|reflexivity]. }
  destruct (G evs (initialWorld mounted current) Hno) as [_ (Ht & Hf & Hc & Hr)];
    [split; [reflexivity|repeat split]|exact Hrun|].
  repeat split; assumption.
Qed.

Lemma no_proctoring_no_camera_witness :
  exists s,
    run 7 Samples.device (initialWorld 0 Proctoring.active)
      [Screen.ExamEvent (Exam.AttemptLoaded {| Exam.proctoring_enabled := false;
                                               Exam.time_remaining := 600 |});
       Screen.HookEvent (Proctoring.AppStateChanged Proctoring.background);
       Screen.HookEvent (Proctoring.AppStateChanged Proctoring.active);
       Screen.ExamEvent (Exam.Edit 101 "A" false 1000)] = Some s
    /\ Proctoring.calls (Screen.proctoring s) = [].
Proof.
  destruct (run 7 Samples.device (initialWorld 0 Proctoring.active)
      [Screen.ExamEvent (Exam.AttemptLoaded {| Exam.proctoring_enabled := false;
                                               Exam.time_remaining := 600 |});
       Screen.HookEvent (Proctoring.AppStateChanged Proctoring.background);
       Screen.HookEvent (Proctoring.AppStateChanged Proctoring.active);
       Screen.ExamEvent (Exam.Edit 101 "A" false 1000)]) as [s|] eqn:E;
    [|vm_compute in E; discriminate E].
  exists s. split; [reflexivity|].
  destruct (no_proctoring_no_camera 7 0 Samples.device Proctoring.active
      [Screen.ExamEvent (Exam.AttemptLoaded {| Exam.proctoring_enabled := false;
                                               Exam.time_remaining := 600 |});
       Screen.HookEvent (Proctoring.AppStateChanged Proctoring.background);
       Screen.HookEvent (Proctoring.AppStateChanged Proctoring.active);
       Screen.ExamEvent (Exam.Edit 101 "A" false 1000)] s eq_refl E)
    as (H & _).
  exact H.
Defined.

End SittingFacts.
